(** * nanocortex: a shallow embedding of the decision pipeline

    The development follows the Python sources of the repository:

    - [nanocortex/models/domain.py]       the frozen records,
    - [nanocortex/audit/logger.py]        the append-only audit trail,
    - [nanocortex/reasoning/policy.py]    the policy engine,
    - [nanocortex/reasoning/agent.py]     the decision agent,
    - [nanocortex/knowledge/retriever.py] the hybrid retriever,
    - [nanocortex/learning/feedback.py]   the learning loop.

    Python objects with mutable attributes become records that are passed
    through a state-and-exception monad; Python [float] arithmetic is kept
    abstract behind the interface [PyFloat]; the [re] module and the HTTP
    client are collaborators given as parameters. *)

From Stdlib Require Import ZArith QArith Lia Ascii String List Permutation Sorted.
From Stdlib Require Import DecimalString.
From Stdlib Require DecimalPos DecimalZ.
From stdpp Require Import base option list strings gmap.

Set Warnings "-register-all".
Local Open Scope Z_scope.

(** ** Python strings

    A [str] is modelled as a [string] of 8-bit characters; the operations
    below are the ones the sources call, with Python's semantics on such
    strings. *)

Module PyStr.

(** [c.isspace()] for the code points below 256. *)
Definition is_space (c : ascii) : bool :=
  let n := nat_of_ascii c in
  ((9 <=? n) && (n <=? 13) || (28 <=? n) && (n <=? 32)
   || (n =? 133) || (n =? 160))%nat.

Fixpoint lstrip (s : string) : string :=
  match s with
  | EmptyString => EmptyString
  | String c s' => if is_space c then lstrip s' else s
  end.

Fixpoint rstrip (s : string) : string :=
  match s with
  | EmptyString => EmptyString
  | String c s' =>
      match rstrip s' with
      | EmptyString => if is_space c then EmptyString else String c EmptyString
      | r => String c r
      end
  end.

(** [s.strip()] *)
Definition strip (s : string) : string := rstrip (lstrip s).

(** [s.startswith(p)] *)
Fixpoint startswith (p s : string) : bool :=
  match p, s with
  | EmptyString, _ => true
  | String a p', String b s' => if Ascii.eqb a b then startswith p' s' else false
  | String _ _, EmptyString => false
  end.

(** [s[n:]] for [0 <= n] *)
Fixpoint slice_from (n : nat) (s : string) : string :=
  match n, s with
  | O, _ => s
  | S n', String _ s' => slice_from n' s'
  | S _, EmptyString => EmptyString
  end.

(** [s[:n]] for [0 <= n] *)
Fixpoint slice_to (n : nat) (s : string) : string :=
  match n, s with
  | O, _ => EmptyString
  | S n', String c s' => String c (slice_to n' s')
  | S _, EmptyString => EmptyString
  end.

(** [bool(s)]: a string is truthy when it is not empty. *)
Definition truthy (s : string) : bool :=
  match s with EmptyString => false | _ => true end.

(** [c.lower()] for the code points below 256: the capitals [A]-[Z] and
    the Latin-1 capitals 192-222, the multiplication sign 215 apart, move
    up by 32; every other code point is kept. *)
Definition lower_char (c : ascii) : ascii :=
  let n := nat_of_ascii c in
  if ((65 <=? n) && (n <=? 90)
      || (192 <=? n) && (n <=? 222) && negb (n =? 215))%nat
  then ascii_of_nat (n + 32) else c.

(** [s.lower()] *)
Fixpoint lower (s : string) : string :=
  match s with
  | EmptyString => EmptyString
  | String c s' => String (lower_char c) (lower s')
  end.

(** [s.replace(old, new)] for a non-empty [old]: the occurrences of [old]
    are found left to right and do not overlap.  [skip] counts the
    characters of a matched occurrence still to be dropped. *)
Fixpoint replace_go (old new : string) (skip : nat) (s : string) : string :=
  match s with
  | EmptyString => EmptyString
  | String c s' =>
      match skip with
      | S k => replace_go old new k s'
      | O =>
          if startswith old s
          then new +:+ replace_go old new (String.length old - 1) s'
          else String c (replace_go old new 0 s')
      end
  end.

Definition replace (old new s : string) : string := replace_go old new 0 s.

(** [s.split(sep)] for a non-empty [sep]; [cur] is the piece being read. *)
Fixpoint split_go (sep : string) (skip : nat) (cur s : string) : list string :=
  match s with
  | EmptyString => [cur]
  | String c s' =>
      match skip with
      | S k => split_go sep k cur s'
      | O =>
          if startswith sep s
          then cur :: split_go sep (String.length sep - 1) EmptyString s'
          else split_go sep 0 (cur +:+ String c EmptyString) s'
      end
  end.

Definition split (sep s : string) : list string := split_go sep 0 EmptyString s.

(** [s.split(sep, 1)] when [sep in s]: the text before the first occurrence
    and the text after it; [None] when [sep] does not occur, which is the
    case [sep in s] is false. *)
Fixpoint split_once_go (sep : string) (cur s : string) : option (string * string) :=
  match s with
  | EmptyString => if startswith sep s then Some (cur, EmptyString) else None
  | String c s' =>
      if startswith sep s
      then Some (cur, slice_from (String.length sep) s)
      else split_once_go sep (cur +:+ String c EmptyString) s'
  end.

Definition split_once (sep s : string) : option (string * string) :=
  split_once_go sep EmptyString s.

(** [s.split()]: the maximal runs of non-whitespace characters. *)
Fixpoint split_ws_go (cur s : string) : list string :=
  match s with
  | EmptyString => if truthy cur then [cur] else []
  | String c s' =>
      if is_space c
      then (if truthy cur then cur :: split_ws_go EmptyString s'
            else split_ws_go EmptyString s')
      else split_ws_go (cur +:+ String c EmptyString) s'
  end.

Definition split_ws (s : string) : list string := split_ws_go EmptyString s.

(** [sep.join(parts)] *)
Fixpoint join (sep : string) (parts : list string) : string :=
  match parts with
  | [] => EmptyString
  | [p] => p
  | p :: ps => p +:+ sep +:+ join sep ps
  end.

(** [str(n)] for an [int]: its decimal numeral. *)
Definition of_int (n : Z) : string := NilZero.string_of_int (Z.to_int n).

(** [c * n] for a one-character string [c] *)
Fixpoint repeat_char (c : ascii) (n : nat) : string :=
  match n with
  | O => EmptyString
  | S n' => String c (repeat_char c n')
  end.

End PyStr.

(** ** Exceptions and the state monad

    A method either returns or raises; in both cases the mutations made so
    far stay.  [M S A] is a computation on a state [S]. *)

Inductive PyExc : Type :=
| re_error         (** [re.error]: the pattern does not compile *)
| ValueError
| ValidationError  (** pydantic: a field got a value that is not of its type *).

Inductive Res (A : Type) : Type :=
| Ok (a : A)
| Raise (e : PyExc).
Arguments Ok {A} a.
Arguments Raise {A} e.

Definition M (S A : Type) : Type := S -> Res A * S.

Definition ret {S A} (a : A) : M S A := fun s => (Ok a, s).

Definition bind {S A B} (m : M S A) (k : A -> M S B) : M S B :=
  fun s => match m s with
           | (Ok a, s') => k a s'
           | (Raise e, s') => (Raise e, s')
           end.

Definition get {S} : M S S := fun s => (Ok s, s).
Definition modify {S} (f : S -> S) : M S unit := fun s => (Ok tt, f s).
Definition lift_res {S A} (r : Res A) : M S A := fun s => (r, s).

Declare Scope py_scope.
Delimit Scope py_scope with py.
Notation "x <- m ;; k" := (bind m (fun x => k))
  (at level 100, m at next level, right associativity) : py_scope.
Notation "m ;;; k" := (bind m (fun _ => k))
  (at level 100, right associativity) : py_scope.

(** A pure loop that stops at the first exception: [[f(x) for x in l]]. *)
Fixpoint map_res {A B} (f : A -> Res B) (l : list A) : Res (list B) :=
  match l with
  | [] => Ok []
  | x :: l' =>
      match f x with
      | Raise e => Raise e
      | Ok y => match map_res f l' with
                | Raise e => Raise e
                | Ok ys => Ok (y :: ys)
                end
      end
  end.

(** ** Collaborators *)

(** Python's [float], with the operations the sources use.  [of_int] is
    the conversion of an [int] operand in mixed arithmetic, [lit] the value
    of a decimal literal, [to_float] is [float(s)] with [None] for
    [ValueError], [round4] is [round(x, 4)] and [frepr] the text an
    f-string gives. *)
Class PyFloat : Type := {
  float : Type;
  of_int : Z -> float;
  lit : Q -> float;
  fadd : float -> float -> float;
  fsub : float -> float -> float;
  fmul : float -> float -> float;
  fdiv : float -> float -> float;
  flog : float -> float;
  flt : float -> float -> bool;
  fle : float -> float -> bool;
  round4 : float -> float;
  to_float : string -> option float;
  frepr : float -> string;
}.

(** What the proofs about ranking use of [<] and [<=]: on the scores the
    retriever computes (none is a NaN) they form a total preorder, and
    adding to [0.0] is exact. *)
Class PyFloatLaws (F : PyFloat) : Prop := {
  fle_flt : forall a b, fle a b = negb (flt b a);
  flt_asym : forall a b, flt a b = true -> flt b a = false;
  flt_negtrans : forall a b c, flt a b = false -> flt b c = false -> flt a c = false;
  fadd_zero_l : forall a, fadd (lit 0) (fdiv (lit 1) (of_int a)) = fdiv (lit 1) (of_int a);
}.

(** What the proofs about filtering use of the sign of a score: the test
    of [retrieve] is [score <= 0]; [0.0] fails to be positive, [0 / n] is
    [0.0], a reciprocal [1.0 / n] of a positive [int] is positive and so
    is the sum of two positive scores. *)
Class PyFloatSign (F : PyFloat) : Prop := {
  zero_not_positive : fle (lit 0) (of_int 0) = true;
  zero_ratio : forall n, 0 < n -> fdiv (of_int 0) (of_int n) = lit 0;
  reciprocal_positive : forall n, 0 < n -> fle (fdiv (lit 1) (of_int n)) (of_int 0) = false;
  sum_positive : forall a b,
      fle a (of_int 0) = false -> fle b (of_int 0) = false ->
      fle (fadd a b) (of_int 0) = false;
}.

(** [re.search(pattern, text, re.IGNORECASE)] turned into a [bool]; [None]
    when the pattern does not compile and [re.error] is raised. *)
Class PyRegex : Type := {
  re_search_ignorecase : string -> string -> option bool;
}.

(** [uuid.uuid4().hex[:16]] and [datetime.now(timezone.utc)]: the [n]-th
    value the process draws from either source. *)
Class Runtime : Type := {
  _new_id : nat -> string;
  _utcnow : nat -> Z;
  isoformat : Z -> string;
}.

(** ** Executable instances of the collaborators

    The theorems below hold for every instance.  The closed examples are
    evaluated with exact rational arithmetic, a small regular-expression
    engine and a counter-based runtime. *)

Module Instances.

(** A rational approximation of [math.log] on positive arguments: seven
    terms of [2 * atanh((x - 1) / (x + 1))]. *)
Fixpoint atanh_series (z z2 : Q) (i : nat) (terms : nat) : Q :=
  match terms with
  | O => 0
  | S terms' =>
      Qred (z / inject_Z (Z.of_nat (2 * i + 1))
            + atanh_series (Qred (z * z2)) z2 (S i) terms')
  end%Q.

Definition Qlog (x : Q) : Q :=
  if Qle_bool x 0 then 0%Q
  else let z := Qred ((x - 1) / (x + 1)) in
       Qred (2 * atanh_series z (Qred (z * z)) 0 7).

(** [round(x, 4)]: the nearest multiple of [1/10000], ties to even. *)
Definition Qround4 (x : Q) : Q :=
  let y := Qred (x * 10000) in
  let fl := (Qnum y / Zpos (Qden y))%Z in
  let r2 := (2 * (Qnum y mod Zpos (Qden y)))%Z in
  let n := if (r2 <? Zpos (Qden y))%Z then fl
           else if (Zpos (Qden y) <? r2)%Z then (fl + 1)%Z
           else if Z.even fl then fl else (fl + 1)%Z in
  Qred (n # 10000).

Definition digit_of (c : ascii) : option Z :=
  let n := nat_of_ascii c in
  if ((48 <=? n) && (n <=? 57))%nat then Some (Z.of_nat (n - 48)) else None.

(** Reads [digits] into [acc]; gives the number and how many digits. *)
Fixpoint read_digits (s : string) (acc : Z) (count : nat) : option (Z * nat * string) :=
  match s with
  | EmptyString => Some (acc, count, EmptyString)
  | String c s' =>
      match digit_of c with
      | Some d => read_digits s' (10 * acc + d)%Z (S count)
      | None => Some (acc, count, s)
      end
  end.

(** [float(s)] on plain decimal numerals [[+-]digits[.digits]]; the other
    spellings Python accepts (exponents, [inf], [nan]) are not read. *)
Definition Qparse (s : string) : option Q :=
  let '(sign, body) :=
    match s with
    | String "-" rest => ((-1)%Z, rest)
    | String "+" rest => (1%Z, rest)
    | _ => (1%Z, s)
    end in
  match read_digits body 0 0 with
  | Some (ip, n1, rest) =>
      match rest with
      | EmptyString =>
          if (n1 =? 0)%nat then None else Some (Qred (inject_Z (sign * ip)))
      | String "." frac =>
          match read_digits frac 0 0 with
          | Some (fp, n2, EmptyString) =>
              if (n1 + n2 =? 0)%nat then None
              else Some (Qred (inject_Z sign
                               * (inject_Z ip + inject_Z fp / inject_Z (10 ^ Z.of_nat n2))))
          | _ => None
          end
      | _ => None
      end
  | None => None
  end.

#[export] Instance QFloat : PyFloat := {|
  float := Q;
  of_int := inject_Z;
  lit := Qred;
  fadd := fun a b => Qred (a + b);
  fsub := fun a b => Qred (a - b);
  fmul := fun a b => Qred (a * b);
  fdiv := fun a b => Qred (a / b);
  flog := Qlog;
  flt := fun a b => negb (Qle_bool b a);
  fle := Qle_bool;
  round4 := Qround4;
  to_float := Qparse;
  frepr := fun x => PyStr.of_int (Qnum x) +:+ "/" +:+ PyStr.of_int (Zpos (Qden x));
|}.

(** [sub in s] *)
Fixpoint str_in (sub s : string) : bool :=
  if PyStr.startswith sub s then true
  else match s with
       | EmptyString => false
       | String _ s' => str_in sub s'
       end.

(** Are the parentheses of the pattern balanced? *)
Fixpoint parens_balanced (depth : nat) (p : string) : bool :=
  match p with
  | EmptyString => (depth =? 0)%nat
  | String "(" p' => parens_balanced (S depth) p'
  | String ")" p' =>
      match depth with
      | O => false
      | S d => parens_balanced d p'
      end
  | String _ p' => parens_balanced depth p'
  end.

(** A regular-expression engine for patterns that are alternations of
    literal words, as the rules of the tests are ([financial|medical]).
    It refuses a pattern with unbalanced parentheses, which [re] refuses
    too. *)
#[export] Instance LiteralRegex : PyRegex := {|
  re_search_ignorecase := fun pattern text =>
    if parens_balanced 0 pattern
    then Some (existsb (fun alt => str_in (PyStr.lower alt) (PyStr.lower text))
                       (PyStr.split "|" pattern))
    else None;
|}.

(** Identifiers [id0], [id1], ... and a clock that ticks with them. *)
#[export] Instance CounterRuntime : Runtime := {|
  _new_id := fun n => "id" +:+ PyStr.of_int (Z.of_nat n);
  _utcnow := fun n => Z.of_nat n;
  isoformat := fun t => PyStr.of_int t;
|}.

End Instances.

Section Nanocortex.

Context {F : PyFloat} {RE : PyRegex} {RT : Runtime}.

(** ** models/domain.py *)

(** A JSON-like value: the payload of an audit event and the body of an
    HTTP request ([dict[str, Any]]). *)
Inductive Json : Type :=
| JNull
| JBool (b : bool)
| JInt (n : Z)
| JFloat (x : float)
| JStr (s : string)
| JList (l : list Json)
| JObj (fields : list (string * Json)).

(** [f"{value}"] for a value decoded from JSON that is not a [str]. *)
Class PyFormat : Type := {
  format_value : Json -> string;
}.

Context {FMT : PyFormat}.

(** [f"{value}"] for any value decoded from JSON: a [str] is shown as it
    is. *)
Definition py_format (value : Json) : string :=
  match value with
  | JStr s => s
  | _ => format_value value
  end.

(** [isinstance(value, str)] *)
Definition is_text (value : Json) : bool :=
  match value with
  | JStr _ => true
  | _ => false
  end.

Record BoundingBox : Type := {
  bb_x : float; bb_y : float; bb_width : float; bb_height : float; bb_page : Z;
}.

Record ExtractedText : Type := {
  et_text : string;
  et_confidence : float;
  et_bbox : option BoundingBox;
  et_source_page : Z;
}.

Record ExtractedImage : Type := {
  ei_image_id : string;
  ei_page : Z;
  ei_bbox : option BoundingBox;
  ei_image_bytes_b64 : string;
  ei_description : string;
}.

Record DocumentIngestion : Type := {
  di_doc_id : string;
  di_filename : string;
  di_mime_type : string;
  di_pages : Z;
  di_texts : list ExtractedText;
  di_images : list ExtractedImage;
  di_ingested_at : Z;
}.

Record Citation : Type := {
  cit_doc_id : string;
  cit_page : Z;
  cit_bbox : option BoundingBox;
  cit_image_id : option string;
  cit_snippet : string;
}.

Record RetrievalResult : Type := {
  rr_chunk_id : string;
  rr_text : string;
  rr_score : float;
  rr_citations : list Citation;
  rr_modality : string;
}.

Record RetrievalResponse : Type := {
  resp_query : string;
  resp_results : list RetrievalResult;
  resp_strategy : string;
}.

Inductive PolicyVerdict : Type := ALLOW | DENY | NEEDS_APPROVAL.

Definition PolicyVerdict_value (v : PolicyVerdict) : string :=
  match v with
  | ALLOW => "allow"
  | DENY => "deny"
  | NEEDS_APPROVAL => "needs_approval"
  end.

Definition PolicyVerdict_eqb (a b : PolicyVerdict) : bool :=
  match a, b with
  | ALLOW, ALLOW | DENY, DENY | NEEDS_APPROVAL, NEEDS_APPROVAL => true
  | _, _ => false
  end.

Record PolicyRule : Type := {
  pr_rule_id : string;
  pr_name : string;
  pr_description : string;
  pr_condition : string;
  pr_verdict : PolicyVerdict;
}.

Record PolicyEvaluation : Type := {
  pe_rule : PolicyRule;
  pe_matched : bool;
  pe_verdict : PolicyVerdict;
  pe_explanation : string;
}.

Inductive AgentState : Type :=
| RUNNING | PAUSED | WAITING_APPROVAL | COMPLETED | FAILED.

Record Decision : Type := {
  d_decision_id : string;
  d_query : string;
  d_answer : string;
  d_evidence : list RetrievalResult;
  d_policy_evaluations : list PolicyEvaluation;
  d_agent_state : AgentState;
  d_model_used : string;
  d_auditor_model : string;
  d_created_at : Z;
}.

Inductive OutcomeRating : Type :=
| CORRECT | PARTIALLY_CORRECT | INCORRECT | HALLUCINATION.

Definition OutcomeRating_value (r : OutcomeRating) : string :=
  match r with
  | CORRECT => "correct"
  | PARTIALLY_CORRECT => "partially_correct"
  | INCORRECT => "incorrect"
  | HALLUCINATION => "hallucination"
  end.

Record FeedbackRecord : Type := {
  fb_feedback_id : string;
  fb_decision_id : string;
  fb_rating : OutcomeRating;
  fb_corrected_answer : string;
  fb_explanation : string;
  fb_created_at : Z;
}.

Record LearningAdjustment : Type := {
  la_adjustment_id : string;
  la_trigger_feedback_id : string;
  la_adjustment_type : string;
  la_description : string;
  la_parameters : list (string * Json);
  la_applied_at : Z;
}.

Record AuditEvent : Type := {
  ae_event_id : string;
  ae_timestamp : Z;
  ae_layer : string;
  ae_event_type : string;
  ae_payload : list (string * Json);
  ae_decision_id : option string;
  ae_actor : string;
}.

Record HumanOverride : Type := {
  ho_override_id : string;
  ho_decision_id : string;
  ho_original_answer : string;
  ho_overridden_answer : string;
  ho_reason : string;
  ho_overridden_at : Z;
}.

(** ** The process state shared by the components

    [w_tick] counts the values drawn from [_new_id] and [_utcnow];
    [w_events] is [AuditLogger._events]; [w_requests] lists the HTTP
    requests sent so far, oldest first. *)

Record HttpRequest : Type := {
  rq_url : string;
  rq_headers : list (string * string);
  rq_json : Json;
}.

Record World : Type := {
  w_tick : nat;
  w_events : list AuditEvent;
  w_requests : list HttpRequest;
}.

(** A default factory of a pydantic field: draw one value, advance. *)
Definition fresh_id : M World string :=
  fun w => (Ok (_new_id (w_tick w)),
            {| w_tick := S (w_tick w); w_events := w_events w;
               w_requests := w_requests w |}).

Definition fresh_time : M World Z :=
  fun w => (Ok (_utcnow (w_tick w)),
            {| w_tick := S (w_tick w); w_events := w_events w;
               w_requests := w_requests w |}).

(** ** audit/logger.py

    [_append] adds the event to [_events]; the copy written to the day's
    file is outside the model ([OSError] is caught there). *)

Definition AuditLogger_append (event : AuditEvent) : M World unit :=
  modify (fun w => {| w_tick := w_tick w;
                      w_events := w_events w ++ [event];
                      w_requests := w_requests w |}).

Definition AuditLogger_log (layer event_type : string)
    (payload : list (string * Json)) (decision_id : option string)
    (actor : string) : M World AuditEvent :=
  (event_id <- fresh_id ;;
   timestamp <- fresh_time ;;
   let event := {| ae_event_id := event_id; ae_timestamp := timestamp;
                   ae_layer := layer; ae_event_type := event_type;
                   ae_payload := payload; ae_decision_id := decision_id;
                   ae_actor := actor |} in
   AuditLogger_append event ;;;
   ret event)%py.

(** ** reasoning/policy.py *)

Record PolicyEngine : Type := {
  _rules : list PolicyRule;
}.

Definition add_rule (self : PolicyEngine) (rule : PolicyRule) : PolicyEngine :=
  {| _rules := _rules self ++ [rule] |}.

(** [PolicyEngine._check_condition] *)
Definition _check_condition (rule : PolicyRule) (query : string)
    (evidence : RetrievalResponse) (context : gmap string string) : Res bool :=
  let cond := PyStr.strip (pr_condition rule) in
  if String.eqb cond "no_evidence" then
    Ok (Nat.eqb (length (resp_results evidence)) 0)
  else if PyStr.startswith "contains:" cond then
    let pattern := PyStr.strip (PyStr.slice_from (String.length "contains:") cond) in
    match re_search_ignorecase pattern query with
    | Some found => Ok found
    | None => Raise re_error
    end
  else if PyStr.startswith "min_score:" cond then
    match to_float (PyStr.strip (PyStr.slice_from (String.length "min_score:") cond)) with
    | None => Ok false
    | Some threshold =>
        let top_score :=
          match resp_results evidence with
          | r :: _ => rr_score r
          | [] => lit 0
          end in
        Ok (flt top_score threshold)
    end
  else if PyStr.startswith "context:" cond then
    let kv := PyStr.strip (PyStr.slice_from (String.length "context:") cond) in
    match PyStr.split_once "=" kv with
    | Some (key, value) =>
        Ok (String.eqb (default EmptyString (context !! PyStr.strip key)) (PyStr.strip value))
    | None => Ok false
    end
  else Ok false.

(** The body of the loop of [evaluate]. *)
Definition evaluate_rule (query : string) (evidence : RetrievalResponse)
    (context : gmap string string) (rule : PolicyRule) : Res PolicyEvaluation :=
  match _check_condition rule query evidence context with
  | Raise e => Raise e
  | Ok matched =>
      Ok {| pe_rule := rule;
            pe_matched := matched;
            pe_verdict := if matched then pr_verdict rule else ALLOW;
            pe_explanation :=
              "Rule '" +:+ pr_name rule +:+ "' "
              +:+ (if matched then "matched" else "did not match") |}
  end.

Definition count_matched (evaluations : list PolicyEvaluation) : Z :=
  Z.of_nat (length (filter (fun e => pe_matched e = true) evaluations)).

(** [PolicyEngine.evaluate]; [context or {}] turns [None] into the empty
    dictionary. *)
Definition evaluate (self : PolicyEngine) (query : string)
    (evidence : RetrievalResponse) (context : option (gmap string string))
  : M World (list PolicyEvaluation) :=
  (let context := default ∅ context in
   evaluations <- lift_res (map_res (evaluate_rule query evidence context) (_rules self)) ;;
   AuditLogger_log "reasoning" "policy_evaluation"
     [("query", JStr query);
      ("rules_checked", JInt (Z.of_nat (length (_rules self))));
      ("rules_matched", JInt (count_matched evaluations));
      ("verdicts", JList (map (fun e => JStr (PolicyVerdict_value (pe_verdict e))) evaluations))]
     None "system" ;;;
   ret evaluations)%py.

(** One of the two loops of [check_allowed]: is there a matched evaluation
    with verdict [v]? *)
Fixpoint any_matched (v : PolicyVerdict) (evaluations : list PolicyEvaluation) : bool :=
  match evaluations with
  | [] => false
  | ev :: rest =>
      if pe_matched ev && PolicyVerdict_eqb (pe_verdict ev) v then true
      else any_matched v rest
  end.

(** [PolicyEngine.check_allowed] *)
Definition check_allowed (evaluations : list PolicyEvaluation) : PolicyVerdict :=
  if any_matched DENY evaluations then DENY
  else if any_matched NEEDS_APPROVAL evaluations then NEEDS_APPROVAL
  else ALLOW.

(** ** config.py *)

Record LLMProviderConfig : Type := {
  api_key : string;
  model : string;
  base_url : string;
  role : string;
}.

Record Settings : Type := {
  orchestrator : LLMProviderConfig;
  auditor : LLMProviderConfig;
  ingestion_helper : LLMProviderConfig;
  enable_human_in_loop : bool;
  max_retries : Z;
  log_level : string;
}.

(** ** reasoning/agent.py *)

Record DecisionAgent : Type := {
  _settings : Settings;
  _policy : PolicyEngine;
  _state : AgentState;
  _pending_decision : option Decision;
}.

(** The methods of the agent run on the agent and the shared world. *)
Definition AgentM (A : Type) : Type := M (DecisionAgent * World) A.

Definition in_world {A} (m : M World A) : AgentM A :=
  fun s => match m (snd s) with (r, w') => (r, (fst s, w')) end.

Definition set_state (st : AgentState) : AgentM unit :=
  modify (fun s => ({| _settings := _settings (fst s); _policy := _policy (fst s);
                       _state := st;
                       _pending_decision := _pending_decision (fst s) |}, snd s)).

Definition set_pending_decision (p : option Decision) : AgentM unit :=
  modify (fun s => ({| _settings := _settings (fst s); _policy := _policy (fst s);
                       _state := _state (fst s);
                       _pending_decision := p |}, snd s)).

Definition self : AgentM DecisionAgent :=
  fun s => (Ok (fst s), s).

(** The line feed of the f-strings. *)
Definition nl : string := String (ascii_of_nat 10) EmptyString.

(** [httpx.AsyncClient.post] followed by [raise_for_status], [json()] and
    the path into the reply: the value found there, which is whatever the
    service sent (the code does not check that it is a [str]), or [None]
    for any exception of the [try] block.  The request is recorded. *)
Definition post (http : HttpRequest -> option Json) (rq : HttpRequest)
  : M World (option Json) :=
  fun w => (Ok (http rq),
            {| w_tick := w_tick w; w_events := w_events w;
               w_requests := w_requests w ++ [rq] |}).

(** [DecisionAgent._fallback_answer] *)
Definition _fallback_answer (query : string) (evidence : RetrievalResponse) : string :=
  match resp_results evidence with
  | [] => "No evidence found. Cannot answer without grounded data."
  | top :: _ =>
      let citations :=
        PyStr.join ", "
          (map (fun c => "[doc=" +:+ cit_doc_id c +:+ ", page=" +:+ PyStr.of_int (cit_page c) +:+ "]")
               (rr_citations top)) in
      "Based on available evidence " +:+ citations +:+ ": "
      +:+ PyStr.slice_to 500 (rr_text top)
  end.

(** [DecisionAgent._call_orchestrator]: the content of the reply is
    returned unchecked. *)
Definition _call_orchestrator (http : HttpRequest -> option Json)
    (cfg : LLMProviderConfig) (query : string) (evidence : RetrievalResponse)
  : M World Json :=
  if negb (PyStr.truthy (api_key cfg)) then ret (JStr (_fallback_answer query evidence))
  else
    let evidence_text :=
      PyStr.join nl
        (map (fun r => "[" +:+ rr_modality r +:+ "] (score=" +:+ frepr (rr_score r)
                       +:+ ") " +:+ rr_text r)
             (resp_results evidence)) in
    let messages :=
      JList [ JObj [("role", JStr "system");
                    ("content", JStr ("You are a decision-making AI. Answer the query using ONLY the provided evidence. "
                                      +:+ "If the evidence is insufficient, say so explicitly. Never hallucinate."))];
              JObj [("role", JStr "user");
                    ("content", JStr ("Evidence:" +:+ nl +:+ evidence_text +:+ nl +:+ nl
                                      +:+ "Query: " +:+ query))] ] in
    (reply <- post http
       {| rq_url := base_url cfg +:+ "/chat/completions";
          rq_headers := [("Authorization", "Bearer " +:+ api_key cfg)];
          rq_json := JObj [("model", JStr (model cfg)); ("messages", messages);
                           ("temperature", JInt 0)] |} ;;
     match reply with
     | Some content => ret content
     | None => ret (JStr (_fallback_answer query evidence))
     end)%py.

(** [DecisionAgent._call_auditor]: the answer is whatever the
    orchestrator returned, and the text of the reply is returned
    unchecked. *)
Definition _call_auditor (http : HttpRequest -> option Json)
    (cfg : LLMProviderConfig) (query : string) (answer : Json)
    (evidence : RetrievalResponse)
  : M World Json :=
  if negb (PyStr.truthy (api_key cfg)) then ret (JStr "audit_skipped:no_api_key")
  else
    let evidence_text :=
      PyStr.join nl
        (map (fun r => "[" +:+ rr_modality r +:+ "] " +:+ rr_text r)
             (resp_results evidence)) in
    let prompt :=
      "Review this answer for hallucinations, accuracy, and completeness." +:+ nl +:+ nl
      +:+ "Query: " +:+ query +:+ nl +:+ nl +:+ "Answer: " +:+ py_format answer
      +:+ nl +:+ nl
      +:+ "Evidence:" +:+ nl +:+ evidence_text +:+ nl +:+ nl
      +:+ "Respond with: PASS (if grounded), FAIL (if hallucinated), or PARTIAL (if incomplete)." in
    (reply <- post http
       {| rq_url := base_url cfg +:+ "/v1/messages";
          rq_headers := [("x-api-key", api_key cfg); ("anthropic-version", "2023-06-01")];
          rq_json := JObj [("model", JStr (model cfg)); ("max_tokens", JInt 256);
                           ("messages", JList [JObj [("role", JStr "user");
                                                     ("content", JStr prompt)]])] |} ;;
     match reply with
     | Some text => ret text
     | None => ret (JStr "audit_skipped:api_error")
     end)%py.

(** [Decision(query=..., answer=..., ...)]: the identifier and the creation
    time come from the default factories, in the order of the fields, and
    the validation of the model refuses an [answer] that is not a [str]
    with [ValidationError]. *)
Definition new_Decision (query : string) (answer : Json)
    (evidence : list RetrievalResult)
    (policy_evaluations : list PolicyEvaluation) (agent_state : AgentState)
    (model_used auditor_model : string) : M World Decision :=
  (decision_id <- fresh_id ;;
   created_at <- fresh_time ;;
   match answer with
   | JStr answer =>
       ret {| d_decision_id := decision_id; d_query := query; d_answer := answer;
              d_evidence := evidence; d_policy_evaluations := policy_evaluations;
              d_agent_state := agent_state; d_model_used := model_used;
              d_auditor_model := auditor_model; d_created_at := created_at |}
   | _ => lift_res (Raise ValidationError)
   end)%py.

(** The copy of a decision built from [d.model_dump()] with [agent_state]
    and [answer] replaced: every other field, the identifier among them, is
    carried over. *)
Definition Decision_replace (d : Decision) (agent_state : AgentState) (answer : string)
  : Decision :=
  {| d_decision_id := d_decision_id d; d_query := d_query d; d_answer := answer;
     d_evidence := d_evidence d; d_policy_evaluations := d_policy_evaluations d;
     d_agent_state := agent_state; d_model_used := d_model_used d;
     d_auditor_model := d_auditor_model d; d_created_at := d_created_at d |}.

Definition DENIED_ANSWER : string := "[DENIED] Policy violation: action not permitted.".
Definition AWAITING_MARKER : string := "[AWAITING APPROVAL] ".

(** [DecisionAgent.decide] *)
Definition decide (http : HttpRequest -> option Json) (query : string)
    (evidence : RetrievalResponse) (context : option (gmap string string))
  : AgentM Decision :=
  (set_state RUNNING ;;;
   this <- self ;;
   (* 1. Evaluate policies *)
   evaluations <- in_world (evaluate (_policy this) query evidence context) ;;
   let aggregate_verdict := check_allowed evaluations in
   (* 2. If policy denies outright, fail *)
   if PolicyVerdict_eqb aggregate_verdict DENY then
     set_state FAILED ;;;
     decision <- in_world (new_Decision query (JStr DENIED_ANSWER) (resp_results evidence)
                             evaluations FAILED EmptyString EmptyString) ;;
     in_world (AuditLogger_log "reasoning" "decision_denied" [("query", JStr query)]
                 (Some (d_decision_id decision)) "system") ;;;
     ret decision
   else
     (* 3. Generate answer from orchestrator *)
     answer <- in_world (_call_orchestrator http (orchestrator (_settings this)) query evidence) ;;
     (* 4. Audit with the auditor model *)
     audit_result <- in_world (_call_auditor http (auditor (_settings this)) query answer evidence) ;;
     (* 5. Build decision *)
     decision <- in_world (new_Decision query answer (resp_results evidence) evaluations
                             COMPLETED (model (orchestrator (_settings this)))
                             (model (auditor (_settings this)))) ;;
     (* 6. If policy requires approval, pause *)
     if PolicyVerdict_eqb aggregate_verdict NEEDS_APPROVAL
        && enable_human_in_loop (_settings this) then
       set_state WAITING_APPROVAL ;;;
       set_pending_decision (Some decision) ;;;
       let decision := Decision_replace decision WAITING_APPROVAL
                         (AWAITING_MARKER +:+ py_format answer) in
       in_world (AuditLogger_log "reasoning" "decision_pending_approval"
                   [("query", JStr query); ("audit_result", audit_result)]
                   (Some (d_decision_id decision)) "system") ;;;
       ret decision
     else
       (* 7. Completed *)
       set_state COMPLETED ;;;
       in_world (AuditLogger_log "reasoning" "decision_completed"
                   [("query", JStr query); ("audit_result", audit_result)]
                   (Some (d_decision_id decision)) "system") ;;;
       ret decision)%py.

(** [DecisionAgent.approve] *)
Definition approve (decision_id : string) : AgentM (option Decision) :=
  (this <- self ;;
   match _pending_decision this with
   | None => ret None
   | Some pending =>
       if negb (String.eqb (d_decision_id pending) decision_id) then ret None
       else
         let approved := Decision_replace pending COMPLETED
                           (PyStr.replace AWAITING_MARKER EmptyString (d_answer pending)) in
         set_state COMPLETED ;;;
         set_pending_decision None ;;;
         in_world (AuditLogger_log "reasoning" "decision_approved" []
                     (Some (d_decision_id approved)) "human") ;;;
         ret (Some approved)
   end)%py.

(** [DecisionAgent.reject] *)
Definition reject (decision_id : string) (reason : string) : AgentM (option Decision) :=
  (this <- self ;;
   match _pending_decision this with
   | None => ret None
   | Some pending =>
       if negb (String.eqb (d_decision_id pending) decision_id) then ret None
       else
         let rejected := Decision_replace pending FAILED
                           (if PyStr.truthy reason then "[REJECTED] " +:+ reason
                            else "[REJECTED]") in
         set_state FAILED ;;;
         set_pending_decision None ;;;
         in_world (AuditLogger_log "reasoning" "decision_rejected"
                     [("reason", JStr reason)]
                     (Some (d_decision_id rejected)) "human") ;;;
         ret (Some rejected)
   end)%py.

(** [DecisionAgent.override], with [AuditLogger.log_override] *)
Definition override (decision_id new_answer reason : string) : AgentM (option HumanOverride) :=
  (override_id <- in_world fresh_id ;;
   overridden_at <- in_world fresh_time ;;
   let override_record :=
     {| ho_override_id := override_id; ho_decision_id := decision_id;
        ho_original_answer := EmptyString; ho_overridden_answer := new_answer;
        ho_reason := reason; ho_overridden_at := overridden_at |} in
   in_world (AuditLogger_log "reasoning" "human_override"
               [("override_id", JStr override_id); ("decision_id", JStr decision_id);
                ("original_answer", JStr EmptyString); ("overridden_answer", JStr new_answer);
                ("reason", JStr reason);
                ("overridden_at", JStr (isoformat overridden_at))]
               (Some decision_id) "human") ;;;
   ret (Some override_record))%py.

(** ** knowledge/retriever.py *)

Record Chunk : Type := {
  ck_chunk_id : string;
  ck_doc_id : string;
  ck_text : string;
  ck_page : Z;
  ck_bbox_data : option BoundingBox;
  ck_image_id : option string;
  ck_modality : string;
}.

Record KnowledgeStore : Type := {
  _chunks : list Chunk;
  _doc_ids : gset string;
}.

Definition chunk_count (store : KnowledgeStore) : Z := Z.of_nat (length (_chunks store)).

(** The body of the loop of [_split_text]; the state is [(chunks, current)]. *)
Definition split_step (max_chars : Z) (st : list string * string) (sentence : string)
  : list string * string :=
  let '(chunks, current) := st in
  let candidate :=
    if PyStr.truthy current then PyStr.strip (current +:+ ". " +:+ sentence)
    else sentence in
  if (max_chars <? Z.of_nat (String.length candidate)) && PyStr.truthy current
  then (chunks ++ [PyStr.strip current], sentence)
  else (chunks, candidate).

(** The sentences [_split_text] iterates over. *)
Definition sentences_of (text : string) : list string :=
  PyStr.split ". " (PyStr.replace nl " " text).

(** [KnowledgeStore._split_text] *)
Definition _split_text (text : string) (max_chars : Z) : list string :=
  if Z.of_nat (String.length text) <=? max_chars then [text]
  else
    let '(chunks, current) := fold_left (split_step max_chars) (sentences_of text) ([], EmptyString) in
    let chunks :=
      if PyStr.truthy (PyStr.strip current) then chunks ++ [PyStr.strip current]
      else chunks in
    match chunks with
    | [] => [text]
    | _ => chunks
    end.

(** The inner loop of [index_document] over the segments of text block
    number [i]; [added] is the running count. *)
Fixpoint index_sub_chunks (doc : DocumentIngestion) (i : Z) (text_block : ExtractedText)
    (subs : list string) (added : Z) : list Chunk * Z :=
  match subs with
  | [] => ([], added)
  | sub_chunk :: rest =>
      let chunk :=
        {| ck_chunk_id := di_doc_id doc +:+ "_t" +:+ PyStr.of_int i +:+ "_" +:+ PyStr.of_int added;
           ck_doc_id := di_doc_id doc;
           ck_text := sub_chunk;
           ck_page := et_source_page text_block;
           ck_bbox_data := et_bbox text_block;
           ck_image_id := None;
           ck_modality := "text" |} in
      let '(chunks, added') := index_sub_chunks doc i text_block rest (added + 1) in
      (chunk :: chunks, added')
  end.

(** The outer loop over [enumerate(doc.texts)]. *)
Fixpoint index_text_blocks (doc : DocumentIngestion) (i : Z) (blocks : list ExtractedText)
    (added : Z) : list Chunk * Z :=
  match blocks with
  | [] => ([], added)
  | text_block :: rest =>
      let '(chunks1, added1) :=
        index_sub_chunks doc i text_block (_split_text (et_text text_block) 500) added in
      let '(chunks2, added2) := index_text_blocks doc (i + 1) rest added1 in
      (chunks1 ++ chunks2, added2)
  end.

(** The loop over [doc.images]. *)
Fixpoint index_images (doc : DocumentIngestion) (images : list ExtractedImage) (added : Z)
  : list Chunk * Z :=
  match images with
  | [] => ([], added)
  | img :: rest =>
      if PyStr.truthy (ei_description img) then
        let chunk :=
          {| ck_chunk_id := di_doc_id doc +:+ "_img_" +:+ ei_image_id img;
             ck_doc_id := di_doc_id doc;
             ck_text := ei_description img;
             ck_page := ei_page img;
             ck_bbox_data := None;
             ck_image_id := Some (ei_image_id img);
             ck_modality := "image" |} in
        let '(chunks, added') := index_images doc rest (added + 1) in
        (chunk :: chunks, added')
      else index_images doc rest added
  end.

(** The chunks [index_document] appends, in order, and the count it
    returns. *)
Definition indexed_chunks (doc : DocumentIngestion) : list Chunk * Z :=
  let '(text_chunks, added) := index_text_blocks doc 0 (di_texts doc) 0 in
  let '(image_chunks, added) := index_images doc (di_images doc) added in
  (text_chunks ++ image_chunks, added).

Definition StoreM (A : Type) : Type := M (KnowledgeStore * World) A.

Definition store_log {S A} (m : M World A) : M (S * World) A :=
  fun s => match m (snd s) with (r, w') => (r, (fst s, w')) end.

(** [KnowledgeStore.index_document] *)
Definition index_document (doc : DocumentIngestion) : StoreM Z :=
  (let '(new_chunks, added) := indexed_chunks doc in
   modify (fun s => ({| _chunks := _chunks (fst s) ++ new_chunks;
                        _doc_ids := {[ di_doc_id doc ]} ∪ _doc_ids (fst s) |}, snd s)) ;;;
   store_log (AuditLogger_log "knowledge" "document_indexed"
                [("doc_id", JStr (di_doc_id doc)); ("chunks_added", JInt added)]
                None "system") ;;;
   ret added)%py.

Definition Scored : Type := (Chunk * float)%type.

(** [dict.get(key, 0)] on a counter. *)
Definition count_of (d : gmap string Z) (t : string) : Z := default 0 (d !! t).

Definition terms_of (text : string) : list string := PyStr.split_ws (PyStr.lower text).

(** The document frequencies of [_bm25_score]: for every chunk and every
    query term (with its repetitions) found in the chunk, one more. *)
Definition doc_freq_of (chunks : list Chunk) (query_terms : list string) : gmap string Z :=
  fold_left
    (fun doc_freq chunk =>
       let terms : gset string := list_to_set (terms_of (ck_text chunk)) in
       fold_left
         (fun doc_freq t =>
            if bool_decide (t ∈ terms) then <[t := count_of doc_freq t + 1]> doc_freq
            else doc_freq)
         query_terms doc_freq)
    chunks ∅.

Definition term_counts_of (chunk_terms : list string) : gmap string Z :=
  fold_left (fun term_counts t => <[t := count_of term_counts t + 1]> term_counts)
            chunk_terms ∅.

Definition sum_Z (l : list Z) : Z := fold_left Z.add l 0.

(** [KnowledgeStore._bm25_score] *)
Definition _bm25_score (chunks : list Chunk) (query : string) (k1 b : float)
  : list Scored :=
  let query_terms := terms_of query in
  match query_terms with
  | [] => map (fun c => (c, lit 0)) chunks
  | _ =>
      let n := Z.of_nat (length chunks) in
      let doc_freq := doc_freq_of chunks query_terms in
      let avg_dl :=
        fdiv (of_int (sum_Z (map (fun c => Z.of_nat (length (PyStr.split_ws (ck_text c)))) chunks)))
             (of_int (Z.max n 1)) in
      map (fun chunk =>
             let chunk_terms := terms_of (ck_text chunk) in
             let dl := Z.of_nat (length chunk_terms) in
             let term_counts := term_counts_of chunk_terms in
             let score :=
               fold_left
                 (fun score t =>
                    let tf := count_of term_counts t in
                    let df := count_of doc_freq t in
                    if (tf =? 0) || (df =? 0) then score
                    else
                      let idf :=
                        flog (fadd (fdiv (fadd (of_int (n - df)) (lit 0.5))
                                         (fadd (of_int df) (lit 0.5)))
                                   (lit 1)) in
                      let numerator := fmul (of_int tf) (fadd k1 (of_int 1)) in
                      let denominator :=
                        fadd (of_int tf)
                             (fmul k1 (fadd (fsub (of_int 1) b)
                                            (fdiv (fmul b (of_int dl)) avg_dl))) in
                      fadd score (fdiv (fmul idf numerator) denominator))
                 query_terms (lit 0) in
             (chunk, score))
          chunks
  end.

(** [KnowledgeStore._vector_score] *)
Definition _vector_score (chunks : list Chunk) (query : string) : list Scored :=
  let query_terms : gset string := list_to_set (terms_of query) in
  map (fun chunk =>
         let chunk_terms : gset string := list_to_set (terms_of (ck_text chunk)) in
         if (size query_terms =? 0)%nat || (size chunk_terms =? 0)%nat then (chunk, lit 0)
         else
           let intersection := query_terms ∩ chunk_terms in
           let union := query_terms ∪ chunk_terms in
           let score :=
             if (size union =? 0)%nat then lit 0
             else fdiv (of_int (Z.of_nat (size intersection)))
                       (of_int (Z.of_nat (size union))) in
           (chunk, score))
      chunks.

(** [sorted(ranked, key=lambda x: x[1], reverse=True)] and
    [scored.sort(key=..., reverse=True)]: a stable sort into descending
    order that compares keys with [<] only.  An element is placed before
    the first one of the sorted tail that is not strictly greater. *)
Fixpoint insert_desc (x : Scored) (l : list Scored) : list Scored :=
  match l with
  | [] => [x]
  | y :: l' => if flt (snd x) (snd y) then y :: insert_desc x l' else x :: l
  end.

Definition sort_desc (l : list Scored) : list Scored := foldr insert_desc [] l.

(** An insertion-ordered [dict] with [str] keys. *)
Fixpoint dict_get {V} (d : list (string * V)) (key : string) : option V :=
  match d with
  | [] => None
  | (k, v) :: d' => if String.eqb k key then Some v else dict_get d' key
  end.

Fixpoint dict_set {V} (d : list (string * V)) (key : string) (v : V) : list (string * V) :=
  match d with
  | [] => [(key, v)]
  | (k, v') :: d' =>
      if String.eqb k key then (k, v) :: d' else (k, v') :: dict_set d' key v
  end.

(** The term a list adds at 1-based position [rank]: [1.0 / (k + rank)]. *)
Definition rrf_term (k rank : Z) : float := fdiv (lit 1) (of_int (k + rank)).

(** The inner loop of [_rrf_fuse] over [enumerate(ranked_sorted, start=1)];
    the state is [(scores, chunk_map)]. *)
Fixpoint rrf_accumulate (k rank : Z) (ranked_sorted : list Scored)
    (st : list (string * float) * list (string * Chunk))
  : list (string * float) * list (string * Chunk) :=
  match ranked_sorted with
  | [] => st
  | (chunk, _) :: rest =>
      let '(scores, chunk_map) := st in
      let cid := ck_chunk_id chunk in
      rrf_accumulate k (rank + 1) rest
        (dict_set scores cid (fadd (default (lit 0) (dict_get scores cid)) (rrf_term k rank)),
         dict_set chunk_map cid chunk)
  end.

(** [KnowledgeStore._rrf_fuse]; every key of [scores] is a key of
    [chunk_map], so the final comprehension finds each chunk. *)
Definition _rrf_fuse (ranked_lists : list (list Scored)) (k : Z) : list Scored :=
  let '(scores, chunk_map) :=
    fold_left (fun st ranked => rrf_accumulate k 1 (sort_desc ranked) st)
              ranked_lists ([], []) in
  omap (fun '(cid, score) =>
          match dict_get chunk_map cid with
          | Some chunk => Some (chunk, score)
          | None => None
          end)
       scores.

(** [l[:k]] for any [int] [k]: a negative [k] counts from the end. *)
Definition py_slice_to {A} (k : Z) (l : list A) : list A :=
  if 0 <=? k then take (Z.to_nat k) l
  else take (length l - Z.to_nat (- k)) l.

Definition result_of (scored : Scored) : RetrievalResult :=
  let '(chunk, score) := scored in
  let citation :=
    {| cit_doc_id := ck_doc_id chunk; cit_page := ck_page chunk; cit_bbox := None;
       cit_image_id := ck_image_id chunk;
       cit_snippet := PyStr.slice_to 200 (ck_text chunk) |} in
  {| rr_chunk_id := ck_chunk_id chunk; rr_text := ck_text chunk;
     rr_score := round4 score; rr_citations := [citation];
     rr_modality := ck_modality chunk |}.

(** The loop of [retrieve] over [top]: a pair whose score is [<= 0] is
    skipped. *)
Fixpoint collect_results (top : list Scored) : list RetrievalResult :=
  match top with
  | [] => []
  | (chunk, score) :: rest =>
      if fle score (of_int 0) then collect_results rest
      else result_of (chunk, score) :: collect_results rest
  end.

(** The scored list [retrieve] sorts, by strategy. *)
Definition scored_by (chunks : list Chunk) (query strategy : string) : list Scored :=
  if String.eqb strategy "bm25" then _bm25_score chunks query (lit 1.5) (lit 0.75)
  else if String.eqb strategy "vector" then _vector_score chunks query
  else
    let bm25_scores := _bm25_score chunks query (lit 1.5) (lit 0.75) in
    let vector_scores := _vector_score chunks query in
    _rrf_fuse [bm25_scores; vector_scores] 60.

(** The results of [retrieve] on the chunks of the store. *)
Definition retrieve_results (chunks : list Chunk) (query : string) (top_k : Z)
    (strategy : string) : list RetrievalResult :=
  match chunks with
  | [] => []
  | _ =>
      let scored := sort_desc (scored_by chunks query strategy) in
      let top := py_slice_to top_k scored in
      collect_results top
  end.

(** [KnowledgeStore.retrieve] *)
Definition retrieve (query : string) (top_k : Z) (strategy : string)
  : StoreM RetrievalResponse :=
  (s <- get ;;
   match _chunks (fst s) with
   | [] => ret {| resp_query := query; resp_results := []; resp_strategy := strategy |}
   | _ =>
       let results := retrieve_results (_chunks (fst s)) query top_k strategy in
       let response :=
         {| resp_query := query; resp_results := results; resp_strategy := strategy |} in
       store_log (AuditLogger_log "knowledge" "retrieval"
                    [("query", JStr query); ("strategy", JStr strategy);
                     ("results_count", JInt (Z.of_nat (length results)));
                     ("top_score", match results with
                                   | r :: _ => JFloat (rr_score r)
                                   | [] => JInt 0
                                   end)]
                    None "system") ;;;
       ret response
   end)%py.

(** ** learning/feedback.py *)

Record LearningLoop : Type := {
  _feedback : list FeedbackRecord;
  _adjustments : list LearningAdjustment;
  _mistake_counts : gmap string Z;
}.

Definition LoopM (A : Type) : Type := M (LearningLoop * World) A.

Definition adjustment_count (loop : LearningLoop) : Z :=
  Z.of_nat (length (_adjustments loop)).

(** [adj.model_dump(mode="json")] *)
Definition LearningAdjustment_dump (adj : LearningAdjustment) : list (string * Json) :=
  [("adjustment_id", JStr (la_adjustment_id adj));
   ("trigger_feedback_id", JStr (la_trigger_feedback_id adj));
   ("adjustment_type", JStr (la_adjustment_type adj));
   ("description", JStr (la_description adj));
   ("parameters", JObj (la_parameters adj));
   ("applied_at", JStr (isoformat (la_applied_at adj)))].

(** Build a [LearningAdjustment], append it and log it. *)
Definition emit_adjustment (trigger_feedback_id adjustment_type description : string)
    (parameters : list (string * Json)) : LoopM unit :=
  (adjustment_id <- store_log fresh_id ;;
   applied_at <- store_log fresh_time ;;
   let adj :=
     {| la_adjustment_id := adjustment_id; la_trigger_feedback_id := trigger_feedback_id;
        la_adjustment_type := adjustment_type; la_description := description;
        la_parameters := parameters; la_applied_at := applied_at |} in
   modify (fun s => ({| _feedback := _feedback (fst s);
                        _adjustments := _adjustments (fst s) ++ [adj];
                        _mistake_counts := _mistake_counts (fst s) |}, snd s)) ;;;
   store_log (AuditLogger_log "learning" "adjustment_created"
                (LearningAdjustment_dump adj) None "system") ;;;
   ret tt)%py.

(** [LearningLoop._check_for_adjustments] *)
Definition _check_for_adjustments (feedback : FeedbackRecord) : LoopM unit :=
  (s <- get ;;
   let hallucinations := count_of (_mistake_counts (fst s)) "hallucination" in
   let incorrect := count_of (_mistake_counts (fst s)) "incorrect" in
   (if (0 <? hallucinations) && (hallucinations mod 3 =? 0) then
      emit_adjustment (fb_feedback_id feedback) "retrieval_weight"
        ("Increasing retrieval confidence threshold after "
         +:+ PyStr.of_int hallucinations +:+ " hallucinations detected")
        [("min_score_threshold", JFloat (fmul (lit 0.1) (of_int (hallucinations / 3))))]
    else ret tt) ;;;
   (if (0 <? incorrect) && (incorrect mod 5 =? 0) then
      emit_adjustment (fb_feedback_id feedback) "prompt_patch"
        ("Suggesting stricter evidence grounding after "
         +:+ PyStr.of_int incorrect +:+ " incorrect answers")
        [("patch", JStr "require_exact_citation")]
    else ret tt))%py.

Definition is_mistake (r : OutcomeRating) : bool :=
  match r with
  | INCORRECT | HALLUCINATION => true
  | _ => false
  end.

(** [LearningLoop.record_feedback] *)
Definition record_feedback (feedback : FeedbackRecord) : LoopM FeedbackRecord :=
  (modify (fun s => ({| _feedback := _feedback (fst s) ++ [feedback];
                        _adjustments := _adjustments (fst s);
                        _mistake_counts :=
                          if is_mistake (fb_rating feedback) then
                            let key := OutcomeRating_value (fb_rating feedback) in
                            <[key := count_of (_mistake_counts (fst s)) key + 1]>
                              (_mistake_counts (fst s))
                          else _mistake_counts (fst s) |}, snd s)) ;;;
   store_log (AuditLogger_log "learning" "feedback_recorded"
                [("decision_id", JStr (fb_decision_id feedback));
                 ("rating", JStr (OutcomeRating_value (fb_rating feedback)));
                 ("has_correction", JBool (PyStr.truthy (fb_corrected_answer feedback)))]
                (Some (fb_decision_id feedback)) "system") ;;;
   (* Auto-generate adjustments when patterns emerge *)
   _check_for_adjustments feedback ;;;
   ret feedback)%py.

(** [LearningLoop.get_adjustments] *)
Definition get_adjustments (loop : LearningLoop) : list LearningAdjustment :=
  _adjustments loop.

(** ** The vocabulary of the statements

    Predicates and observations on the model that the theorems are stated
    with. *)

(** The evaluation matched and carries the verdict [v]. *)
Definition matched_with (v : PolicyVerdict) (e : PolicyEvaluation) : Prop :=
  pe_matched e = true /\ pe_verdict e = v.

(** The pattern [_check_condition] hands to [re.search] for a condition
    that starts with [contains:]. *)
Definition contains_pattern (rule : PolicyRule) : string :=
  PyStr.strip (PyStr.slice_from (String.length "contains:")
                                (PyStr.strip (pr_condition rule))).

(** Does the rule take the [contains:] branch? *)
Definition is_contains_rule (rule : PolicyRule) : bool :=
  negb (String.eqb (PyStr.strip (pr_condition rule)) "no_evidence")
  && PyStr.startswith "contains:" (PyStr.strip (pr_condition rule)).

(** A segment is within the budget, or it is one sentence of the block
    that is itself over the budget. *)
Definition segment_ok (max_chars : Z) (sentences : list string) (seg : string) : Prop :=
  Z.of_nat (String.length seg) <= max_chars
  \/ exists sentence,
       In sentence sentences /\ seg = PyStr.strip sentence
       /\ max_chars < Z.of_nat (String.length sentence).

(** The same for [current], which is stripped only when it is emitted. *)
Definition current_ok (max_chars : Z) (sentences : list string) (current : string) : Prop :=
  current = EmptyString
  \/ Z.of_nat (String.length current) <= max_chars \/ In current sentences.

(** The sentence has no text: nothing is left of it once stripped. *)
Definition blank (sentence : string) : Prop := PyStr.strip sentence = EmptyString.

(** Is every character of the string whitespace? *)
Fixpoint all_space (s : string) : bool :=
  match s with
  | EmptyString => true
  | String c s' => PyStr.is_space c && all_space s'
  end.

(** The loop of [_split_text] has kept some text: it has emitted a segment
    or [current] holds more than whitespace. *)
Definition holds_text (st : list string * string) : Prop :=
  fst st <> [] \/ PyStr.truthy (PyStr.strip (snd st)) = true.

(** [a] is not ranked below [b]. *)
Definition desc (a b : Scored) : Prop := flt (snd a) (snd b) = false.

(** The test of the loop of [retrieve], negated: the pair is kept. *)
Definition positive (x : Scored) : bool := negb (fle (snd x) (of_int 0)).

(** [x] ties with the score [s]: neither is below the other. *)
Definition tie (s : float) (x : Scored) : bool :=
  negb (flt s (snd x)) && negb (flt (snd x) s).

(** The chunk identifiers of a scored list, in its order. *)
Definition ids (l : list Scored) : list string := map (fun x => ck_chunk_id (fst x)) l.

(** [list(d.keys())] *)
Definition keys {V} (d : list (string * V)) : list string := map fst d.

(** The 0-based position of the first occurrence of [cid]. *)
Fixpoint index_of (cid : string) (l : list string) : option nat :=
  match l with
  | [] => None
  | x :: l' => if String.eqb x cid then Some O else option_map S (index_of cid l')
  end.

(** The 1-based rank of the chunk [cid] in the descending order of a list. *)
Definition rank_of (cid : string) (ranked : list Scored) : option Z :=
  option_map (fun i => 1 + Z.of_nat i) (index_of cid (ids (sort_desc ranked))).

(** The ranks, counted from [rank], of the positions of a list of
    identifiers that hold [cid], in increasing order. *)
Fixpoint positions_from (rank : Z) (cid : string) (l : list string) : list Z :=
  match l with
  | [] => []
  | x :: l' =>
      (if String.eqb x cid then [rank] else []) ++ positions_from (rank + 1) cid l'
  end.

(** The 1-based ranks of all the chunks with the identifier [cid] in the
    descending order of a list. *)
Definition ranks_of (cid : string) (ranked : list Scored) : list Z :=
  positions_from 1 cid (ids (sort_desc ranked)).

(** The terms of the ranks added one after the other to [acc]. *)
Definition add_terms (k : Z) (ranks : list Z) (acc : float) : float :=
  fold_left (fun acc rank => fadd acc (rrf_term k rank)) ranks acc.

(** The sum of the terms of the ranks, from [0.0]; no score without a
    rank. *)
Definition sum_terms (k : Z) (ranks : list Z) : option float :=
  match ranks with
  | [] => None
  | _ => Some (add_terms k ranks (lit 0))
  end.

(** The number of chunks of a list with the identifier [cid]. *)
Definition occurrences (cid : string) (l : list string) : nat :=
  count_occ string_dec l cid.

(** The score the fused list gives the chunk [cid]. *)
Definition fused_score (cid : string) (fused : list Scored) : option float :=
  option_map snd (List.find (fun x => String.eqb (ck_chunk_id (fst x)) cid) fused).

(** Every key of [scores] has its chunk in [chunk_map]. *)
Definition fuse_wf (st : list (string * float) * list (string * Chunk)) : Prop :=
  Forall (fun kv => exists c, dict_get (snd st) (fst kv) = Some c /\ ck_chunk_id c = fst kv)
         (fst st).

(** The comprehension that ends [_rrf_fuse]. *)
Definition fuse_output (st : list (string * float) * list (string * Chunk)) : list Scored :=
  omap (fun '(cid, score) =>
          match dict_get (snd st) cid with
          | Some chunk => Some (chunk, score)
          | None => None
          end)
       (fst st).

(** The mistake counters after [record_feedback] has counted [feedback]. *)
Definition counts_after (counts : gmap string Z) (feedback : FeedbackRecord)
  : gmap string Z :=
  if is_mistake (fb_rating feedback) then
    <[OutcomeRating_value (fb_rating feedback) :=
        count_of counts (OutcomeRating_value (fb_rating feedback)) + 1]> counts
  else counts.

(** What [_check_for_adjustments] appends for given counters: the type and
    the parameters of each new adjustment. *)
Definition adjustments_due (counts : gmap string Z) : list (string * list (string * Json)) :=
  let hallucinations := count_of counts "hallucination" in
  let incorrect := count_of counts "incorrect" in
  (if (0 <? hallucinations) && (hallucinations mod 3 =? 0)
   then [("retrieval_weight",
          [("min_score_threshold", JFloat (fmul (lit 0.1) (of_int (hallucinations / 3))))])]
   else [])
  ++ (if (0 <? incorrect) && (incorrect mod 5 =? 0)
      then [("prompt_patch", [("patch", JStr "require_exact_citation")])]
      else []).

(** The type and the parameters of an adjustment. *)
Definition adjustment_summary (adj : LearningAdjustment) : string * list (string * Json) :=
  (la_adjustment_type adj, la_parameters adj).

(** ** Further observations on the model *)

(** The agent with its [_state] and [_pending_decision] assigned. *)
Definition DecisionAgent_with (agent : DecisionAgent) (st : AgentState)
    (pending : option Decision) : DecisionAgent :=
  {| _settings := _settings agent; _policy := _policy agent;
     _state := st; _pending_decision := pending |}.

(** The event [AuditLogger.log] builds in the world [w]. *)
Definition event_at (w : World) (layer event_type : string)
    (payload : list (string * Json)) (decision_id : option string) (actor : string)
  : AuditEvent :=
  {| ae_event_id := _new_id (w_tick w); ae_timestamp := _utcnow (S (w_tick w));
     ae_layer := layer; ae_event_type := event_type; ae_payload := payload;
     ae_decision_id := decision_id; ae_actor := actor |}.

(** The world after [AuditLogger.log] appended [event]. *)
Definition logged (w : World) (event : AuditEvent) : World :=
  {| w_tick := S (S (w_tick w)); w_events := w_events w ++ [event];
     w_requests := w_requests w |}.

(** The event type [decide] logs for a decision in the given state. *)
Definition decision_event_type (st : AgentState) : string :=
  match st with
  | FAILED => "decision_denied"
  | WAITING_APPROVAL => "decision_pending_approval"
  | _ => "decision_completed"
  end.

(** The stricter of two verdicts: [DENY] over [NEEDS_APPROVAL] over
    [ALLOW]. *)
Definition stricter (a b : PolicyVerdict) : PolicyVerdict :=
  match a, b with
  | DENY, _ | _, DENY => DENY
  | NEEDS_APPROVAL, _ | _, NEEDS_APPROVAL => NEEDS_APPROVAL
  | ALLOW, ALLOW => ALLOW
  end.

(** The pattern of the rule is one the regular-expression engine rejects
    for this query. *)
Definition pattern_rejected (query : string) (rule : PolicyRule) : Prop :=
  is_contains_rule rule = true
  /\ re_search_ignorecase (contains_pattern rule) query = None.

(** The segments of the text blocks of a document, block after block. *)
Definition text_segments (doc : DocumentIngestion) : list string :=
  concat (map (fun tb => _split_text (et_text tb) 500) (di_texts doc)).

(** The images of a document that have a description. *)
Definition described_images (doc : DocumentIngestion) : list ExtractedImage :=
  List.filter (fun img => PyStr.truthy (ei_description img)) (di_images doc).

(** The chunk and the query have a term in common. *)
Definition shares_term (query : string) (chunk : Chunk) : Prop :=
  exists t, In t (terms_of query) /\ In t (terms_of (ck_text chunk)).

(** ** learning/feedback.py, the evaluation side *)

Definition OutcomeRating_eqb (a b : OutcomeRating) : bool :=
  match a, b with
  | CORRECT, CORRECT | PARTIALLY_CORRECT, PARTIALLY_CORRECT
  | INCORRECT, INCORRECT | HALLUCINATION, HALLUCINATION => true
  | _, _ => false
  end.

(** [LearningLoop.get_feedback_for_decision] *)
Definition get_feedback_for_decision (loop : LearningLoop) (decision_id : string)
  : list FeedbackRecord :=
  List.filter (fun f => String.eqb (fb_decision_id f) decision_id) (_feedback loop).

(** [LearningLoop.evaluate_decision]; the identifier and the creation time
    of the record come from the default factories, in the order of the
    fields. *)
Definition evaluate_decision (decision : Decision) (expected : string)
  : LoopM FeedbackRecord :=
  (let answer := PyStr.strip (PyStr.lower (d_answer decision)) in
   let expected_lower := PyStr.strip (PyStr.lower expected) in
   let rating :=
     if String.eqb answer expected_lower then CORRECT
     else if Instances.str_in expected_lower answer || Instances.str_in answer expected_lower
          then PARTIALLY_CORRECT
     else if Nat.eqb (length (d_evidence decision)) 0 then HALLUCINATION
     else INCORRECT in
   feedback_id <- store_log fresh_id ;;
   created_at <- store_log fresh_time ;;
   let feedback :=
     {| fb_feedback_id := feedback_id;
        fb_decision_id := d_decision_id decision;
        fb_rating := rating;
        fb_corrected_answer :=
          if negb (OutcomeRating_eqb rating CORRECT) then expected else EmptyString;
        fb_explanation := "Automated evaluation: " +:+ OutcomeRating_value rating;
        fb_created_at := created_at |} in
   record_feedback feedback)%py.

(** The dictionary [compute_accuracy] returns. *)
Record Accuracy : Type := {
  acc_total : Z;
  acc_accuracy : float;
  acc_breakdown : gmap string Z;
}.

(** The loop of [compute_accuracy] over the feedback: a [Counter] of the
    rating values. *)
Definition rating_counts (feedback : list FeedbackRecord) : gmap string Z :=
  fold_left
    (fun counts f =>
       <[OutcomeRating_value (fb_rating f) :=
           count_of counts (OutcomeRating_value (fb_rating f)) + 1]> counts)
    feedback ∅.

(** [LearningLoop.compute_accuracy] *)
Definition compute_accuracy (loop : LearningLoop) : Accuracy :=
  let total := Z.of_nat (length (_feedback loop)) in
  if total =? 0 then {| acc_total := 0; acc_accuracy := lit 0; acc_breakdown := ∅ |}
  else
    let counts := rating_counts (_feedback loop) in
    let correct := count_of counts "correct" in
    let partial := count_of counts "partially_correct" in
    {| acc_total := total;
       acc_accuracy :=
         round4 (fdiv (fadd (of_int correct) (fmul (lit 0.5) (of_int partial)))
                      (of_int total));
       acc_breakdown := counts |}.

(** How many of the records carry the rating [r]. *)
Definition count_rating (r : OutcomeRating) (feedback : list FeedbackRecord) : Z :=
  Z.of_nat (length (List.filter (fun f => OutcomeRating_eqb (fb_rating f) r) feedback)).

(** The mistake counters agree with the feedback held: each counts the
    records of its rating, and only the two kinds of mistakes are
    counted. *)
Definition counts_consistent (loop : LearningLoop) : Prop :=
  forall r,
    count_of (_mistake_counts loop) (OutcomeRating_value r)
    = if is_mistake r then count_rating r (_feedback loop) else 0.

(** ** audit/logger.py, the queries *)

(** [e.decision_id == decision_id] for an event and a [str] *)
Definition has_decision_id (decision_id : string) (e : AuditEvent) : bool :=
  match ae_decision_id e with
  | Some d => String.eqb d decision_id
  | None => false
  end.

(** [AuditLogger.get_events]: a filter that is [None] or the empty string
    is falsy and is not applied. *)
Definition get_events (w : World) (decision_id layer : option string) : list AuditEvent :=
  let events := w_events w in
  let events :=
    match decision_id with
    | Some d => if PyStr.truthy d then List.filter (has_decision_id d) events else events
    | None => events
    end in
  let events :=
    match layer with
    | Some l => if PyStr.truthy l then List.filter (fun e => String.eqb (ae_layer e) l) events
                else events
    | None => events
    end in
  events.

(** [AuditLogger.get_decision_trace] *)
Definition get_decision_trace (w : World) (decision_id : string) : list AuditEvent :=
  get_events w (Some decision_id) None.

(** ** api/orchestrator.py

    The components of [NanoCortex] that hold state.  [self.audit] is the
    log of the world; [self.policy_engine] is the very object the agent
    holds as [_policy], so the rules are kept there, and the settings are
    those of the agent.  The ingestion pipeline is outside the model. *)

Record NanoCortex : Type := {
  nc_knowledge : KnowledgeStore;
  nc_agent : DecisionAgent;
  nc_learning : LearningLoop;
}.

Definition SystemM (A : Type) : Type := M (NanoCortex * World) A.

Definition on_knowledge {A} (m : StoreM A) : SystemM A :=
  fun s => match m (nc_knowledge (fst s), snd s) with
           | (r, (store, w')) =>
               (r, ({| nc_knowledge := store; nc_agent := nc_agent (fst s);
                       nc_learning := nc_learning (fst s) |}, w'))
           end.

Definition on_agent {A} (m : AgentM A) : SystemM A :=
  fun s => match m (nc_agent (fst s), snd s) with
           | (r, (agent, w')) =>
               (r, ({| nc_knowledge := nc_knowledge (fst s); nc_agent := agent;
                       nc_learning := nc_learning (fst s) |}, w'))
           end.

Definition on_learning {A} (m : LoopM A) : SystemM A :=
  fun s => match m (nc_learning (fst s), snd s) with
           | (r, (loop, w')) =>
               (r, ({| nc_knowledge := nc_knowledge (fst s); nc_agent := nc_agent (fst s);
                       nc_learning := loop |}, w'))
           end.

Definition AgentState_value (st : AgentState) : string :=
  match st with
  | RUNNING => "running"
  | PAUSED => "paused"
  | WAITING_APPROVAL => "waiting_approval"
  | COMPLETED => "completed"
  | FAILED => "failed"
  end.

(** [OutcomeRating(rating)]: the member with that value, or [ValueError]. *)
Definition OutcomeRating_of_value (s : string) : Res OutcomeRating :=
  if String.eqb s "correct" then Ok CORRECT
  else if String.eqb s "partially_correct" then Ok PARTIALLY_CORRECT
  else if String.eqb s "incorrect" then Ok INCORRECT
  else if String.eqb s "hallucination" then Ok HALLUCINATION
  else Raise ValueError.

(** [PolicyRule(name=..., description=..., condition=..., verdict=...)]:
    the identifier comes from the default factory. *)
Definition new_PolicyRule (name description condition : string) (verdict : PolicyVerdict)
  : M World PolicyRule :=
  (rule_id <- fresh_id ;;
   ret {| pr_rule_id := rule_id; pr_name := name; pr_description := description;
          pr_condition := condition; pr_verdict := verdict |})%py.

(** [self.policy_engine.add_rule(rule)] on the engine of the agent. *)
Definition add_policy_rule (rule : PolicyRule) : AgentM unit :=
  modify (fun s => ({| _settings := _settings (fst s);
                       _policy := add_rule (_policy (fst s)) rule;
                       _state := _state (fst s);
                       _pending_decision := _pending_decision (fst s) |}, snd s)).

(** [NanoCortex._install_default_policies] *)
Definition _install_default_policies : AgentM unit :=
  (rule <- in_world (new_PolicyRule "no_hallucination"
                       "Deny answers with no evidence backing"
                       "no_evidence" NEEDS_APPROVAL) ;;
   add_policy_rule rule ;;;
   rule <- in_world (new_PolicyRule "low_confidence"
                       "Require approval when evidence score is low"
                       "min_score:0.01" NEEDS_APPROVAL) ;;
   add_policy_rule rule)%py.

(** [NanoCortex.__init__] for given settings: the components are created
    empty, the default policies installed and the start is logged. *)
Definition NanoCortex_init (settings : Settings) : M World NanoCortex :=
  fun w =>
    let system :=
      {| nc_knowledge := {| _chunks := []; _doc_ids := ∅ |};
         nc_agent := {| _settings := settings; _policy := {| _rules := [] |};
                        _state := RUNNING; _pending_decision := None |};
         nc_learning := {| _feedback := []; _adjustments := []; _mistake_counts := ∅ |} |} in
    match (on_agent _install_default_policies ;;;
           store_log (AuditLogger_log "system" "system_initialized" [] None "system"))%py
            (system, w) with
    | (Ok _, (system', w')) => (Ok system', w')
    | (Raise e, (_, w')) => (Raise e, w')
    end.

(** [b.model_dump()] and [c.model_dump()] *)
Definition BoundingBox_dump (b : BoundingBox) : Json :=
  JObj [("x", JFloat (bb_x b)); ("y", JFloat (bb_y b)); ("width", JFloat (bb_width b));
        ("height", JFloat (bb_height b)); ("page", JInt (bb_page b))].

Definition Citation_dump (c : Citation) : Json :=
  JObj [("doc_id", JStr (cit_doc_id c)); ("page", JInt (cit_page c));
        ("bbox", match cit_bbox c with Some b => BoundingBox_dump b | None => JNull end);
        ("image_id", match cit_image_id c with Some i => JStr i | None => JNull end);
        ("snippet", JStr (cit_snippet c))].

(** The dictionary [query] returns for a decision. *)
Definition query_result (decision : Decision) : Json :=
  JObj [("decision_id", JStr (d_decision_id decision));
        ("query", JStr (d_query decision));
        ("answer", JStr (d_answer decision));
        ("state", JStr (AgentState_value (d_agent_state decision)));
        ("model_used", JStr (d_model_used decision));
        ("auditor_model", JStr (d_auditor_model decision));
        ("evidence_count", JInt (Z.of_nat (length (d_evidence decision))));
        ("evidence",
         JList (map (fun r =>
                       JObj [("text", JStr (PyStr.slice_to 200 (rr_text r)));
                             ("score", JFloat (rr_score r));
                             ("modality", JStr (rr_modality r));
                             ("citations", JList (map Citation_dump (rr_citations r)))])
                    (d_evidence decision)));
        ("policy_evaluations",
         JList (map (fun e =>
                       JObj [("rule", JStr (pr_name (pe_rule e)));
                             ("matched", JBool (pe_matched e));
                             ("verdict", JStr (PolicyVerdict_value (pe_verdict e)))])
                    (d_policy_evaluations decision)))].

(** [NanoCortex.query] *)
Definition NanoCortex_query (http : HttpRequest -> option Json) (question : string)
    (top_k : Z) (strategy : string) (context : option (gmap string string))
  : SystemM Json :=
  (evidence <- on_knowledge (retrieve question top_k strategy) ;;
   decision <- on_agent (decide http question evidence context) ;;
   ret (query_result decision))%py.

(** The dictionary [approve_decision] and [reject_decision] return. *)
Definition decision_result (result : option Decision) : Json :=
  match result with
  | None => JObj [("error", JStr "No pending decision with that ID")]
  | Some d =>
      JObj [("decision_id", JStr (d_decision_id d)); ("answer", JStr (d_answer d));
            ("state", JStr (AgentState_value (d_agent_state d)))]
  end.

(** [NanoCortex.approve_decision] *)
Definition approve_decision (decision_id : string) : SystemM Json :=
  (result <- on_agent (approve decision_id) ;;
   ret (decision_result result))%py.

(** [NanoCortex.reject_decision] *)
Definition reject_decision (decision_id reason : string) : SystemM Json :=
  (result <- on_agent (reject decision_id reason) ;;
   ret (decision_result result))%py.

(** [NanoCortex.submit_feedback]: the rating is converted before the
    record is built, so a [ValueError] draws no identifier. *)
Definition submit_feedback (decision_id rating corrected_answer explanation : string)
  : SystemM Json :=
  (rating <- lift_res (OutcomeRating_of_value rating) ;;
   feedback_id <- store_log fresh_id ;;
   created_at <- store_log fresh_time ;;
   let feedback :=
     {| fb_feedback_id := feedback_id; fb_decision_id := decision_id;
        fb_rating := rating; fb_corrected_answer := corrected_answer;
        fb_explanation := explanation; fb_created_at := created_at |} in
   recorded <- on_learning (record_feedback feedback) ;;
   ret (JObj [("feedback_id", JStr (fb_feedback_id recorded));
              ("decision_id", JStr (fb_decision_id recorded));
              ("rating", JStr (OutcomeRating_value (fb_rating recorded)))]))%py.

(** [NanoCortex.get_audit_trail], before the events are dumped. *)
Definition get_audit_trail (w : World) (decision_id : option string) : list AuditEvent :=
  get_events w decision_id None.

(** Every content the service sends is a [str]. *)
Definition text_replies (http : HttpRequest -> option Json) : Prop :=
  forall rq content, http rq = Some content -> is_text content = true.

(** [r] is [s] with the occurrences of [old] deleted, each one found at
    the first place at or after the end of the one before: what
    [s.replace(old, "")] returns for a non-empty [old], said without the
    function. *)
Inductive deleted (old : string) : string -> string -> Prop :=
| deleted_end : deleted old EmptyString EmptyString
| deleted_occurrence (rest r : string) :
    deleted old rest r -> deleted old (old +:+ rest) r
| deleted_char (c : ascii) (s r : string) :
    (forall rest, String c s <> old +:+ rest) ->
    deleted old s r -> deleted old (String c s) (String c r).

(** [old] occurs in [s]. *)
Definition occurs (old s : string) : Prop :=
  exists pre post, s = pre +:+ old +:+ post.

(** The rule cannot raise and cannot deny. *)
Definition harmless_rule (rule : PolicyRule) : Prop :=
  is_contains_rule rule = false /\ pr_verdict rule <> DENY.

(** The character does not occur in the string. *)
Fixpoint lacks (c : ascii) (s : string) : Prop :=
  match s with
  | EmptyString => True
  | String a s' => a <> c /\ lacks c s'
  end.

(** The identifier [index_document] gives the text chunk counted [added]
    of block [i]. *)
Definition text_chunk_id (doc : DocumentIngestion) (i added : Z) : string :=
  di_doc_id doc +:+ "_t" +:+ PyStr.of_int i +:+ "_" +:+ PyStr.of_int added.

End Nanocortex.

(** ** An executable rendering of JSON values

    [str(value)] for the values [json()] returns; the strings inside lists
    and dictionaries are quoted without escapes. *)

Module Formats.

Import Instances.

Definition hex_digit (n : nat) : ascii :=
  nth n (list_ascii_of_string "0123456789abcdef") "0"%char.

(** One character of [repr(s)] for the code points below 256: the quote
    in use and the backslash are escaped, tab, newline and carriage
    return have their letters, and the other code points that are not
    printable are written [\xhh]. *)
Definition repr_char (quote c : ascii) : string :=
  let n := nat_of_ascii c in
  if Ascii.eqb c quote || (n =? 92)%nat then String (ascii_of_nat 92) (String c EmptyString)
  else if (n =? 9)%nat then String (ascii_of_nat 92) "t"
  else if (n =? 10)%nat then String (ascii_of_nat 92) "n"
  else if (n =? 13)%nat then String (ascii_of_nat 92) "r"
  else if ((n <? 32) || (n =? 127) || (128 <=? n) && (n <=? 160) || (n =? 173))%nat
       then String (ascii_of_nat 92)
              (String "x" (String (hex_digit (n / 16))
                                  (String (hex_digit (n mod 16)) EmptyString)))
  else String c EmptyString.

Fixpoint repr_chars (quote : ascii) (s : string) : string :=
  match s with
  | EmptyString => EmptyString
  | String c s' => repr_char quote c +:+ repr_chars quote s'
  end.

(** [repr(s)] for a [str]: single quotes, unless the string holds a
    single quote and no double quote. *)
Definition repr_str (s : string) : string :=
  let single := "'"%char in
  let double := ascii_of_nat 34 in
  let quote :=
    if str_in (String single EmptyString) s && negb (str_in (String double EmptyString) s)
    then double else single in
  String quote (repr_chars quote s) +:+ String quote EmptyString.

(** [str(value)] for a value decoded from JSON; inside a list or a
    dictionary a [str] is shown by its [repr]. *)
Fixpoint show (nested : bool) (value : Json) : string :=
  match value with
  | JNull => "None"
  | JBool true => "True"
  | JBool false => "False"
  | JInt n => PyStr.of_int n
  | JFloat x => frepr x
  | JStr s => if nested then repr_str s else s
  | JList l => "[" +:+ PyStr.join ", " (map (show true) l) +:+ "]"
  | JObj fields =>
      "{" +:+ PyStr.join ", "
                (map (fun kv => repr_str (fst kv) +:+ ": " +:+ show true (snd kv)) fields)
      +:+ "}"
  end.

#[export] Instance ShowFormat : PyFormat := {| format_value := show false |}.

End Formats.

(** ** Sample inputs

    Concrete agents, stores and feedback sequences, on the executable
    instances. *)

Module Samples.

Import Instances.
Import Formats.

(** The response of a retrieval that found nothing. *)
Definition no_evidence_response (query : string) : RetrievalResponse :=
  {| resp_query := query; resp_results := []; resp_strategy := "hybrid" |}.

(** A rule with the given name, condition and verdict. *)
Definition mk_rule (name condition : string) (verdict : PolicyVerdict) : PolicyRule :=
  {| pr_rule_id := "rule_" +:+ name; pr_name := name; pr_description := EmptyString;
     pr_condition := condition; pr_verdict := verdict |}.

(** The world of a process that has just started. *)
Definition world0 : World := {| w_tick := 0; w_events := []; w_requests := [] |}.

(** Settings without credentials, human-in-the-loop enabled. *)
Definition offline_settings : Settings :=
  let cfg := {| api_key := EmptyString; model := "m"; base_url := "http://localhost";
                role := EmptyString |} in
  {| orchestrator := cfg; auditor := cfg; ingestion_helper := cfg;
     enable_human_in_loop := true; max_retries := 3; log_level := "INFO" |}.

(** [DecisionAgent(settings, policy_engine, audit)] with the given rules. *)
Definition new_agent (rules : list PolicyRule) : DecisionAgent :=
  {| _settings := offline_settings; _policy := {| _rules := rules |};
     _state := RUNNING; _pending_decision := None |}.

(** An HTTP client whose every request fails. *)
Definition no_http (rq : HttpRequest) : option Json := None.

(** The default rule of the orchestrator: approval when there is no evidence. *)
Definition approval_agent : DecisionAgent :=
  new_agent [mk_rule "no_hallucination" "no_evidence" NEEDS_APPROVAL].

(** The same with a rule that denies queries about a secret. *)
Definition deny_agent : DecisionAgent :=
  new_agent [mk_rule "forbidden" "contains:secret" DENY;
             mk_rule "no_hallucination" "no_evidence" NEEDS_APPROVAL].

(** The agent and the world after a first question that needs approval. *)
Definition pending_state : DecisionAgent * World :=
  snd (decide no_http "first question" (no_evidence_response "first question") None
              (approval_agent, world0)).

(** Settings with a key for the orchestrator only, human-in-the-loop
    enabled. *)
Definition keyed_settings : Settings :=
  let cfg := {| api_key := EmptyString; model := "m"; base_url := "http://localhost";
                role := EmptyString |} in
  {| orchestrator := {| api_key := "k"; model := "m"; base_url := "http://localhost";
                        role := EmptyString |};
     auditor := cfg; ingestion_helper := cfg;
     enable_human_in_loop := true; max_retries := 3; log_level := "INFO" |}.

(** The agent with the default rule and a key for the orchestrator. *)
Definition keyed_agent : DecisionAgent :=
  {| _settings := keyed_settings;
     _policy := {| _rules := [mk_rule "no_hallucination" "no_evidence" NEEDS_APPROVAL] |};
     _state := RUNNING; _pending_decision := None |}.

(** A service whose answer quotes the marker. *)
Definition marked_http (rq : HttpRequest) : option Json :=
  Some (JStr "see [AWAITING APPROVAL] page 2").

(** A service that sends [null] for content. *)
Definition null_http (rq : HttpRequest) : option Json := Some JNull.


(** An agent with a key for the orchestrator whose only rule denies
    queries about a secret. *)
Definition keyed_secret_agent : DecisionAgent :=
  {| _settings := keyed_settings;
     _policy := {| _rules := [mk_rule "forbidden" "contains:secret" DENY] |};
     _state := RUNNING; _pending_decision := None |}.

(** A rule whose pattern has an unclosed parenthesis. *)
Definition broken_rule : PolicyRule := mk_rule "broken" "contains:(" DENY.

(** A text block of page 0. *)
Definition mk_text (text : string) : ExtractedText :=
  {| et_text := text; et_confidence := 1%Q; et_bbox := None; et_source_page := 0 |}.

(** A document with the given identifier and text blocks, without images. *)
Definition mk_doc (doc_id : string) (texts : list string) : DocumentIngestion :=
  {| di_doc_id := doc_id; di_filename := "sample.pdf"; di_mime_type := "application/pdf";
     di_pages := 1; di_texts := map mk_text texts; di_images := [];
     di_ingested_at := 0 |}.

(** [KnowledgeStore(audit)] *)
Definition empty_store : KnowledgeStore := {| _chunks := []; _doc_ids := ∅ |}.

(** The chunks of the store after the documents were indexed in turn. *)
Definition chunks_after (docs : list DocumentIngestion) : list Chunk :=
  _chunks (fst (fold_left (fun s doc => snd (index_document doc s)) docs
                          (empty_store, world0))).

(** A document with two text blocks, and the store after indexing it. *)
Definition doc_xz : DocumentIngestion := mk_doc "d" ["x z"; "x x x w q"].

Definition store_xz : list Chunk := chunks_after [doc_xz].

(** A document with one text block, and the store after indexing it twice. *)
Definition doc_x : DocumentIngestion := mk_doc "e" ["x"].

Definition store_twice : list Chunk := chunks_after [doc_x; doc_x].

(** A decision without evidence that carries the given answer. *)
Definition mk_decision (answer : string) : Decision :=
  {| d_decision_id := "dec"; d_query := "q"; d_answer := answer; d_evidence := [];
     d_policy_evaluations := []; d_agent_state := COMPLETED; d_model_used := "m";
     d_auditor_model := "m"; d_created_at := 0 |}.

(** The code points of a string. *)
Definition code_points (s : string) : list nat := map nat_of_ascii (list_ascii_of_string s).

(** The string of the given code points below 256. *)
Definition of_code_points (l : list nat) : string :=
  string_of_list_ascii (map ascii_of_nat l).

(** A second document, and the store after the first was indexed twice
    and then this one. *)
Definition doc_f : DocumentIngestion := mk_doc "f" ["x y"].

Definition store_mixed : list Chunk := chunks_after [doc_x; doc_x; doc_f].

(** The [n]-th feedback record of a run, with the given rating. *)
Definition mk_feedback (n : nat) (rating : OutcomeRating) : FeedbackRecord :=
  {| fb_feedback_id := "fb" +:+ PyStr.of_int (Z.of_nat n);
     fb_decision_id := "dec" +:+ PyStr.of_int (Z.of_nat n);
     fb_rating := rating; fb_corrected_answer := EmptyString;
     fb_explanation := EmptyString; fb_created_at := 0 |}.

(** [LearningLoop(audit)] *)
Definition new_loop : LearningLoop :=
  {| _feedback := []; _adjustments := []; _mistake_counts := ∅ |}.

(** The types of the adjustments held after the ratings were recorded in
    turn on a new loop. *)
Definition adjustment_types_after (ratings : list OutcomeRating) : list string :=
  map la_adjustment_type
      (_adjustments
         (fst (fold_left (fun s fb => snd (record_feedback fb s))
                         (imap mk_feedback ratings) (new_loop, world0)))).

(** An agent whose only rule denies queries about a secret. *)
Definition secret_agent : DecisionAgent :=
  new_agent [mk_rule "forbidden" "contains:secret" DENY].

(** An agent one of whose rules has a pattern that does not compile. *)
Definition broken_agent : DecisionAgent :=
  new_agent [mk_rule "no_hallucination" "no_evidence" NEEDS_APPROVAL; broken_rule].

(** A system with the two default rules and the store of two chunks. *)
Definition default_system : NanoCortex :=
  {| nc_knowledge := {| _chunks := store_xz; _doc_ids := {[ "d" ]} |};
     nc_agent := new_agent [mk_rule "no_hallucination" "no_evidence" NEEDS_APPROVAL;
                            mk_rule "low_confidence" "min_score:0.01" NEEDS_APPROVAL];
     nc_learning := new_loop |}.

(** The same system with a key for the orchestrator. *)
Definition keyed_system : NanoCortex :=
  {| nc_knowledge := nc_knowledge default_system;
     nc_agent := {| _settings := keyed_settings;
                    _policy := _policy (nc_agent default_system);
                    _state := RUNNING; _pending_decision := None |};
     nc_learning := new_loop |}.

End Samples.

(** Evaluate the left-hand side of an equation. *)
Ltac run_lhs :=
  match goal with
  | |- ?l = _ =>
      let v := eval vm_compute in l in
      transitivity v; [vm_cast_no_check (eq_refl v) |]
  end.

(** * Proofs *)

(** ** Policy aggregation *)

Section PolicyProofs.
Context {F : PyFloat} {RE : PyRegex} {RT : Runtime}.

Lemma PolicyVerdict_eqb_eq (a b : PolicyVerdict) :
  PolicyVerdict_eqb a b = true <-> a = b.
Proof. destruct a, b; simpl; split; intros; congruence. Qed.

Lemma any_matched_Exists (v : PolicyVerdict) (evs : list PolicyEvaluation) :
  any_matched v evs = true <-> Exists (matched_with v) evs.
Proof.
  induction evs as [|e evs IH]; simpl.
  - split; [discriminate | intros H; inversion H].
  - destruct (pe_matched e) eqn:Hm; simpl.
    + destruct (PolicyVerdict_eqb (pe_verdict e) v) eqn:Hv.
      * split; [intros _ | reflexivity].
        apply Exists_cons_hd. split; [assumption | now apply PolicyVerdict_eqb_eq].
      * rewrite IH. split; [apply Exists_cons_tl |].
        intros H. apply Exists_cons in H as [[_ Hv'] | H]; [| assumption].
        apply PolicyVerdict_eqb_eq in Hv'. congruence.
    + rewrite IH. split; [apply Exists_cons_tl |].
      intros H. apply Exists_cons in H as [[Hm' _] | H]; [congruence | assumption].
Qed.

Lemma any_matched_false (v : PolicyVerdict) (evs : list PolicyEvaluation) :
  any_matched v evs = false <-> ~ Exists (matched_with v) evs.
Proof.
  rewrite <- any_matched_Exists. destruct (any_matched v evs); split; congruence.
Qed.

Lemma any_matched_Permutation (v : PolicyVerdict) (evs evs' : list PolicyEvaluation) :
  Permutation evs evs' -> any_matched v evs' = any_matched v evs.
Proof.
  intros Hp.
  destruct (any_matched v evs) eqn:H.
  - apply any_matched_Exists. apply any_matched_Exists in H.
    apply Exists_exists in H as (e & Hin & He). apply Exists_exists.
    exists e. split; [| assumption]. now rewrite <- Hp.
  - apply any_matched_false. apply any_matched_false in H.
    intros H'. apply H. apply Exists_exists in H' as (e & Hin & He).
    apply Exists_exists. exists e. split; [| assumption]. now rewrite Hp.
Qed.

(** C9. [check_allowed] returns [DENY] as soon as some matched evaluation
    has verdict [DENY], however many matched [NEEDS_APPROVAL] evaluations
    there are; otherwise [NEEDS_APPROVAL] if some matched evaluation has
    that verdict; otherwise [ALLOW]; and the result does not change when
    the list is permuted. *)
Theorem check_allowed_priority (evs : list PolicyEvaluation) :
  (Exists (matched_with DENY) evs -> check_allowed evs = DENY)
  /\ (~ Exists (matched_with DENY) evs ->
      Exists (matched_with NEEDS_APPROVAL) evs ->
      check_allowed evs = NEEDS_APPROVAL)
  /\ (~ Exists (matched_with DENY) evs ->
      ~ Exists (matched_with NEEDS_APPROVAL) evs ->
      check_allowed evs = ALLOW)
  /\ (forall evs', Permutation evs evs' -> check_allowed evs' = check_allowed evs).
Proof.
  unfold check_allowed. repeat split.
  - intros H. apply any_matched_Exists in H. now rewrite H.
  - intros Hd Hn. apply any_matched_false in Hd. apply any_matched_Exists in Hn.
    now rewrite Hd, Hn.
  - intros Hd Hn. apply any_matched_false in Hd. apply any_matched_false in Hn.
    now rewrite Hd, Hn.
  - intros evs' Hp.
    now rewrite (any_matched_Permutation DENY _ _ Hp),
                (any_matched_Permutation NEEDS_APPROVAL _ _ Hp).
Qed.
End PolicyProofs.

(** ** Conditions and [evaluate] *)

Section ConditionProofs.
Context {F : PyFloat} {RE : PyRegex} {RT : Runtime}.

Lemma check_condition_contains (rule : PolicyRule) (query : string)
    (evidence : RetrievalResponse) (context : gmap string string) :
  is_contains_rule rule = true ->
  _check_condition rule query evidence context =
    match re_search_ignorecase (contains_pattern rule) query with
    | Some found => Ok found
    | None => Raise re_error
    end.
Proof.
  unfold is_contains_rule, _check_condition, contains_pattern.
  intros H. apply andb_true_iff in H as [H1 H2].
  apply negb_true_iff in H1. now rewrite H1, H2.
Qed.

(** The only exception [_check_condition] lets through is the [re.error]
    of the [contains:] branch. *)
Lemma check_condition_raise_inv (rule : PolicyRule) (query : string)
    (evidence : RetrievalResponse) (context : gmap string string) (e : PyExc) :
  _check_condition rule query evidence context = Raise e ->
  e = re_error /\ is_contains_rule rule = true
  /\ re_search_ignorecase (contains_pattern rule) query = None.
Proof.
  unfold is_contains_rule, _check_condition, contains_pattern.
  destruct (String.eqb _ "no_evidence"); [discriminate |].
  destruct (PyStr.startswith "contains:" _).
  - destruct (re_search_ignorecase _ _); [discriminate |].
    intros [= <-]. auto.
  - destruct (PyStr.startswith "min_score:" _).
    + destruct (to_float _); discriminate.
    + destruct (PyStr.startswith "context:" _); [| discriminate].
      destruct (PyStr.split_once _ _) as [[? ?]|]; discriminate.
Qed.

Lemma evaluate_rule_Ok (query : string) (evidence : RetrievalResponse)
    (context : gmap string string) (rule : PolicyRule) (ev : PolicyEvaluation) :
  evaluate_rule query evidence context rule = Ok ev ->
  pe_rule ev = rule
  /\ _check_condition rule query evidence context = Ok (pe_matched ev)
  /\ pe_verdict ev = (if pe_matched ev then pr_verdict rule else ALLOW).
Proof.
  unfold evaluate_rule.
  destruct (_check_condition rule query evidence context) as [m|]; [| discriminate].
  intros [= <-]. simpl. auto.
Qed.

Lemma map_res_Ok {A B} (f : A -> Res B) (l : list A) (ys : list B) :
  map_res f l = Ok ys -> Forall2 (fun x y => f x = Ok y) l ys.
Proof.
  revert ys. induction l as [|x l IH]; simpl; intros ys.
  - intros [= <-]. constructor.
  - destruct (f x) as [y|] eqn:Hx; [| discriminate].
    destruct (map_res f l) as [ys'|]; [| discriminate].
    intros [= <-]. constructor; auto.
Qed.

Lemma map_res_Raise {A B} (f : A -> Res B) (l : list A) (e : PyExc) :
  map_res f l = Raise e -> Exists (fun x => f x = Raise e) l.
Proof.
  induction l as [|x l IH]; simpl; [discriminate |].
  destruct (f x) as [y|e'] eqn:Hx.
  - destruct (map_res f l) as [ys'|e'']; [discriminate |].
    intros [= <-]. apply Exists_cons_tl. now apply IH.
  - intros [= <-]. now apply Exists_cons_hd.
Qed.

Lemma map_res_total {A B} (f : A -> Res B) (l : list A) :
  Forall (fun x => exists y, f x = Ok y) l -> exists ys, map_res f l = Ok ys.
Proof.
  induction 1 as [|x l [y Hy] _ [ys IH]]; simpl; [now exists [] |].
  rewrite Hy, IH. now eexists.
Qed.

(** What [evaluate] does, whichever way it ends: it returns one evaluation
    per rule, in the order of the rules, an unmatched one with verdict
    [ALLOW]; or a rule's condition raised and nothing was logged. *)
Lemma evaluate_outcome (self : PolicyEngine) (query : string)
    (evidence : RetrievalResponse) (context : option (gmap string string)) (w : World) :
  match evaluate self query evidence context w with
  | (Ok evaluations, w') =>
      map pe_rule evaluations = _rules self
      /\ Forall (fun ev =>
                   _check_condition (pe_rule ev) query evidence (default ∅ context)
                     = Ok (pe_matched ev)
                   /\ pe_verdict ev =
                        if pe_matched ev then pr_verdict (pe_rule ev) else ALLOW)
                evaluations
      /\ w_requests w' = w_requests w
  | (Raise e, w') =>
      w' = w
      /\ Exists (fun rule => _check_condition rule query evidence (default ∅ context) = Raise e)
                (_rules self)
  end.
Proof.
  unfold evaluate, bind, lift_res.
  destruct (map_res _ (_rules self)) as [evs|e] eqn:Hm.
  - simpl. apply map_res_Ok in Hm. repeat split.
    + induction Hm as [|r ev rs evs Hr _ IH]; simpl; [reflexivity |].
      apply evaluate_rule_Ok in Hr as (-> & _). now rewrite IH.
    + induction Hm as [|r ev rs evs Hr _ IH]; constructor; [| assumption].
      apply evaluate_rule_Ok in Hr as (-> & Hc & Hv). auto.
  - split; [reflexivity |]. apply map_res_Raise in Hm.
    apply Exists_exists in Hm as (r & Hin & Hr). apply Exists_exists.
    exists r. split; [assumption |]. unfold evaluate_rule in Hr.
    destruct (_check_condition r query evidence (default ∅ context)); congruence.
Qed.

(** X1. Whenever the regular-expression engine accepts the pattern of every
    [contains:] rule, [evaluate] returns exactly one evaluation per
    registered rule, in registration order, and an evaluation whose rule
    did not match carries [ALLOW], one whose rule matched the rule's own
    verdict. *)
Theorem evaluate_one_per_rule (self : PolicyEngine) (query : string)
    (evidence : RetrievalResponse) (context : option (gmap string string)) (w : World) :
  Forall (fun rule =>
            is_contains_rule rule = true ->
            re_search_ignorecase (contains_pattern rule) query <> None)
         (_rules self) ->
  exists evaluations w',
    evaluate self query evidence context w = (Ok evaluations, w')
    /\ map pe_rule evaluations = _rules self
    /\ Forall (fun ev =>
                 pe_verdict ev = if pe_matched ev then pr_verdict (pe_rule ev) else ALLOW)
              evaluations.
Proof.
  intros Hok.
  pose proof (evaluate_outcome self query evidence context w) as Hout.
  destruct (evaluate self query evidence context w) as [[evaluations|e] w'].
  - destruct Hout as (Hrules & Hall & _). exists evaluations, w'.
    split; [reflexivity |]. split; [assumption |].
    eapply Forall_impl; [exact Hall |]. intros ev [_ Hv]. exact Hv.
  - exfalso. destruct Hout as [_ Hex].
    apply Exists_exists in Hex as (rule & Hin & Hraise).
    apply check_condition_raise_inv in Hraise as (_ & Hc & Hnone).
    rewrite Forall_forall in Hok. now apply (Hok rule Hin Hc).
Qed.

End ConditionProofs.

(** ** The decision agent *)

Section AgentProofs.
Context {F : PyFloat} {FMT : PyFormat} {RE : PyRegex} {RT : Runtime}.

Lemma call_orchestrator_returns (http : HttpRequest -> option Json)
    (cfg : LLMProviderConfig) (query : string) (evidence : RetrievalResponse) (w : World) :
  exists answer w', _call_orchestrator http cfg query evidence w = (Ok answer, w').
Proof.
  unfold _call_orchestrator.
  destruct (negb (PyStr.truthy (api_key cfg))); [now eexists; eexists |].
  unfold bind, post. simpl. destruct (http _); now eexists; eexists.
Qed.

Lemma call_auditor_returns (http : HttpRequest -> option Json)
    (cfg : LLMProviderConfig) (query : string) (answer : Json)
    (evidence : RetrievalResponse) (w : World) :
  exists text w', _call_auditor http cfg query answer evidence w = (Ok text, w').
Proof.
  unfold _call_auditor.
  destruct (negb (PyStr.truthy (api_key cfg))); [now eexists; eexists |].
  unfold bind, post. simpl. destruct (http _); now eexists; eexists.
Qed.

(** C3. When the aggregate verdict of the policies is [DENY], [decide]
    returns a decision in state [FAILED] with the fixed denial text, and
    it returns the same decision and leaves the same state for every two
    HTTP collaborators: neither the generator nor the reviewer is called,
    and no request is sent. *)
Theorem decide_deny_skips_generation
    (http1 http2 : HttpRequest -> option Json) (agent : DecisionAgent) (w : World)
    (query : string) (evidence : RetrievalResponse)
    (context : option (gmap string string))
    (evaluations : list PolicyEvaluation) (w1 : World) :
  evaluate (_policy agent) query evidence context w = (Ok evaluations, w1) ->
  check_allowed evaluations = DENY ->
  exists decision s',
    decide http1 query evidence context (agent, w) = (Ok decision, s')
    /\ decide http2 query evidence context (agent, w) = (Ok decision, s')
    /\ d_agent_state decision = FAILED
    /\ d_answer decision = DENIED_ANSWER
    /\ d_query decision = query
    /\ d_evidence decision = resp_results evidence
    /\ d_policy_evaluations decision = evaluations
    /\ _state (fst s') = FAILED
    /\ _pending_decision (fst s') = _pending_decision agent
    /\ w_requests (snd s') = w_requests w.
Proof.
  intros Hev Hdeny.
  pose proof (evaluate_outcome (_policy agent) query evidence context w) as Hout.
  rewrite Hev in Hout. destruct Hout as (_ & _ & Hreq).
  unfold decide, bind, set_state, self, in_world, modify. simpl.
  rewrite Hev, Hdeny. simpl.
  eexists. eexists. repeat split; simpl; auto.
Qed.

Lemma approve_reject_not_pending (agent : DecisionAgent) (w : World)
    (decision_id : string) :
  (forall pending,
      _pending_decision agent = Some pending ->
      d_decision_id pending <> decision_id) ->
  approve decision_id (agent, w) = (Ok None, (agent, w))
  /\ forall reason, reject decision_id reason (agent, w) = (Ok None, (agent, w)).
Proof.
  intros Hno. unfold approve, reject, bind, self. simpl.
  destruct (_pending_decision agent) as [pending|]; [| split; reflexivity].
  specialize (Hno pending eq_refl). apply String.eqb_neq in Hno.
  rewrite Hno. split; reflexivity.
Qed.

End AgentProofs.

(** ** Splitting text blocks *)

Section SplitProofs.
Context {F : PyFloat} {RE : PyRegex} {RT : Runtime}.

Lemma lstrip_length (s : string) : (String.length (PyStr.lstrip s) <= String.length s)%nat.
Proof.
  induction s as [|c s IH]; simpl; [lia |].
  destruct (PyStr.is_space c); simpl; lia.
Qed.

Lemma rstrip_length (s : string) : (String.length (PyStr.rstrip s) <= String.length s)%nat.
Proof.
  induction s as [|c s IH]; simpl; [lia |].
  destruct (PyStr.rstrip s) as [|c' r]; simpl in *.
  - destruct (PyStr.is_space c); simpl; lia.
  - lia.
Qed.

Lemma strip_length (s : string) : (String.length (PyStr.strip s) <= String.length s)%nat.
Proof.
  unfold PyStr.strip.
  pose proof (rstrip_length (PyStr.lstrip s)). pose proof (lstrip_length s). lia.
Qed.

Lemma current_ok_segment (max_chars : Z) (sentences : list string) (current : string) :
  current_ok max_chars sentences current ->
  PyStr.truthy current = true ->
  segment_ok max_chars sentences (PyStr.strip current).
Proof.
  pose proof (strip_length current) as Hs.
  intros [-> | [Hle | Hin]] Ht; [discriminate | left; lia |].
  destruct (Z_le_gt_dec (Z.of_nat (String.length current)) max_chars) as [Hle | Hgt].
  - left. lia.
  - right. exists current. repeat split; [assumption | lia].
Qed.

Lemma split_step_invariant (max_chars : Z) (all : list string) (sentence : string)
    (chunks : list string) (current : string) :
  In sentence all ->
  Forall (segment_ok max_chars all) chunks ->
  current_ok max_chars all current ->
  Forall (segment_ok max_chars all) (fst (split_step max_chars (chunks, current) sentence))
  /\ current_ok max_chars all (snd (split_step max_chars (chunks, current) sentence)).
Proof.
  intros Hin Hchunks Hcur. unfold split_step.
  destruct (PyStr.truthy current) eqn:Ht.
  - destruct (max_chars <? _) eqn:Hlt; simpl.
    + split; [| right; now right].
      apply Forall_app. split; [assumption |].
      constructor; [| constructor]. now apply current_ok_segment.
    + split; [assumption |]. right. left. apply Z.ltb_ge in Hlt. exact Hlt.
  - rewrite andb_false_r. simpl. split; [assumption | right; now right].
Qed.

Lemma split_loop_invariant (max_chars : Z) (all sentences : list string)
    (chunks : list string) (current : string) :
  (forall s, In s sentences -> In s all) ->
  Forall (segment_ok max_chars all) chunks ->
  current_ok max_chars all current ->
  Forall (segment_ok max_chars all)
         (fst (fold_left (split_step max_chars) sentences (chunks, current)))
  /\ current_ok max_chars all
       (snd (fold_left (split_step max_chars) sentences (chunks, current))).
Proof.
  revert chunks current.
  induction sentences as [|s sentences IH]; intros chunks current Hsub Hchunks Hcur;
    cbn [fold_left]; [auto |].
  destruct (split_step_invariant max_chars all s chunks current) as [H1 H2];
    [apply Hsub; now left | assumption | assumption |].
  destruct (split_step max_chars (chunks, current) s) as [chunks' current'].
  apply IH; [intros; apply Hsub; now right | assumption | assumption].
Qed.

Lemma split_text_short (text : string) (max_chars : Z) :
  Z.of_nat (String.length text) <= max_chars -> _split_text text max_chars = [text].
Proof.
  intros H. unfold _split_text. apply Z.leb_le in H. now rewrite H.
Qed.

Lemma lstrip_all_space (s : string) :
  if all_space s then PyStr.lstrip s = EmptyString
  else exists c r, PyStr.lstrip s = String c r /\ PyStr.is_space c = false.
Proof.
  induction s as [|c s IH]; [reflexivity |]. cbn [all_space PyStr.lstrip].
  destruct (PyStr.is_space c) eqn:Hc; cbn [andb]; [exact IH |].
  exists c, s. now split.
Qed.

Lemma rstrip_head (c : ascii) (r : string) :
  PyStr.is_space c = false -> exists r', PyStr.rstrip (String c r) = String c r'.
Proof.
  intros Hc. cbn [PyStr.rstrip]. destruct (PyStr.rstrip r) as [|c' r'].
  - rewrite Hc. now eexists.
  - now eexists.
Qed.

(** Stripping leaves nothing exactly of the strings of whitespace. *)
Lemma strip_all_space (s : string) :
  if all_space s then PyStr.strip s = EmptyString
  else exists c r, PyStr.strip s = String c r /\ PyStr.is_space c = false.
Proof.
  unfold PyStr.strip. pose proof (lstrip_all_space s) as H.
  destruct (all_space s).
  - now rewrite H.
  - destruct H as (c & r & -> & Hc). destruct (rstrip_head c r Hc) as [r' ->].
    now exists c, r'.
Qed.

Lemma strip_text (s : string) :
  all_space s = false -> PyStr.truthy (PyStr.strip s) = true.
Proof.
  intros H. pose proof (strip_all_space s) as Hs. rewrite H in Hs.
  now destruct Hs as (c & r & -> & _).
Qed.

Lemma strip_strip_text (s : string) :
  all_space s = false -> PyStr.truthy (PyStr.strip (PyStr.strip s)) = true.
Proof.
  intros H. pose proof (strip_all_space s) as Hs. rewrite H in Hs.
  destruct Hs as (c & r & -> & Hc). apply strip_text. cbn [all_space]. now rewrite Hc.
Qed.

Lemma all_space_append (a b : string) :
  all_space (a +:+ b) = all_space a && all_space b.
Proof.
  induction a as [|c a IH]; [reflexivity |].
  change (String c a +:+ b) with (String c (a +:+ b)). cbn [all_space].
  now rewrite IH, andb_assoc.
Qed.

(** A candidate that joins two sentences holds the full stop. *)
Lemma joined_has_text (current sentence : string) :
  all_space (current +:+ ". " +:+ sentence) = false.
Proof. rewrite all_space_append. apply andb_false_r. Qed.

Lemma truthy_strip_blank (s : string) :
  PyStr.truthy (PyStr.strip s) = false <-> blank s.
Proof.
  unfold blank. destruct (PyStr.strip s); cbn [PyStr.truthy];
    split; intros H; try reflexivity; discriminate H.
Qed.

(** Once the loop holds text it holds text to the end. *)
Lemma split_step_holds_text (max_chars : Z) (st : list string * string)
    (sentence : string) :
  holds_text st -> holds_text (split_step max_chars st sentence).
Proof.
  destruct st as [chunks current]. unfold holds_text, split_step. cbn [fst snd].
  intros H. destruct (PyStr.truthy current) eqn:Ht.
  - destruct (max_chars <? _); cbn [andb fst snd].
    + left. intros K. now apply app_eq_nil in K as [_ K].
    + right. apply strip_strip_text, joined_has_text.
  - rewrite andb_false_r. cbn [fst snd].
    destruct H as [H | H]; [now left |].
    destruct current; [discriminate H | discriminate Ht].
Qed.

Lemma split_loop_holds_text (max_chars : Z) (sentences : list string)
    (st : list string * string) :
  holds_text st -> holds_text (fold_left (split_step max_chars) sentences st).
Proof.
  revert st. induction sentences as [|s sentences IH]; intros st H; [exact H |].
  cbn [fold_left]. apply IH. now apply split_step_holds_text.
Qed.

(** A loop that holds no text at the end has read blank sentences only. *)
Lemma split_loop_blank (max_chars : Z) (sentences : list string)
    (chunks : list string) (current : string) :
  blank current ->
  holds_text (fold_left (split_step max_chars) sentences (chunks, current))
  \/ Forall blank sentences.
Proof.
  revert chunks current.
  induction sentences as [|s sentences IH]; intros chunks current Hcur; [now right |].
  cbn [fold_left].
  assert (Hstep : holds_text (split_step max_chars (chunks, current) s)
                  \/ exists current', split_step max_chars (chunks, current) s
                                      = (chunks, current')
                                      /\ blank current' /\ blank s).
  { unfold split_step. destruct (PyStr.truthy current) eqn:Ht.
    - left. destruct (max_chars <? _); cbn [andb].
      + left. cbn [fst]. intros K. now apply app_eq_nil in K as [_ K].
      + right. cbn [snd]. apply strip_strip_text, joined_has_text.
    - rewrite andb_false_r.
      destruct (PyStr.truthy (PyStr.strip s)) eqn:Hs.
      + left. right. exact Hs.
      + right. exists s. apply truthy_strip_blank in Hs. auto. }
  destruct Hstep as [H | (current' & -> & Hc' & Hs)].
  - left. now apply split_loop_holds_text.
  - destruct (IH chunks current' Hc') as [H | H]; [now left | right].
    now constructor.
Qed.

Lemma split_text_segments (text : string) (max_chars : Z) (seg : string) :
  In seg (_split_text text max_chars) ->
  segment_ok max_chars (sentences_of text) seg
  \/ (seg = text /\ _split_text text max_chars = [text]
      /\ Forall blank (sentences_of text)).
Proof.
  unfold _split_text.
  destruct (Z.of_nat (String.length text) <=? max_chars) eqn:Hle.
  - intros [<- | []]. left. left. now apply Z.leb_le.
  - assert (Hcur0 : current_ok max_chars (sentences_of text) EmptyString).
    { now left. }
    pose proof (split_loop_blank max_chars (sentences_of text) [] EmptyString eq_refl)
      as Hb.
    destruct (split_loop_invariant max_chars (sentences_of text) (sentences_of text)
                [] EmptyString (fun s H => H) (List.Forall_nil _) Hcur0) as [H1 H2].
    destruct (fold_left _ _ _) as [chunks current].
    unfold holds_text in Hb. cbn [fst snd] in H1, H2, Hb.
    destruct (PyStr.truthy (PyStr.strip current)) eqn:Ht.
    + assert (Hall : Forall (segment_ok max_chars (sentences_of text))
                       (chunks ++ [PyStr.strip current])).
      { apply Forall_app. split; [assumption |].
        constructor; [| constructor]. apply current_ok_segment; [assumption |].
        destruct current; [discriminate Ht | reflexivity]. }
      destruct (chunks ++ [PyStr.strip current]) as [|c cs] eqn:Hc.
      * now apply app_eq_nil in Hc as [_ Hc].
      * intros Hin. left. rewrite Forall_forall in H1, Hall. apply Hall.
        now apply list_elem_of_In.
    + destruct chunks as [|c cs].
      * intros [<- | []]. right. split; [reflexivity |]. split; [reflexivity |].
        destruct Hb as [[K | K] | K]; [now contradiction K | discriminate K | exact K].
      * intros Hin. left. rewrite Forall_forall in H1. apply H1.
        now apply list_elem_of_In.
Qed.

Lemma index_sub_chunks_texts (doc : DocumentIngestion) (i : Z)
    (text_block : ExtractedText) (subs : list string) (added : Z) :
  map ck_text (fst (index_sub_chunks doc i text_block subs added)) = subs.
Proof.
  revert added. induction subs as [|s subs IH]; intros added; simpl; [reflexivity |].
  specialize (IH (added + 1)).
  destruct (index_sub_chunks doc i text_block subs (added + 1)). simpl in *.
  now rewrite IH.
Qed.

(** The text chunks of a document are the segments of its blocks, block
    after block. *)
Lemma index_text_blocks_texts (doc : DocumentIngestion) (i : Z)
    (blocks : list ExtractedText) (added : Z) :
  map ck_text (fst (index_text_blocks doc i blocks added))
  = concat (map (fun tb => _split_text (et_text tb) 500) blocks).
Proof.
  revert i added. induction blocks as [|tb blocks IH]; intros i added; simpl;
    [reflexivity |].
  pose proof (index_sub_chunks_texts doc i tb (_split_text (et_text tb) 500) added) as H1.
  destruct (index_sub_chunks doc i tb (_split_text (et_text tb) 500) added)
    as [chunks1 added1]. simpl in H1.
  specialize (IH (i + 1) added1).
  destruct (index_text_blocks doc (i + 1) blocks added1) as [chunks2 added2].
  simpl in *. now rewrite map_app, H1, IH.
Qed.

(** C5, as amended.  A block of at most 500 characters is kept whole as
    one segment.  A segment of a longer block is at most 500 characters
    long, unless it is one sentence of the block that is itself longer
    than 500 characters (taken whole, stripped), or the block has no
    sentence with text in it (every piece between the separators is
    empty once stripped) and is returned whole.  The text chunks
    [index_document] adds are these segments, block after block. *)
Theorem split_text_budget (text : string) :
  (Z.of_nat (String.length text) <= 500 -> _split_text text 500 = [text])
  /\ (forall seg,
         In seg (_split_text text 500) ->
         Z.of_nat (String.length seg) <= 500
         \/ (exists sentence,
                In sentence (sentences_of text) /\ seg = PyStr.strip sentence
                /\ 500 < Z.of_nat (String.length sentence))
         \/ (seg = text /\ _split_text text 500 = [text]
             /\ Forall (fun sentence => PyStr.strip sentence = EmptyString)
                       (sentences_of text)))
  /\ (forall doc : DocumentIngestion,
         map ck_text (fst (index_text_blocks doc 0 (di_texts doc) 0))
         = concat (map (fun tb => _split_text (et_text tb) 500) (di_texts doc))).
Proof.
  split; [apply split_text_short |]. split.
  - intros seg Hin. apply split_text_segments in Hin as [[H | H] | H]; auto.
  - intros doc. apply index_text_blocks_texts.
Qed.

End SplitProofs.

(** ** Sorting by score *)

Section RankProofs.
Context {F : PyFloat} {L : PyFloatLaws F} {RE : PyRegex} {RT : Runtime}.

Lemma collect_results_filter (top : list Scored) :
  collect_results top = map result_of (List.filter positive top).
Proof.
  induction top as [|[chunk score] top IH]; [reflexivity |].
  cbn [collect_results List.filter]. unfold positive at 1. cbn [snd].
  destruct (fle score (of_int 0)); simpl; [exact IH | now rewrite IH].
Qed.

Lemma insert_desc_Permutation (x : Scored) (l : list Scored) :
  Permutation (insert_desc x l) (x :: l).
Proof.
  induction l as [|y l IH]; simpl; [reflexivity |].
  destruct (flt (snd x) (snd y)); [| reflexivity].
  rewrite IH. apply perm_swap.
Qed.

Lemma sort_desc_Permutation (l : list Scored) : Permutation (sort_desc l) l.
Proof.
  induction l as [|x l IH]; simpl; [reflexivity |].
  rewrite insert_desc_Permutation. now constructor.
Qed.

Lemma insert_desc_HdRel (y x : Scored) (l : list Scored) :
  desc y x -> HdRel desc y l -> HdRel desc y (insert_desc x l).
Proof.
  intros Hyx Hl. destruct l as [|z l]; simpl; [now constructor |].
  inversion Hl; subst.
  destruct (flt (snd x) (snd z)); now constructor.
Qed.

Lemma insert_desc_Sorted (x : Scored) (l : list Scored) :
  Sorted desc l -> Sorted desc (insert_desc x l).
Proof.
  induction l as [|y l IH]; simpl; intros Hs.
  - repeat constructor.
  - inversion Hs as [|? ? Hs' Hhd]; subst.
    destruct (flt (snd x) (snd y)) eqn:Hxy.
    + constructor; [now apply IH |].
      apply insert_desc_HdRel; [| assumption].
      unfold desc. now apply flt_asym.
    + constructor; [assumption |]. now constructor.
Qed.

Lemma sort_desc_Sorted (l : list Scored) : Sorted desc (sort_desc l).
Proof.
  induction l as [|x l IH]; simpl; [constructor | now apply insert_desc_Sorted].
Qed.

Lemma sort_desc_StronglySorted (l : list Scored) : StronglySorted desc (sort_desc l).
Proof.
  apply Sorted_StronglySorted; [| apply sort_desc_Sorted].
  intros a b c Hab Hbc. unfold desc in *. eapply flt_negtrans; eassumption.
Qed.

Lemma positive_desc (a b : Scored) : desc a b -> positive b = true -> positive a = true.
Proof.
  unfold desc, positive. rewrite !fle_flt, !negb_involutive.
  intros Hab Hb. destruct (flt (of_int 0) (snd a)) eqn:Ha; [reflexivity |].
  rewrite (flt_negtrans _ _ _ Ha Hab) in Hb. discriminate.
Qed.

Lemma filter_positive_nil (x : Scored) (l : list Scored) :
  positive x = false -> Forall (desc x) l -> List.filter positive l = [].
Proof.
  intros Hx Hall. induction Hall as [|y l Hxy _ IH]; [reflexivity |].
  simpl. rewrite IH. destruct (positive y) eqn:Hy; [| reflexivity].
  rewrite (positive_desc _ _ Hxy Hy) in Hx. discriminate.
Qed.

(** On a list in descending order, dropping the pairs that are not
    positive and keeping the first [k] commute. *)
Lemma filter_take_sorted (k : nat) (l : list Scored) :
  StronglySorted desc l ->
  List.filter positive (take k l) = take k (List.filter positive l).
Proof.
  intros Hs. revert k. induction Hs as [|x l Hs IH Hall]; intros k.
  - now destruct k.
  - destruct k as [|k]; [reflexivity |].
    cbn [take List.filter].
    destruct (positive x) eqn:Hx.
    + cbn [take]. now rewrite IH.
    + rewrite IH, (filter_positive_nil x l Hx Hall). now rewrite take_nil.
Qed.

Lemma tie_positive (s : float) (x y : Scored) :
  tie s x = true -> tie s y = true -> positive x = positive y.
Proof.
  unfold tie, positive. rewrite !fle_flt, !negb_involutive.
  intros Hx Hy. apply andb_true_iff in Hx as [Hx1 Hx2], Hy as [Hy1 Hy2].
  apply negb_true_iff in Hx1, Hx2, Hy1, Hy2.
  destruct (flt (of_int 0) (snd x)) eqn:H0x, (flt (of_int 0) (snd y)) eqn:H0y;
    try reflexivity.
  - rewrite (flt_negtrans _ _ _ (flt_negtrans _ _ _ H0y Hy2) Hx1) in H0x. discriminate.
  - rewrite (flt_negtrans _ _ _ (flt_negtrans _ _ _ H0x Hx2) Hy1) in H0y. discriminate.
Qed.

Lemma insert_desc_filter_tie (s : float) (x : Scored) (l : list Scored) :
  List.filter (tie s) (insert_desc x l) = List.filter (tie s) (x :: l).
Proof.
  induction l as [|y l IH]; [reflexivity |].
  cbn [insert_desc].
  destruct (flt (snd x) (snd y)) eqn:Hxy; [| reflexivity].
  cbn [List.filter] in *. rewrite IH.
  destruct (tie s x) eqn:Hx; [| reflexivity].
  destruct (tie s y) eqn:Hy; [| reflexivity].
  exfalso. unfold tie in Hx, Hy.
  apply andb_true_iff in Hx as [Hx1 Hx2], Hy as [Hy1 Hy2].
  apply negb_true_iff in Hx1, Hx2, Hy1, Hy2.
  rewrite (flt_negtrans _ _ _ Hx2 Hy1) in Hxy. discriminate.
Qed.

(** The sort is stable: the pairs that tie at a score keep their order. *)
Lemma sort_desc_filter_tie (s : float) (l : list Scored) :
  List.filter (tie s) (sort_desc l) = List.filter (tie s) l.
Proof.
  induction l as [|x l IH]; [reflexivity |].
  cbn [sort_desc foldr]. fold (sort_desc l).
  rewrite insert_desc_filter_tie. cbn [List.filter]. now rewrite IH.
Qed.

End RankProofs.

(** ** Retrieval *)

Section RetrieveProofs.
Context {F : PyFloat} {L : PyFloatLaws F} {RE : PyRegex} {RT : Runtime}.

Lemma filter_take_prefix {A} (P : A -> bool) (k : nat) (l : list A) :
  exists m, List.filter P (take k l) = take m (List.filter P l).
Proof.
  revert k. induction l as [|x l IH]; intros k.
  - exists O. now destruct k.
  - destruct k as [|k]; [now exists O |].
    destruct (IH k) as [m Hm]. cbn [take List.filter].
    destruct (P x); [exists (S m); cbn [take]; now rewrite Hm | now exists m].
Qed.

Lemma filter_filter_comm {A} (P Q : A -> bool) (l : list A) :
  List.filter P (List.filter Q l) = List.filter Q (List.filter P l).
Proof.
  induction l as [|x l IH]; [reflexivity |]. cbn [List.filter].
  destruct (P x) eqn:HP, (Q x) eqn:HQ; cbn [List.filter];
    rewrite ?HP, ?HQ, IH; reflexivity.
Qed.

Lemma filter_positive_ties (s : float) (l : list Scored) :
  List.filter positive (List.filter (tie s) l) = List.filter (tie s) l
  \/ List.filter positive (List.filter (tie s) l) = [].
Proof.
  induction l as [|x l IH]; [now left |]. cbn [List.filter].
  destruct (tie s x) eqn:Hx; [| exact IH]. cbn [List.filter].
  assert (Hall : forall y, In y (List.filter (tie s) l) -> positive y = positive x).
  { intros y Hy. apply List.filter_In in Hy as [_ Hy]. now apply (tie_positive s). }
  destruct (positive x) eqn:Hp.
  - left. f_equal. clear IH. induction (List.filter (tie s) l) as [|y t IHt];
      [reflexivity |]. cbn [List.filter]. rewrite (Hall y) by now left.
    f_equal. apply IHt. intros z Hz. apply Hall. now right.
  - right. clear IH. induction (List.filter (tie s) l) as [|y t IHt];
      [reflexivity |]. cbn [List.filter]. rewrite (Hall y) by now left.
    apply IHt. intros z Hz. apply Hall. now right.
Qed.

(** Among the pairs [retrieve] keeps, those that tie at a score are the
    first ones of the list that was sorted, in its order. *)
Lemma kept_ties_prefix (s : float) (k : nat) (scored : list Scored) :
  exists m,
    List.filter (tie s) (take k (List.filter positive (sort_desc scored)))
    = take m (List.filter (tie s) scored).
Proof.
  destruct (filter_take_prefix (tie s) k (List.filter positive (sort_desc scored)))
    as [m Hm].
  rewrite Hm, filter_filter_comm, sort_desc_filter_tie.
  destruct (filter_positive_ties s scored) as [-> | ->]; [now exists m |].
  exists O. now rewrite take_nil.
Qed.

Lemma py_slice_to_nonneg {A} (k : Z) (l : list A) :
  0 <= k -> py_slice_to k l = take (Z.to_nat k) l.
Proof. intros H. unfold py_slice_to. apply Z.leb_le in H. now rewrite H. Qed.

Lemma bm25_score_chunks (chunks : list Chunk) (query : string) (k1 b : float) :
  map fst (_bm25_score chunks query k1 b) = chunks.
Proof.
  unfold _bm25_score. destruct (terms_of query); rewrite map_map; simpl; apply map_id.
Qed.

Lemma vector_score_chunks (chunks : list Chunk) (query : string) :
  map fst (_vector_score chunks query) = chunks.
Proof.
  unfold _vector_score. rewrite map_map. rewrite <- (map_id chunks) at 2.
  apply map_ext. intros c. now destruct (_ || _).
Qed.

(** *** Reciprocal rank fusion *)

Lemma index_of_None (cid : string) (l : list string) :
  index_of cid l = None <-> ~ In cid l.
Proof.
  induction l as [|x l IH]; simpl; [tauto |].
  destruct (String.eqb x cid) eqn:Hx.
  - apply String.eqb_eq in Hx. split; [discriminate | intros H; exfalso; apply H; now left].
  - apply String.eqb_neq in Hx. destruct (index_of cid l); simpl.
    + split; [discriminate |]. intros H. exfalso. apply H. right.
      destruct IH as [_ IH]. destruct (in_dec string_dec cid l) as [Hin|Hin]; [assumption |].
      now specialize (IH Hin).
    + split; [| reflexivity]. intros _ [H | H]; [congruence |].
      destruct IH as [IH _]. now apply IH.
Qed.

Lemma dict_get_set_eq {V} (d : list (string * V)) (key : string) (v : V) :
  dict_get (dict_set d key v) key = Some v.
Proof.
  induction d as [|[k v'] d IH]; simpl.
  - now rewrite String.eqb_refl.
  - destruct (String.eqb k key) eqn:Hk; simpl; now rewrite Hk.
Qed.

Lemma dict_get_set_ne {V} (d : list (string * V)) (key key' : string) (v : V) :
  key <> key' -> dict_get (dict_set d key v) key' = dict_get d key'.
Proof.
  intros Hne. induction d as [|[k v'] d IH]; simpl.
  - apply String.eqb_neq in Hne. now rewrite Hne.
  - destruct (String.eqb k key) eqn:Hk; simpl.
    + apply String.eqb_eq in Hk. subst k.
      apply String.eqb_neq in Hne. now rewrite Hne.
    + destruct (String.eqb k key'); [reflexivity | exact IH].
Qed.

Lemma dict_get_None {V} (d : list (string * V)) (key : string) :
  dict_get d key = None <-> ~ In key (keys d).
Proof.
  induction d as [|[k v] d IH]; simpl; [tauto |].
  destruct (String.eqb k key) eqn:Hk.
  - apply String.eqb_eq in Hk. split; [discriminate | intros H; exfalso; apply H; now left].
  - apply String.eqb_neq in Hk. rewrite IH. tauto.
Qed.

Lemma dict_set_keys_in {V} (d : list (string * V)) (key : string) (v : V) :
  In key (keys d) -> keys (dict_set d key v) = keys d.
Proof.
  induction d as [|[k v'] d IH]; simpl; [tauto |].
  destruct (String.eqb k key) eqn:Hk; [reflexivity |].
  apply String.eqb_neq in Hk. intros [H | H]; [congruence |]. simpl. now rewrite IH.
Qed.

Lemma dict_set_keys_fresh {V} (d : list (string * V)) (key : string) (v : V) :
  ~ In key (keys d) -> keys (dict_set d key v) = keys d ++ [key].
Proof.
  induction d as [|[k v'] d IH]; simpl; [reflexivity |]. intros H.
  destruct (String.eqb k key) eqn:Hk.
  - apply String.eqb_eq in Hk. exfalso. apply H. now left.
  - simpl. rewrite IH; [reflexivity |]. intros Hin. apply H. now right.
Qed.

(** The scores after the inner loop of [_rrf_fuse] on a list without
    repeated identifiers: the chunk at 0-based position [i] gets the term
    of rank [rank + i] added, the others keep what they had. *)
Lemma rrf_accumulate_get (k : Z) (cid : string) (l : list Scored) :
  forall (rank : Z) (scores : list (string * float)) (chunk_map : list (string * Chunk)),
    NoDup (ids l) ->
    dict_get (fst (rrf_accumulate k rank l (scores, chunk_map))) cid =
      match index_of cid (ids l) with
      | Some i => Some (fadd (default (lit 0) (dict_get scores cid))
                             (rrf_term k (rank + Z.of_nat i)))
      | None => dict_get scores cid
      end.
Proof.
  induction l as [|[c sc] l IH]; intros rank scores chunk_map Hnd; [reflexivity |].
  cbn [rrf_accumulate ids map fst index_of]. fold (ids l).
  apply NoDup_cons in Hnd as [Hnotin Hnd]. cbn [fst] in Hnotin.
  rewrite (IH _ _ _ Hnd).
  destruct (String.eqb (ck_chunk_id c) cid) eqn:Hc.
  - apply String.eqb_eq in Hc. subst cid.
    assert (Hnone : index_of (ck_chunk_id c) (ids l) = None).
    { apply index_of_None. intros Hin. apply Hnotin. now apply list_elem_of_In. }
    rewrite Hnone, dict_get_set_eq. now rewrite Z.add_0_r.
  - apply String.eqb_neq in Hc. rewrite (dict_get_set_ne _ _ _ _ Hc).
    destruct (index_of cid (ids l)) as [i|]; simpl; [| reflexivity].
    do 3 f_equal. lia.
Qed.

Lemma dict_set_Forall {V} (Q : string -> Prop) (d : list (string * V))
    (key : string) (v : V) :
  Forall (fun kv => Q (fst kv)) d -> Q key ->
  Forall (fun kv => Q (fst kv)) (dict_set d key v).
Proof.
  intros Hd Hkey. induction Hd as [|[k0 v0] d Hk0 Hd IH]; cbn [dict_set].
  - now constructor.
  - cbn [fst] in Hk0. destruct (String.eqb k0 key); constructor; cbn [fst]; auto.
Qed.

Lemma fuse_wf_step (scores : list (string * float)) (chunk_map : list (string * Chunk))
    (c : Chunk) (v : float) :
  fuse_wf (scores, chunk_map) ->
  fuse_wf (dict_set scores (ck_chunk_id c) v, dict_set chunk_map (ck_chunk_id c) c).
Proof.
  unfold fuse_wf. cbn [fst snd]. intros Hwf.
  apply (dict_set_Forall
           (fun key => exists c', dict_get (dict_set chunk_map (ck_chunk_id c) c) key = Some c'
                                  /\ ck_chunk_id c' = key)).
  - eapply Forall_impl; [exact Hwf |]. intros [key v0]. cbn [fst].
    intros (c' & Hc' & Hid). destruct (string_dec (ck_chunk_id c) key) as [<- | Hne].
    + exists c. now rewrite dict_get_set_eq.
    + exists c'. now rewrite dict_get_set_ne.
  - exists c. now rewrite dict_get_set_eq.
Qed.

Lemma rrf_accumulate_wf (k : Z) (l : list Scored) :
  forall rank st, fuse_wf st -> fuse_wf (rrf_accumulate k rank l st).
Proof.
  induction l as [|[c sc] l IH]; intros rank [scores chunk_map] Hwf; [exact Hwf |].
  cbn [rrf_accumulate]. apply IH. now apply fuse_wf_step.
Qed.

Lemma rrf_fold_wf (k : Z) (ranked_lists : list (list Scored)) :
  forall st, fuse_wf st ->
    fuse_wf (fold_left (fun st ranked => rrf_accumulate k 1 (sort_desc ranked) st)
                       ranked_lists st).
Proof.
  induction ranked_lists as [|r rs IH]; intros st Hwf; [exact Hwf |].
  cbn [fold_left]. apply IH. now apply rrf_accumulate_wf.
Qed.

Lemma rrf_fuse_unfold (ranked_lists : list (list Scored)) (k : Z) :
  _rrf_fuse ranked_lists k =
  fuse_output (fold_left (fun st ranked => rrf_accumulate k 1 (sort_desc ranked) st)
                         ranked_lists ([], [])).
Proof.
  unfold _rrf_fuse, fuse_output. now destruct (fold_left _ _ _).
Qed.

Lemma fuse_output_score (st : list (string * float) * list (string * Chunk)) (cid : string) :
  fuse_wf st -> fused_score cid (fuse_output st) = dict_get (fst st) cid.
Proof.
  destruct st as [scores chunk_map]. unfold fuse_wf, fuse_output, fused_score.
  cbn [fst snd]. intros Hwf.
  induction Hwf as [|[k0 v0] scores (c & Hc & Hid) _ IH]; [reflexivity |].
  cbn [fst] in Hc, Hid. cbn [omap list_omap dict_get]. rewrite Hc.
  cbn [List.find fst]. rewrite Hid.
  destruct (String.eqb k0 cid); [reflexivity | exact IH].
Qed.

Lemma fuse_output_ids (st : list (string * float) * list (string * Chunk)) :
  fuse_wf st -> ids (fuse_output st) = keys (fst st).
Proof.
  destruct st as [scores chunk_map]. unfold fuse_wf, fuse_output, ids, keys.
  cbn [fst snd]. intros Hwf.
  induction Hwf as [|[k0 v0] scores (c & Hc & Hid) _ IH]; [reflexivity |].
  cbn [fst] in Hc, Hid. cbn [omap list_omap]. rewrite Hc.
  cbn [map fst]. now rewrite Hid, IH.
Qed.

Lemma rrf_accumulate_keys_fresh (k : Z) (l : list Scored) :
  forall rank scores chunk_map,
    NoDup (ids l) ->
    (forall i, In i (ids l) -> ~ In i (keys scores)) ->
    keys (fst (rrf_accumulate k rank l (scores, chunk_map))) = keys scores ++ ids l.
Proof.
  induction l as [|[c sc] l IH]; intros rank scores chunk_map Hnd Hfresh.
  - cbn. now rewrite app_nil_r.
  - cbn [rrf_accumulate ids map fst]. fold (ids l).
    apply NoDup_cons in Hnd as [Hnotin Hnd]. cbn [fst] in Hnotin.
    assert (Hc : ~ In (ck_chunk_id c) (keys scores)) by (apply Hfresh; now left).
    rewrite IH; [| assumption |].
    + rewrite (dict_set_keys_fresh _ _ _ Hc), <- app_assoc. reflexivity.
    + intros i Hi. rewrite (dict_set_keys_fresh _ _ _ Hc), in_app_iff.
      intros [Hin | [<- | []]].
      * apply (Hfresh i); [now right | assumption].
      * apply Hnotin. now apply list_elem_of_In.
Qed.

Lemma rrf_accumulate_keys_known (k : Z) (l : list Scored) :
  forall rank scores chunk_map,
    (forall i, In i (ids l) -> In i (keys scores)) ->
    keys (fst (rrf_accumulate k rank l (scores, chunk_map))) = keys scores.
Proof.
  induction l as [|[c sc] l IH]; intros rank scores chunk_map Hknown; [reflexivity |].
  cbn [rrf_accumulate].
  assert (Hc : In (ck_chunk_id c) (keys scores)) by (apply Hknown; now left).
  rewrite IH; [now apply dict_set_keys_in |].
  intros i Hi. rewrite (dict_set_keys_in _ _ _ Hc). apply Hknown. now right.
Qed.

Lemma ids_sort_desc_Permutation (l : list Scored) : Permutation (ids (sort_desc l)) (ids l).
Proof. unfold ids. apply Permutation_map, sort_desc_Permutation. Qed.

Lemma fuse_wf_empty : fuse_wf ([], []).
Proof. constructor. Qed.

(** The fused list of two rankings of the same chunks lists them in the
    descending order of the first ranking. *)
Lemma rrf_fuse_order (l1 l2 : list Scored) (k : Z) :
  NoDup (ids l1) ->
  (forall i, In i (ids l2) -> In i (ids l1)) ->
  ids (_rrf_fuse [l1; l2] k) = ids (sort_desc l1).
Proof.
  intros Hnd Hsub. rewrite rrf_fuse_unfold. cbn [fold_left].
  rewrite fuse_output_ids by (do 2 apply rrf_accumulate_wf; apply fuse_wf_empty).
  assert (H1 : keys (fst (rrf_accumulate k 1 (sort_desc l1) ([], []))) = ids (sort_desc l1)).
  { rewrite rrf_accumulate_keys_fresh; [reflexivity | | auto].
    now rewrite ids_sort_desc_Permutation. }
  destruct (rrf_accumulate k 1 (sort_desc l1) ([], [])) as [scores1 map1] eqn:Hst.
  cbn [fst] in H1. rewrite rrf_accumulate_keys_known; [exact H1 |].
  intros i Hi. rewrite H1.
  apply (Permutation_in _ (Permutation_sym (ids_sort_desc_Permutation l1))).
  apply Hsub. apply (Permutation_in _ (ids_sort_desc_Permutation l2)). exact Hi.
Qed.

Lemma rrf_term_zero (k rank : Z) : fadd (lit 0) (rrf_term k rank) = rrf_term k rank.
Proof. unfold rrf_term. apply fadd_zero_l. Qed.

(** The fused score of a chunk: one term per list that ranks it. *)
Lemma rrf_fuse_two_lists (l1 l2 : list Scored) (k : Z) (cid : string) :
  NoDup (ids l1) -> NoDup (ids l2) ->
  fused_score cid (_rrf_fuse [l1; l2] k) =
    match rank_of cid l1, rank_of cid l2 with
    | Some r1, Some r2 => Some (fadd (rrf_term k r1) (rrf_term k r2))
    | Some r1, None => Some (rrf_term k r1)
    | None, Some r2 => Some (rrf_term k r2)
    | None, None => None
    end.
Proof.
  intros Hnd1 Hnd2. rewrite rrf_fuse_unfold. cbn [fold_left].
  rewrite fuse_output_score by (do 2 apply rrf_accumulate_wf; apply fuse_wf_empty).
  assert (Hs1 : NoDup (ids (sort_desc l1))) by now rewrite ids_sort_desc_Permutation.
  assert (Hs2 : NoDup (ids (sort_desc l2))) by now rewrite ids_sort_desc_Permutation.
  pose proof (rrf_accumulate_get k cid (sort_desc l1) 1 [] [] Hs1) as H1.
  destruct (rrf_accumulate k 1 (sort_desc l1) ([], [])) as [scores1 map1].
  cbn [fst] in H1.
  rewrite (rrf_accumulate_get _ _ _ _ _ _ Hs2).
  unfold rank_of. rewrite H1.
  destruct (index_of cid (ids (sort_desc l1))) as [i|],
           (index_of cid (ids (sort_desc l2))) as [j|]; cbn; try reflexivity.
  - now rewrite rrf_term_zero.
  - now rewrite rrf_term_zero.
  - now rewrite rrf_term_zero.
Qed.

Lemma rank_of_Some (cid : string) (ranked : list Scored) :
  In cid (ids ranked) -> exists r, rank_of cid ranked = Some r /\ 1 <= r.
Proof.
  intros Hin. unfold rank_of.
  destruct (index_of cid (ids (sort_desc ranked))) as [i|] eqn:Hi.
  - exists (1 + Z.of_nat i). split; [reflexivity | lia].
  - exfalso. apply index_of_None in Hi. apply Hi.
    apply (Permutation_in _ (Permutation_sym (ids_sort_desc_Permutation ranked))).
    exact Hin.
Qed.

Lemma ids_bm25 (chunks : list Chunk) (query : string) (k1 b : float) :
  ids (_bm25_score chunks query k1 b) = map ck_chunk_id chunks.
Proof.
  unfold ids. rewrite <- (bm25_score_chunks chunks query k1 b) at 2.
  now rewrite map_map.
Qed.

Lemma ids_vector (chunks : list Chunk) (query : string) :
  ids (_vector_score chunks query) = map ck_chunk_id chunks.
Proof.
  unfold ids. rewrite <- (vector_score_chunks chunks query) at 2.
  now rewrite map_map.
Qed.

Lemma scored_by_nil (query strategy : string) : scored_by [] query strategy = [].
Proof.
  unfold scored_by, _bm25_score, _vector_score.
  destruct (String.eqb strategy "bm25"); [now destruct (terms_of query) |].
  destruct (String.eqb strategy "vector"); [reflexivity |].
  now destruct (terms_of query).
Qed.

Lemma retrieve_results_kept (chunks : list Chunk) (query : string) (top_k : Z)
    (strategy : string) :
  0 <= top_k ->
  retrieve_results chunks query top_k strategy
  = map result_of
      (take (Z.to_nat top_k)
            (List.filter positive (sort_desc (scored_by chunks query strategy)))).
Proof.
  intros Hk. destruct chunks as [|c chunks].
  - rewrite scored_by_nil. cbn. now rewrite take_nil.
  - unfold retrieve_results.
    rewrite (py_slice_to_nonneg _ _ Hk), collect_results_filter.
    now rewrite filter_take_sorted by apply sort_desc_StronglySorted.
Qed.

(** [retrieve] returns the results computed on the chunks of the store. *)
Lemma retrieve_returns (query : string) (top_k : Z) (strategy : string)
    (store : KnowledgeStore) (w : World) :
  fst (retrieve query top_k strategy (store, w))
  = Ok {| resp_query := query;
          resp_results := retrieve_results (_chunks store) query top_k strategy;
          resp_strategy := strategy |}.
Proof.
  unfold retrieve, bind, get. cbn [fst snd].
  destruct (_chunks store) as [|c chunks]; reflexivity.
Qed.

(** C4, as amended.  For [0 <= top_k], the results of [retrieve] are the
    scored pairs sorted in descending order, those with a score [<= 0]
    removed, then cut to [top_k].  The pairs kept that tie at a score are
    the first ones of the list that was sorted, in the order of that list:
    for [bm25] and [vector] this list follows the store, so ties are in
    insertion order; for [hybrid] (chunk identifiers distinct) it follows
    the descending BM25 ranking, so ties are in BM25 rank order. *)
Theorem retrieve_filter_truncate_ties (chunks : list Chunk) (query : string)
    (top_k : Z) (strategy : string) :
  0 <= top_k ->
  let scored := scored_by chunks query strategy in
  let kept := take (Z.to_nat top_k) (List.filter positive (sort_desc scored)) in
  retrieve_results chunks query top_k strategy = map result_of kept
  /\ (forall (store : KnowledgeStore) (w : World),
         _chunks store = chunks ->
         fst (retrieve query top_k strategy (store, w))
         = Ok {| resp_query := query; resp_results := map result_of kept;
                 resp_strategy := strategy |})
  /\ (forall s, exists m,
         List.filter (tie s) kept = take m (List.filter (tie s) scored))
  /\ (strategy = "bm25" \/ strategy = "vector" -> map fst scored = chunks)
  /\ (strategy = "hybrid" -> NoDup (map ck_chunk_id chunks) ->
      ids scored = ids (sort_desc (_bm25_score chunks query (lit 1.5) (lit 0.75)))).
Proof.
  intros Hk scored kept. split; [now apply retrieve_results_kept |].
  split.
  { intros store w <-. rewrite retrieve_returns. now rewrite retrieve_results_kept. }
  split; [intros s; apply kept_ties_prefix |]. split.
  - subst scored. unfold scored_by. intros [-> | ->]; cbn.
    + apply bm25_score_chunks.
    + apply vector_score_chunks.
  - intros -> Hnd. subst scored. unfold scored_by. cbn.
    apply rrf_fuse_order.
    + now rewrite ids_bm25.
    + intros i. now rewrite ids_bm25, ids_vector.
Qed.

(** The scores after the inner loop of [_rrf_fuse], whatever the
    identifiers: every position that holds [cid] adds its term. *)
Lemma rrf_accumulate_get_all (k : Z) (cid : string) (l : list Scored) :
  forall (rank : Z) (scores : list (string * float)) (chunk_map : list (string * Chunk)),
    dict_get (fst (rrf_accumulate k rank l (scores, chunk_map))) cid =
      match positions_from rank cid (ids l) with
      | [] => dict_get scores cid
      | ranks => Some (add_terms k ranks (default (lit 0) (dict_get scores cid)))
      end.
Proof.
  induction l as [|[c sc] l IH]; intros rank scores chunk_map; [reflexivity |].
  cbn [rrf_accumulate ids map fst positions_from]. fold (ids l).
  rewrite IH.
  destruct (String.eqb (ck_chunk_id c) cid) eqn:Hc.
  - apply String.eqb_eq in Hc. subst cid. rewrite dict_get_set_eq.
    cbn [app default add_terms fold_left].
    now destruct (positions_from (rank + 1) (ck_chunk_id c) (ids l)).
  - apply String.eqb_neq in Hc. rewrite (dict_get_set_ne _ _ _ _ Hc). reflexivity.
Qed.

Lemma add_terms_app (k : Z) (r1 r2 : list Z) (acc : float) :
  add_terms k (r1 ++ r2) acc = add_terms k r2 (add_terms k r1 acc).
Proof. unfold add_terms. apply fold_left_app. Qed.

(** The fused score of an identifier: the sum of the terms of all its
    ranks, those of the first list and then those of the second. *)
Lemma rrf_fuse_sums (l1 l2 : list Scored) (k : Z) (cid : string) :
  fused_score cid (_rrf_fuse [l1; l2] k)
  = sum_terms k (ranks_of cid l1 ++ ranks_of cid l2).
Proof.
  rewrite rrf_fuse_unfold. cbn [fold_left].
  rewrite fuse_output_score by (do 2 apply rrf_accumulate_wf; apply fuse_wf_empty).
  pose proof (rrf_accumulate_get_all k cid (sort_desc l1) 1 [] []) as H1.
  destruct (rrf_accumulate k 1 (sort_desc l1) ([], [])) as [scores1 map1].
  cbn [fst dict_get default] in H1.
  rewrite rrf_accumulate_get_all, H1. unfold ranks_of, sum_terms.
  destruct (positions_from 1 cid (ids (sort_desc l1))) as [|r1 rs1];
    destruct (positions_from 1 cid (ids (sort_desc l2))) as [|r2 rs2];
    cbn [app default]; try reflexivity.
  - now rewrite app_nil_r.
  - change (r1 :: rs1 ++ r2 :: rs2) with ((r1 :: rs1) ++ r2 :: rs2).
    now rewrite add_terms_app.
Qed.

Lemma positions_from_absent (rank : Z) (cid : string) (l : list string) :
  occurrences cid l = 0%nat -> positions_from rank cid l = [].
Proof.
  unfold occurrences. revert rank.
  induction l as [|x l IH]; intros rank; [reflexivity |].
  cbn [count_occ positions_from]. destruct (string_dec x cid) as [-> | Hne].
  - discriminate.
  - apply String.eqb_neq in Hne. rewrite Hne. intros H. now apply IH.
Qed.

(** An identifier that a list holds at most once has its rank, the one
    [rank_of] finds, and no other. *)
Lemma positions_from_once (rank : Z) (cid : string) (l : list string) :
  (occurrences cid l <= 1)%nat ->
  positions_from rank cid l
  = match index_of cid l with
    | Some i => [rank + Z.of_nat i]
    | None => []
    end.
Proof.
  unfold occurrences. revert rank.
  induction l as [|x l IH]; intros rank; [reflexivity |].
  cbn [count_occ positions_from index_of]. destruct (string_dec x cid) as [-> | Hne].
  - rewrite String.eqb_refl. cbv beta iota. intros H.
    rewrite positions_from_absent by (unfold occurrences; lia).
    cbn [app Z.of_nat]. now rewrite Z.add_0_r.
  - apply String.eqb_neq in Hne. rewrite Hne. intros H. rewrite (IH _ H).
    destruct (index_of cid l) as [i|]; cbn [option_map app]; [| reflexivity].
    f_equal. lia.
Qed.

Lemma occurrences_sort_desc (cid : string) (l : list Scored) :
  occurrences cid (ids (sort_desc l)) = occurrences cid (ids l).
Proof.
  unfold occurrences. apply Permutation_count_occ, ids_sort_desc_Permutation.
Qed.

Lemma ranks_of_once (cid : string) (l : list Scored) :
  (occurrences cid (ids l) <= 1)%nat ->
  ranks_of cid l = match rank_of cid l with Some r => [r] | None => [] end.
Proof.
  intros H. unfold ranks_of, rank_of.
  rewrite positions_from_once by now rewrite occurrences_sort_desc.
  now destruct (index_of cid (ids (sort_desc l))).
Qed.

Lemma occurrences_In (cid : string) (l : list string) :
  (0 < occurrences cid l)%nat -> In cid l.
Proof. unfold occurrences. apply count_occ_In. Qed.

(** The fused score of an identifier that each list holds at most once:
    one term per list that ranks it. *)
Lemma rrf_fuse_once (l1 l2 : list Scored) (k : Z) (cid : string) :
  (occurrences cid (ids l1) <= 1)%nat -> (occurrences cid (ids l2) <= 1)%nat ->
  fused_score cid (_rrf_fuse [l1; l2] k) =
    match rank_of cid l1, rank_of cid l2 with
    | Some r1, Some r2 => Some (fadd (rrf_term k r1) (rrf_term k r2))
    | Some r1, None => Some (rrf_term k r1)
    | None, Some r2 => Some (rrf_term k r2)
    | None, None => None
    end.
Proof.
  intros H1 H2. rewrite rrf_fuse_sums, (ranks_of_once _ _ H1), (ranks_of_once _ _ H2).
  destruct (rank_of cid l1) as [r1|], (rank_of cid l2) as [r2|];
    cbn [app sum_terms add_terms fold_left]; try reflexivity;
    now rewrite rrf_term_zero.
Qed.

(** C6, as amended.  A chunk whose identifier no other chunk of the store
    shares, at 1-based rank [r1] in the descending BM25 order and [r2] in
    the descending vector order, has the fused score
    [1/(60+r1) + 1/(60+r2)], whatever the other identifiers are.  For any
    two lists that hold an identifier at most once each, a chunk that
    only one of them ranks gets that list's term alone.  Chunks that share
    an identifier are merged into one fused entry: for any two lists its
    score is the sum, from [0.0], of the terms [1/(60+rank)] of all the
    ranks of the identifier, those of the first list in increasing order
    and then those of the second. *)
Theorem rrf_fused_score (chunks : list Chunk) (query : string) (cid : string) :
  occurrences cid (map ck_chunk_id chunks) = 1%nat ->
  (exists r1 r2,
      rank_of cid (_bm25_score chunks query (lit 1.5) (lit 0.75)) = Some r1
      /\ rank_of cid (_vector_score chunks query) = Some r2
      /\ fused_score cid (scored_by chunks query "hybrid")
         = Some (fadd (fdiv (lit 1) (of_int (60 + r1)))
                      (fdiv (lit 1) (of_int (60 + r2)))))
  /\ (forall l1 l2 : list Scored,
         (occurrences cid (ids l1) <= 1)%nat -> (occurrences cid (ids l2) <= 1)%nat ->
         fused_score cid (_rrf_fuse [l1; l2] 60) =
           match rank_of cid l1, rank_of cid l2 with
           | Some r1, Some r2 =>
               Some (fadd (fdiv (lit 1) (of_int (60 + r1)))
                          (fdiv (lit 1) (of_int (60 + r2))))
           | Some r1, None => Some (fdiv (lit 1) (of_int (60 + r1)))
           | None, Some r2 => Some (fdiv (lit 1) (of_int (60 + r2)))
           | None, None => None
           end)
  /\ (forall (other : string) (l1 l2 : list Scored),
         fused_score other (_rrf_fuse [l1; l2] 60)
         = match ranks_of other l1 ++ ranks_of other l2 with
           | [] => None
           | ranks =>
               Some (fold_left (fun acc rank => fadd acc (fdiv (lit 1) (of_int (60 + rank))))
                               ranks (lit 0))
           end)
  /\ (forall other : string,
         fused_score other (scored_by chunks query "hybrid")
         = sum_terms 60 (ranks_of other (_bm25_score chunks query (lit 1.5) (lit 0.75))
                         ++ ranks_of other (_vector_score chunks query))).
Proof.
  intros Honce. split; [| split; [| split]].
  - assert (Hin : In cid (map ck_chunk_id chunks)) by (apply occurrences_In; lia).
    destruct (rank_of_Some cid (_bm25_score chunks query (lit 1.5) (lit 0.75)))
      as (r1 & Hr1 & _); [now rewrite ids_bm25 |].
    destruct (rank_of_Some cid (_vector_score chunks query))
      as (r2 & Hr2 & _); [now rewrite ids_vector |].
    exists r1, r2. repeat split; [assumption | assumption |].
    unfold scored_by. cbn.
    rewrite rrf_fuse_once by (rewrite ?ids_bm25, ?ids_vector; lia).
    now rewrite Hr1, Hr2.
  - intros l1 l2 H1 H2. now rewrite rrf_fuse_once.
  - intros other l1 l2. rewrite rrf_fuse_sums. unfold sum_terms.
    now destruct (ranks_of other l1 ++ ranks_of other l2).
  - intros other. unfold scored_by. cbn. apply rrf_fuse_sums.
Qed.

End RetrieveProofs.

(** ** The learning loop *)

Section FeedbackProofs.
Context {F : PyFloat} {RE : PyRegex} {RT : Runtime}.

Lemma emit_adjustment_effect (trigger adjustment_type description : string)
    (parameters : list (string * Json)) (loop : LearningLoop) (w : World) :
  exists adj w',
    emit_adjustment trigger adjustment_type description parameters (loop, w)
    = (Ok tt, ({| _feedback := _feedback loop;
                  _adjustments := _adjustments loop ++ [adj];
                  _mistake_counts := _mistake_counts loop |}, w'))
    /\ adjustment_summary adj = (adjustment_type, parameters)
    /\ la_trigger_feedback_id adj = trigger.
Proof.
  cbv [emit_adjustment bind store_log fresh_id fresh_time modify AuditLogger_log
       AuditLogger_append ret fst snd _feedback _adjustments _mistake_counts].
  eexists. eexists. split; [reflexivity |]. split; reflexivity.
Qed.

(** [_check_for_adjustments] looks at the counters only. *)
Lemma check_for_adjustments_effect (feedback : FeedbackRecord) (loop : LearningLoop)
    (w : World) :
  exists loop' w',
    _check_for_adjustments feedback (loop, w) = (Ok tt, (loop', w'))
    /\ _feedback loop' = _feedback loop
    /\ _mistake_counts loop' = _mistake_counts loop
    /\ map adjustment_summary (_adjustments loop')
       = map adjustment_summary (_adjustments loop)
         ++ adjustments_due (_mistake_counts loop).
Proof.
  unfold _check_for_adjustments, adjustments_due.
  unfold bind at 1. unfold get. cbn [fst snd].
  set (h := count_of (_mistake_counts loop) "hallucination").
  set (i := count_of (_mistake_counts loop) "incorrect").
  unfold bind.
  destruct ((0 <? h) && (h mod 3 =? 0)).
  - destruct (emit_adjustment_effect (fb_feedback_id feedback) "retrieval_weight"
                ("Increasing retrieval confidence threshold after "
                 +:+ PyStr.of_int h +:+ " hallucinations detected")
                [("min_score_threshold", JFloat (fmul (lit 0.1) (of_int (h / 3))))]
                loop w) as (adj1 & w1 & He1 & Hs1 & _).
    rewrite He1.
    destruct ((0 <? i) && (i mod 5 =? 0)).
    + match goal with |- context [emit_adjustment ?t ?ty ?d ?p (?l, ?w0)] =>
        destruct (emit_adjustment_effect t ty d p l w0) as (adj2 & w2 & He2 & Hs2 & _)
      end.
      rewrite He2. eexists. eexists. split; [reflexivity |].
      cbn [_feedback _mistake_counts _adjustments].
      repeat split. rewrite !map_app. cbn [map]. rewrite Hs1, Hs2, <- app_assoc.
      reflexivity.
    + eexists. eexists. split; [reflexivity |].
      cbn [_feedback _mistake_counts _adjustments].
      repeat split. rewrite !map_app. cbn [map]. rewrite Hs1, app_nil_r. reflexivity.
  - unfold ret at 1.
    destruct ((0 <? i) && (i mod 5 =? 0)).
    + match goal with |- context [emit_adjustment ?t ?ty ?d ?p (?l, ?w0)] =>
        destruct (emit_adjustment_effect t ty d p l w0) as (adj2 & w2 & He2 & Hs2 & _)
      end.
      rewrite He2. eexists. eexists. split; [reflexivity |].
      cbn [_feedback _mistake_counts _adjustments].
      repeat split. rewrite !map_app. cbn [map]. rewrite Hs2. reflexivity.
    + eexists. eexists. split; [reflexivity |]. destruct loop.
      repeat split. cbn. now rewrite app_nil_r.
Qed.

(** X2. [record_feedback] always returns the record; it appends the
    record, counts a mistake, and appends the adjustments due for the
    counters as they then stand, whatever the rating of the record: a
    [retrieval_weight] adjustment with parameter [0.1 * (h // 3)] when the
    count [h] of hallucinations is a positive multiple of 3, then a
    [prompt_patch] adjustment when the count of incorrect answers is a
    positive multiple of 5. *)
Theorem record_feedback_effect (feedback : FeedbackRecord) (loop : LearningLoop) (w : World) :
  exists loop' w',
    record_feedback feedback (loop, w) = (Ok feedback, (loop', w'))
    /\ _feedback loop' = _feedback loop ++ [feedback]
    /\ _mistake_counts loop' = counts_after (_mistake_counts loop) feedback
    /\ map adjustment_summary (_adjustments loop')
       = map adjustment_summary (_adjustments loop)
         ++ adjustments_due (counts_after (_mistake_counts loop) feedback).
Proof.
  unfold record_feedback.
  unfold bind at 1. unfold modify. unfold bind at 1.
  unfold store_log at 1. cbn [fst snd].
  destruct (AuditLogger_log "learning" "feedback_recorded" _ _ _ w) as [r w1] eqn:Hlog.
  assert (Hr : exists ev, r = Ok ev).
  { unfold AuditLogger_log, bind, fresh_id, fresh_time, AuditLogger_append, modify, ret
      in Hlog. injection Hlog as <- _. now eexists. }
  destruct Hr as [ev ->]. unfold bind.
  match goal with |- context [_check_for_adjustments feedback (?l, ?w0)] =>
    destruct (check_for_adjustments_effect feedback l w0)
      as (loop' & w' & Hc & Hf & Hm & Ha)
  end.
  rewrite Hc. exists loop', w'. split; [reflexivity |].
  cbn [_feedback _mistake_counts _adjustments] in Hf, Hm, Ha.
  repeat split; assumption.
Qed.

End FeedbackProofs.

(** ** The audit log *)

Section AuditMore.

Context {F : PyFloat} {RE : PyRegex} {RT : Runtime}.

Lemma AuditLogger_log_effect (layer event_type : string)
    (payload : list (string * Json)) (decision_id : option string) (actor : string)
    (w : World) :
  AuditLogger_log layer event_type payload decision_id actor w
  = (Ok (event_at w layer event_type payload decision_id actor),
     logged w (event_at w layer event_type payload decision_id actor)).
Proof. reflexivity. Qed.

Lemma sublist_List_filter {A} (P : A -> bool) (l : list A) : sublist (List.filter P l) l.
Proof.
  induction l as [|x l IH]; cbn [List.filter]; [constructor |].
  destruct (P x); [now apply sublist_skip | now apply sublist_cons].
Qed.

Lemma truthy_nonempty (s : string) : PyStr.truthy s = true <-> s <> EmptyString.
Proof. destruct s; cbn; split; congruence. Qed.

(** X19. [get_events] selects without reordering: the events returned
    are those of the log that carry the given decision identifier and
    layer, in the order in which they were logged.  A filter that is
    [None] or the empty string is not applied, so the trace of the empty
    identifier is the whole log, events without decision included, while
    the trace of any other identifier holds only events that carry it. *)
Theorem get_events_selects (w : World) (decision_id layer : option string) :
  (forall e,
      In e (get_events w decision_id layer) <->
      In e (w_events w)
      /\ (forall d, decision_id = Some d -> d <> EmptyString -> ae_decision_id e = Some d)
      /\ (forall l, layer = Some l -> l <> EmptyString -> ae_layer e = l))
  /\ sublist (get_events w decision_id layer) (w_events w)
  /\ get_events w None None = w_events w
  /\ get_decision_trace w EmptyString = w_events w
  /\ (forall d, d <> EmptyString ->
        get_decision_trace w d = List.filter (has_decision_id d) (w_events w)).
Proof.
  split; [| split; [| split; [reflexivity | split; [reflexivity |]]]].
  - intros e. unfold get_events.
    destruct decision_id as [d|], layer as [l|];
      try destruct (PyStr.truthy d) eqn:Hd; try destruct (PyStr.truthy l) eqn:Hl;
      rewrite ?filter_In; unfold has_decision_id;
      try apply truthy_nonempty in Hd; try apply truthy_nonempty in Hl;
      try (destruct d; [| discriminate Hd]); try (destruct l; [| discriminate Hl]);
      (split;
       [ intros H; repeat match goal with H : _ /\ _ |- _ => destruct H end;
         repeat split; try assumption;
         try (intros ? [= <-] ?; try contradiction;
              try (destruct (ae_decision_id e); [| discriminate]);
              try (f_equal; now apply String.eqb_eq); try now apply String.eqb_eq)
       | intros (Hin & H1 & H2);
         repeat split; try assumption;
         try (rewrite (H1 _ eq_refl) by assumption; apply String.eqb_refl);
         try (rewrite (H2 _ eq_refl) by assumption; apply String.eqb_refl) ]).
  - unfold get_events.
    destruct decision_id as [d|], layer as [l|];
      try destruct (PyStr.truthy d); try destruct (PyStr.truthy l);
      repeat (try reflexivity;
              try (etransitivity; [apply sublist_List_filter |])).
  - intros d Hd. unfold get_decision_trace, get_events.
    apply truthy_nonempty in Hd. now rewrite Hd.
Qed.

End AuditMore.

(** ** More on the policy engine *)

Section PolicyMore.

Context {F : PyFloat} {RE : PyRegex} {RT : Runtime}.

Lemma map_res_app {A B} (f : A -> Res B) (l l' : list A) :
  map_res f (l ++ l') =
    match map_res f l with
    | Raise e => Raise e
    | Ok ys => match map_res f l' with
               | Raise e => Raise e
               | Ok ys' => Ok (ys ++ ys')
               end
    end.
Proof.
  induction l as [|x l IH]; cbn [map_res app].
  - now destruct (map_res f l').
  - destruct (f x); [| reflexivity]. rewrite IH.
    destruct (map_res f l); [| reflexivity]. now destruct (map_res f l').
Qed.

Lemma any_matched_app (v : PolicyVerdict) (evs evs' : list PolicyEvaluation) :
  any_matched v (evs ++ evs') = any_matched v evs || any_matched v evs'.
Proof.
  induction evs as [|e evs IH]; cbn [any_matched app orb]; [reflexivity |].
  now destruct (pe_matched e && PolicyVerdict_eqb (pe_verdict e) v).
Qed.

Lemma evaluate_Ok_inv (self : PolicyEngine) (query : string)
    (evidence : RetrievalResponse) (context : option (gmap string string))
    (w w1 : World) (evaluations : list PolicyEvaluation) :
  evaluate self query evidence context w = (Ok evaluations, w1) ->
  map_res (evaluate_rule query evidence (default ∅ context)) (_rules self) = Ok evaluations.
Proof.
  unfold evaluate, bind, lift_res.
  destruct (map_res _ (_rules self)) as [evs|e]; [| discriminate].
  rewrite AuditLogger_log_effect. unfold ret. now intros [= <- _].
Qed.

Lemma map_res_rejected (query : string) (evidence : RetrievalResponse)
    (context : gmap string string) (rules : list PolicyRule) :
  Exists (pattern_rejected query) rules ->
  map_res (evaluate_rule query evidence context) rules = Raise re_error.
Proof.
  induction 1 as [rule rules [Hc Hnone] | rule rules _ IH]; cbn [map_res].
  - unfold evaluate_rule. rewrite (check_condition_contains _ _ _ _ Hc), Hnone. reflexivity.
  - rewrite IH. destruct (evaluate_rule query evidence context rule) as [ev|e] eqn:He;
      [reflexivity |].
    unfold evaluate_rule in He.
    destruct (_check_condition rule query evidence context) eqn:Hcc; [discriminate |].
    apply check_condition_raise_inv in Hcc as (-> & _). congruence.
Qed.

(** X9. Adding a rule never loosens a verdict: when the condition of the
    new rule can be checked, [evaluate] on the extended engine returns the
    former evaluations followed by the one of the new rule, and the
    aggregate verdict is the former one if the rule does not match, and
    the stricter of the former one and the rule's verdict if it does. *)
Theorem add_rule_tightens (self : PolicyEngine) (rule : PolicyRule) (query : string)
    (evidence : RetrievalResponse) (context : option (gmap string string))
    (w w1 : World) (evaluations : list PolicyEvaluation) (matched : bool) :
  evaluate self query evidence context w = (Ok evaluations, w1) ->
  _check_condition rule query evidence (default ∅ context) = Ok matched ->
  exists new w2,
    evaluate (add_rule self rule) query evidence context w = (Ok (evaluations ++ [new]), w2)
    /\ pe_rule new = rule /\ pe_matched new = matched
    /\ check_allowed (evaluations ++ [new])
       = if matched then stricter (check_allowed evaluations) (pr_verdict rule)
         else check_allowed evaluations.
Proof.
  intros Hev Hc. apply evaluate_Ok_inv in Hev.
  unfold evaluate, bind, lift_res. cbn [add_rule _rules].
  rewrite map_res_app, Hev. cbn [map_res]. unfold evaluate_rule at 1. rewrite Hc.
  rewrite AuditLogger_log_effect. unfold ret.
  eexists. eexists. split; [reflexivity |]. cbn [pe_rule pe_matched].
  split; [reflexivity |]. split; [reflexivity |].
  unfold check_allowed. rewrite !any_matched_app. cbn [any_matched pe_matched pe_verdict].
  destruct matched; cbn [andb].
  - destruct (pr_verdict rule); cbn [PolicyVerdict_eqb];
      destruct (any_matched DENY evaluations), (any_matched NEEDS_APPROVAL evaluations);
      reflexivity.
  - destruct (any_matched DENY evaluations), (any_matched NEEDS_APPROVAL evaluations);
      reflexivity.
Qed.

End PolicyMore.

(** ** More on the knowledge store *)

Section IndexMore.

Context {F : PyFloat} {RE : PyRegex} {RT : Runtime}.

Lemma split_text_nonempty (text : string) (max_chars : Z) : _split_text text max_chars <> [].
Proof.
  unfold _split_text. destruct (_ <=? _); [discriminate |].
  destruct (fold_left _ _ _) as [chunks current].
  destruct (if PyStr.truthy (PyStr.strip current) then chunks ++ [PyStr.strip current]
            else chunks); discriminate.
Qed.

Lemma index_sub_chunks_count (doc : DocumentIngestion) (i : Z)
    (text_block : ExtractedText) (subs : list string) (added : Z) :
  snd (index_sub_chunks doc i text_block subs added) = added + Z.of_nat (length subs)
  /\ Forall (fun c => ck_doc_id c = di_doc_id doc /\ ck_modality c = "text"
                      /\ ck_page c = et_source_page text_block)
            (fst (index_sub_chunks doc i text_block subs added)).
Proof.
  revert added. induction subs as [|s subs IH]; intros added; cbn [index_sub_chunks].
  - cbn. split; [lia | constructor].
  - specialize (IH (added + 1)).
    destruct (index_sub_chunks doc i text_block subs (added + 1)) as [chunks added'].
    cbn [fst snd length] in *. destruct IH as [-> IH]. split; [lia |].
    constructor; [| exact IH]. cbn. auto.
Qed.

Lemma index_text_blocks_count (doc : DocumentIngestion) (i : Z)
    (blocks : list ExtractedText) (added : Z) :
  snd (index_text_blocks doc i blocks added)
  = added + Z.of_nat (length (concat (map (fun tb => _split_text (et_text tb) 500) blocks)))
  /\ Forall (fun c => ck_doc_id c = di_doc_id doc /\ ck_modality c = "text")
            (fst (index_text_blocks doc i blocks added)).
Proof.
  revert i added. induction blocks as [|tb blocks IH]; intros i added;
    cbn [index_text_blocks map concat].
  - cbn. split; [lia | constructor].
  - pose proof (index_sub_chunks_count doc i tb (_split_text (et_text tb) 500) added)
      as [H1 H1'].
    destruct (index_sub_chunks doc i tb (_split_text (et_text tb) 500) added)
      as [chunks1 added1]. cbn [fst snd] in H1, H1'.
    specialize (IH (i + 1) added1).
    destruct (index_text_blocks doc (i + 1) blocks added1) as [chunks2 added2].
    cbn [fst snd] in *. destruct IH as [-> IH]. rewrite H1, length_app. split; [lia |].
    apply Forall_app. split; [| exact IH].
    eapply Forall_impl; [exact H1' |]. intros c (? & ? & _). auto.
Qed.

Lemma index_images_count (doc : DocumentIngestion) (images : list ExtractedImage)
    (added : Z) :
  snd (index_images doc images added)
  = added + Z.of_nat (length (List.filter (fun img => PyStr.truthy (ei_description img))
                                          images))
  /\ map ck_text (fst (index_images doc images added))
     = map ei_description
           (List.filter (fun img => PyStr.truthy (ei_description img)) images)
  /\ Forall (fun c => ck_doc_id c = di_doc_id doc /\ ck_modality c = "image")
            (fst (index_images doc images added)).
Proof.
  revert added. induction images as [|img images IH]; intros added;
    cbn [index_images List.filter].
  - cbn. split; [lia |]. split; [reflexivity | constructor].
  - destruct (PyStr.truthy (ei_description img)).
    + specialize (IH (added + 1)).
      destruct (index_images doc images (added + 1)) as [chunks added'].
      cbn [fst snd length map] in *. destruct IH as (-> & -> & IH).
      split; [lia |]. split; [reflexivity |]. constructor; [| exact IH]. cbn. auto.
    + apply IH.
Qed.

Lemma length_concat_ge {A} (ls : list (list A)) :
  Forall (fun l => l <> []) ls -> (length ls <= length (concat ls))%nat.
Proof.
  induction 1 as [|l ls Hl _ IH]; cbn [concat length]; [lia |].
  rewrite length_app. destruct l; [congruence |]. cbn [length]. lia.
Qed.

(** *** Chunk identifiers *)

Lemma append_cancel_l (p x y : string) : p +:+ x = p +:+ y -> x = y.
Proof. induction p as [|c p IH]; cbn; [auto | intros [= H]; auto]. Qed.

Lemma split_at_separator (c : ascii) (s1 s1' s2 s2' : string) :
  lacks c s1 -> lacks c s1' ->
  s1 +:+ String c s2 = s1' +:+ String c s2' -> s1 = s1' /\ s2 = s2'.
Proof.
  revert s1'. induction s1 as [|a s1 IH]; intros [|a' s1'] H1 H1'; cbn.
  - intros [= ->]. auto.
  - intros [= <- _]. destruct H1' as [H _]. congruence.
  - intros [= -> _]. destruct H1 as [H _]. congruence.
  - intros [= <- H]. destruct H1 as [_ H1], H1' as [_ H1'].
    destruct (IH _ H1 H1' H) as [-> ->]. auto.
Qed.

Lemma string_of_uint_lacks_underscore (d : Decimal.uint) :
  lacks "_" (NilEmpty.string_of_uint d).
Proof. induction d; cbn; auto; split; auto; discriminate. Qed.

Lemma of_int_lacks_underscore (n : Z) : lacks "_" (PyStr.of_int n).
Proof.
  unfold PyStr.of_int, NilZero.string_of_int, NilZero.string_of_uint.
  destruct (Z.to_int n) as [d | d]; destruct d; cbn; repeat split;
    try discriminate; apply string_of_uint_lacks_underscore.
Qed.

Lemma of_int_inj (n n' : Z) : PyStr.of_int n = PyStr.of_int n' -> n = n'.
Proof.
  unfold PyStr.of_int. intros H. apply DecimalZ.to_int_inj.
  assert (Hnn : forall z, Z.to_int z <> Decimal.Pos Decimal.Nil
                          /\ Z.to_int z <> Decimal.Neg Decimal.Nil).
  { intros [|p|p]; cbn; split; try discriminate;
      intros [= Hp]; now apply DecimalPos.Unsigned.to_uint_nonnil in Hp. }
  destruct (Hnn n) as [H1 H2], (Hnn n') as [H1' H2'].
  pose proof (NilZero.isi _ H1 H2) as E. pose proof (NilZero.isi _ H1' H2') as E'.
  rewrite H in E. rewrite E in E'. now injection E'.
Qed.

(** X11. [index_document] only appends: the chunks already stored stay
    in place, and the new ones hold, in order, the segments of the text
    blocks and then the descriptions of the images that have one.  The
    count returned is their number; it is at least the number of text
    blocks, images without description add nothing, and every new chunk
    carries the identifier of the document.  The identifier is recorded
    and one [document_indexed] event is logged with the count. *)
Theorem index_document_appends (doc : DocumentIngestion) (store : KnowledgeStore)
    (w : World) :
  exists added new_chunks e,
    index_document doc (store, w)
    = (Ok added,
       ({| _chunks := _chunks store ++ new_chunks;
           _doc_ids := {[ di_doc_id doc ]} ∪ _doc_ids store |}, logged w e))
    /\ map ck_text new_chunks
       = text_segments doc ++ map ei_description (described_images doc)
    /\ added = Z.of_nat (length new_chunks)
    /\ Z.of_nat (length (di_texts doc)) <= added
    /\ Forall (fun c => ck_doc_id c = di_doc_id doc) new_chunks
    /\ ae_event_type e = "document_indexed"
    /\ ae_payload e = [("doc_id", JStr (di_doc_id doc)); ("chunks_added", JInt added)].
Proof.
  unfold index_document, indexed_chunks.
  pose proof (index_text_blocks_count doc 0 (di_texts doc) 0) as [Ht Ht'].
  pose proof (index_text_blocks_texts doc 0 (di_texts doc) 0) as Htx.
  destruct (index_text_blocks doc 0 (di_texts doc) 0) as [text_chunks added1].
  cbn [fst snd] in Ht, Ht', Htx.
  pose proof (index_images_count doc (di_images doc) added1) as (Hi & Hix & Hi').
  destruct (index_images doc (di_images doc) added1) as [image_chunks added2].
  cbn [fst snd] in Hi, Hix, Hi'.
  unfold bind, modify, store_log. cbn [fst snd]. rewrite AuditLogger_log_effect.
  unfold ret. eexists. eexists. eexists. split; [reflexivity |].
  assert (Hlen : length text_chunks = length (text_segments doc)).
  { unfold text_segments. rewrite <- Htx. now rewrite length_map. }
  assert (Hlen' : length image_chunks = length (described_images doc)).
  { unfold described_images.
    rewrite <- (length_map ei_description), <- Hix. now rewrite length_map. }
  split; [rewrite map_app, Htx, Hix; reflexivity |].
  split.
  { rewrite Hi, Ht, length_app, Hlen, Hlen'. unfold text_segments, described_images. lia. }
  split.
  { rewrite Hi, Ht.
    assert (length (di_texts doc)
            <= length (concat (map (fun tb => _split_text (et_text tb) 500)
                                   (di_texts doc))))%nat.
    { rewrite <- (length_map (fun tb => _split_text (et_text tb) 500)) at 1.
      apply length_concat_ge. apply Forall_forall. intros l Hl.
      apply list_elem_of_In, in_map_iff in Hl as (tb & <- & _).
      apply split_text_nonempty. }
    lia. }
  split.
  { apply Forall_app. split; (eapply Forall_impl; [eassumption |]); intros c [? _]; auto. }
  split; reflexivity.
Qed.

Lemma text_chunk_id_inj (doc : DocumentIngestion) (i a i' a' : Z) :
  text_chunk_id doc i a = text_chunk_id doc i' a' -> i = i' /\ a = a'.
Proof.
  unfold text_chunk_id. intros H. apply append_cancel_l in H.
  cbn [String.append] in H. injection H as H.
  apply split_at_separator in H as [Hi Ha]; try apply of_int_lacks_underscore.
  split; now apply of_int_inj.
Qed.

Lemma index_sub_chunks_ids (doc : DocumentIngestion) (i : Z) (text_block : ExtractedText)
    (subs : list string) (added : Z) :
  Forall (fun c => exists a,
              added <= a < snd (index_sub_chunks doc i text_block subs added)
              /\ ck_chunk_id c = text_chunk_id doc i a)
         (fst (index_sub_chunks doc i text_block subs added))
  /\ NoDup (map ck_chunk_id (fst (index_sub_chunks doc i text_block subs added))).
Proof.
  revert added. induction subs as [|s subs IH]; intros added; cbn [index_sub_chunks].
  - cbn. split; constructor.
  - specialize (IH (added + 1)).
    pose proof (index_sub_chunks_count doc i text_block subs (added + 1)) as [Hc _].
    destruct (index_sub_chunks doc i text_block subs (added + 1)) as [chunks added'].
    cbn [fst snd map] in *. destruct IH as [IH1 IH2]. split.
    + constructor.
      * exists added. split; [lia | reflexivity].
      * eapply Forall_impl; [exact IH1 |]. intros c (a & Ha & Hid).
        exists a. split; [lia | exact Hid].
    + apply NoDup_cons. split; [| exact IH2].
      intros Hin. apply list_elem_of_In, in_map_iff in Hin as (c & Hid & Hc').
      rewrite Forall_forall in IH1.
      destruct (IH1 c) as (a & Ha & Hid'); [now apply list_elem_of_In |].
      cbn [ck_chunk_id] in Hid. fold (text_chunk_id doc i added) in Hid.
      rewrite Hid' in Hid. apply text_chunk_id_inj in Hid as [_ Hid]. lia.
Qed.

Lemma index_text_blocks_ids (doc : DocumentIngestion) (i : Z)
    (blocks : list ExtractedText) (added : Z) :
  Forall (fun c => exists i' a,
              added <= a < snd (index_text_blocks doc i blocks added)
              /\ ck_chunk_id c = text_chunk_id doc i' a)
         (fst (index_text_blocks doc i blocks added))
  /\ NoDup (map ck_chunk_id (fst (index_text_blocks doc i blocks added))).
Proof.
  revert i added. induction blocks as [|tb blocks IH]; intros i added;
    cbn [index_text_blocks].
  - cbn. split; constructor.
  - pose proof (index_sub_chunks_ids doc i tb (_split_text (et_text tb) 500) added)
      as [H1 H1'].
    pose proof (index_sub_chunks_count doc i tb (_split_text (et_text tb) 500) added)
      as [Hc1 _].
    destruct (index_sub_chunks doc i tb (_split_text (et_text tb) 500) added)
      as [chunks1 added1]. cbn [fst snd] in H1, H1', Hc1.
    specialize (IH (i + 1) added1).
    pose proof (index_text_blocks_count doc (i + 1) blocks added1) as [Hc2 _].
    destruct (index_text_blocks doc (i + 1) blocks added1) as [chunks2 added2].
    cbn [fst snd] in *. destruct IH as [H2 H2']. split.
    + apply Forall_app. split.
      * eapply Forall_impl; [exact H1 |]. intros c (a & Ha & Hid).
        exists i, a. split; [lia | exact Hid].
      * eapply Forall_impl; [exact H2 |]. intros c (i' & a & Ha & Hid).
        exists i', a. split; [lia | exact Hid].
    + rewrite map_app. apply NoDup_app. split; [exact H1' |]. split; [| exact H2'].
      intros x Hx1 Hx2.
      apply list_elem_of_In, in_map_iff in Hx1 as (c1 & <- & Hc1').
      apply list_elem_of_In, in_map_iff in Hx2 as (c2 & Heq & Hc2').
      rewrite Forall_forall in H1, H2.
      destruct (H1 c1) as (a1 & Ha1 & Hid1); [now apply list_elem_of_In |].
      destruct (H2 c2) as (i2 & a2 & Ha2 & Hid2); [now apply list_elem_of_In |].
      rewrite Hid1, Hid2 in Heq. apply text_chunk_id_inj in Heq as [_ Heq]. lia.
Qed.

Lemma index_images_ids (doc : DocumentIngestion) (images : list ExtractedImage)
    (added : Z) :
  map ck_chunk_id (fst (index_images doc images added))
  = map (fun img => di_doc_id doc +:+ "_img_" +:+ ei_image_id img)
        (List.filter (fun img => PyStr.truthy (ei_description img)) images).
Proof.
  revert added. induction images as [|img images IH]; intros added;
    cbn [index_images List.filter]; [reflexivity |].
  destruct (PyStr.truthy (ei_description img)); [| apply IH].
  specialize (IH (added + 1)).
  destruct (index_images doc images (added + 1)) as [chunks added'].
  cbn [fst map ck_chunk_id] in *. now rewrite IH.
Qed.

Lemma NoDup_map_inj {A} (f : A -> string) (l : list A) :
  (forall x y, f x = f y -> x = y) -> NoDup l -> NoDup (map f l).
Proof.
  intros Hinj. induction 1 as [|x l Hx Hl IH]; cbn [map]; [constructor |].
  apply NoDup_cons. split; [| exact IH].
  intros Hin. apply list_elem_of_In, in_map_iff in Hin as (y & Hy & Hin).
  apply Hinj in Hy. subst y. apply Hx. now apply list_elem_of_In.
Qed.

(** X24. Within one document chunk identifiers do not collide: the text
    chunks [index_document] adds for a document have pairwise distinct
    identifiers, whatever the document identifier and the texts, because
    each carries the running count; with the images that have a
    description, all the new identifiers are distinct as soon as the
    identifiers of these images are.  A store that holds one document
    therefore has distinct chunk identifiers. *)
Theorem index_document_distinct_ids (doc : DocumentIngestion) :
  NoDup (map ck_chunk_id (fst (index_text_blocks doc 0 (di_texts doc) 0)))
  /\ (NoDup (map ei_image_id (described_images doc)) ->
      NoDup (map ck_chunk_id (fst (indexed_chunks doc)))
      /\ forall w : World,
           NoDup (map ck_chunk_id
                      (_chunks (fst (snd (index_document doc
                                            ({| _chunks := []; _doc_ids := ∅ |}, w))))))).
Proof.
  pose proof (index_text_blocks_ids doc 0 (di_texts doc) 0) as [Ht Ht'].
  split; [exact Ht' |]. intros Himg.
  assert (Hall : NoDup (map ck_chunk_id (fst (indexed_chunks doc)))).
  { unfold indexed_chunks.
    destruct (index_text_blocks doc 0 (di_texts doc) 0) as [text_chunks added1].
    cbn [fst snd] in Ht, Ht'.
    pose proof (index_images_ids doc (di_images doc) added1) as Hi.
    destruct (index_images doc (di_images doc) added1) as [image_chunks added2].
    cbn [fst] in *. rewrite map_app, Hi. apply NoDup_app. split; [exact Ht' |]. split.
    - intros x Hx1 Hx2.
      apply list_elem_of_In, in_map_iff in Hx1 as (c & <- & Hc).
      apply list_elem_of_In, in_map_iff in Hx2 as (img & Heq & _).
      rewrite Forall_forall in Ht.
      destruct (Ht c) as (i & a & _ & Hid); [now apply list_elem_of_In |].
      rewrite Hid in Heq. unfold text_chunk_id in Heq.
      apply append_cancel_l in Heq. discriminate Heq.
    - fold (described_images doc).
      rewrite <- (map_map ei_image_id (fun i => di_doc_id doc +:+ "_img_" +:+ i)).
      apply NoDup_map_inj; [| exact Himg].
      intros x y H. apply append_cancel_l in H. now apply append_cancel_l in H. }
  split; [exact Hall |]. intros w.
  unfold index_document. destruct (indexed_chunks doc) as [new_chunks added].
  cbn [fst] in Hall. unfold bind, modify, store_log. cbn [fst snd].
  rewrite AuditLogger_log_effect. unfold ret. cbn [fst snd _chunks app]. exact Hall.
Qed.

End IndexMore.

Section RetrieveMore.

Context {F : PyFloat} {L : PyFloatLaws F} {SG : PyFloatSign F} {RE : PyRegex} {RT : Runtime}.

Lemma collect_results_In (top : list Scored) (r : RetrievalResult) :
  In r (collect_results top) ->
  exists c s, In (c, s) top /\ fle s (of_int 0) = false /\ r = result_of (c, s).
Proof.
  induction top as [|[c s] top IH]; cbn [collect_results]; [intros [] |].
  destruct (fle s (of_int 0)) eqn:Hs.
  - intros H. destruct (IH H) as (c' & s' & Hin & Hpos & Hr).
    exists c', s'. split; [now right | auto].
  - intros [<- | H].
    + exists c, s. split; [now left | auto].
    + destruct (IH H) as (c' & s' & Hin & Hpos & Hr).
      exists c', s'. split; [now right | auto].
Qed.

Lemma collect_results_length (top : list Scored) :
  (length (collect_results top) <= length top)%nat.
Proof.
  induction top as [|[c s] top IH]; cbn [collect_results length]; [lia |].
  destruct (fle s (of_int 0)); cbn [length]; lia.
Qed.

Lemma py_slice_to_In {A} (k : Z) (l : list A) (x : A) : In x (py_slice_to k l) -> In x l.
Proof.
  unfold py_slice_to.
  destruct (0 <=? k); intros H;
    [rewrite <- (take_drop (Z.to_nat k) l)
    | rewrite <- (take_drop (length l - Z.to_nat (- k)) l)];
    apply in_or_app; now left.
Qed.

Lemma py_slice_to_length {A} (k : Z) (l : list A) :
  (length (py_slice_to k l) <= length l)%nat
  /\ (0 <= k -> Z.of_nat (length (py_slice_to k l)) <= k).
Proof.
  unfold py_slice_to. split.
  - destruct (0 <=? k); rewrite length_take; lia.
  - intros Hk. apply Z.leb_le in Hk as Hk'. rewrite Hk', length_take. lia.
Qed.

Lemma dict_set_Forall_val {V} (Q : V -> Prop) (d : list (string * V))
    (key : string) (v : V) :
  Forall (fun kv => Q (snd kv)) d -> Q v ->
  Forall (fun kv => Q (snd kv)) (dict_set d key v).
Proof.
  intros Hd Hv. induction Hd as [|[k0 v0] d Hk0 Hd IH]; cbn [dict_set].
  - now constructor.
  - cbn [snd] in Hk0. destruct (String.eqb k0 key); constructor; cbn [snd]; auto.
Qed.

Lemma dict_get_Forall_val {V} (Q : V -> Prop) (d : list (string * V))
    (key : string) (v : V) :
  Forall (fun kv => Q (snd kv)) d -> dict_get d key = Some v -> Q v.
Proof.
  induction 1 as [|[k0 v0] d Hk0 Hd IH]; cbn [dict_get]; [discriminate |].
  destruct (String.eqb k0 key); [now intros [= <-] | exact IH].
Qed.

(** The chunks of the fused list are chunks of the lists that were fused. *)
Lemma rrf_accumulate_chunks (Q : Chunk -> Prop) (k : Z) (l : list Scored) :
  forall rank st,
    Forall (fun x => Q (fst x)) l ->
    Forall (fun kv => Q (snd kv)) (snd st) ->
    Forall (fun kv => Q (snd kv)) (snd (rrf_accumulate k rank l st)).
Proof.
  induction l as [|[c sc] l IH]; intros rank [scores chunk_map] Hl Hst; [exact Hst |].
  cbn [rrf_accumulate]. apply Forall_cons in Hl as [Hc Hl].
  apply IH; [exact Hl |]. cbn [snd]. now apply dict_set_Forall_val.
Qed.

Lemma Forall_sort_desc (Q : Scored -> Prop) (l : list Scored) :
  Forall Q l -> Forall Q (sort_desc l).
Proof.
  intros H. eapply Permutation_Forall; [| exact H].
  symmetry. apply sort_desc_Permutation.
Qed.

Lemma fuse_output_In (st : list (string * float) * list (string * Chunk))
    (c : Chunk) (s : float) :
  In (c, s) (fuse_output st) ->
  exists cid, In (cid, s) (fst st) /\ dict_get (snd st) cid = Some c.
Proof.
  destruct st as [scores chunk_map]. unfold fuse_output. cbn [fst snd].
  induction scores as [|[cid v] scores IH]; cbn [omap list_omap]; [intros [] |].
  destruct (dict_get chunk_map cid) as [c'|] eqn:Hc.
  - intros [[= <- <-] | H].
    + exists cid. split; [now left | exact Hc].
    + destruct (IH H) as (cid' & Hin & Hg). exists cid'. split; [now right | exact Hg].
  - intros H. destruct (IH H) as (cid' & Hin & Hg). exists cid'. split; [now right | exact Hg].
Qed.

Lemma rrf_fuse_chunks (Q : Chunk -> Prop) (l1 l2 : list Scored) (k : Z)
    (c : Chunk) (s : float) :
  Forall (fun x => Q (fst x)) l1 -> Forall (fun x => Q (fst x)) l2 ->
  In (c, s) (_rrf_fuse [l1; l2] k) -> Q c.
Proof.
  intros H1 H2. rewrite rrf_fuse_unfold. cbn [fold_left]. intros Hin.
  apply fuse_output_In in Hin as (cid & _ & Hg).
  eapply dict_get_Forall_val; [| exact Hg].
  apply rrf_accumulate_chunks; [now apply Forall_sort_desc |].
  apply rrf_accumulate_chunks; [now apply Forall_sort_desc | constructor].
Qed.

Lemma Forall_fst_chunks (l : list Scored) (chunks : list Chunk) :
  map fst l = chunks -> Forall (fun x => In (fst x) chunks) l.
Proof.
  intros <-. apply Forall_forall. intros x Hx. apply in_map. now apply list_elem_of_In.
Qed.

(** Every scored pair is about a chunk of the store. *)
Lemma scored_by_chunks (chunks : list Chunk) (query strategy : string)
    (c : Chunk) (s : float) :
  In (c, s) (scored_by chunks query strategy) -> In c chunks.
Proof.
  pose proof (Forall_fst_chunks _ _ (bm25_score_chunks chunks query (lit 1.5) (lit 0.75)))
    as Hb.
  pose proof (Forall_fst_chunks _ _ (vector_score_chunks chunks query)) as Hv.
  unfold scored_by. destruct (String.eqb strategy "bm25").
  - intros Hin. rewrite Forall_forall in Hb. apply (Hb (c, s)). now apply list_elem_of_In.
  - destruct (String.eqb strategy "vector").
    + intros Hin. rewrite Forall_forall in Hv. apply (Hv (c, s)). now apply list_elem_of_In.
    + intros Hin.
      exact (rrf_fuse_chunks (fun c => In c chunks) _ _ _ c s Hb Hv Hin).
Qed.

(** The keys of a dictionary stay distinct. *)
Lemma dict_set_keys_NoDup {V} (d : list (string * V)) (key : string) (v : V) :
  NoDup (keys d) -> NoDup (keys (dict_set d key v)).
Proof.
  intros Hnd. destruct (in_dec string_dec key (keys d)) as [Hin | Hout].
  - now rewrite dict_set_keys_in.
  - rewrite dict_set_keys_fresh by assumption.
    apply NoDup_app. split; [exact Hnd |]. split.
    + intros x Hx [<- | []]%list_elem_of_In. apply Hout. now apply list_elem_of_In.
    + apply NoDup_singleton.
Qed.

Lemma dict_set_keys_incl {V} (d : list (string * V)) (key : string) (v : V)
    (allowed : list string) :
  incl (keys d) allowed -> In key allowed -> incl (keys (dict_set d key v)) allowed.
Proof.
  intros Hd Hk. destruct (in_dec string_dec key (keys d)) as [Hin | Hout].
  - now rewrite dict_set_keys_in.
  - rewrite dict_set_keys_fresh by assumption. intros x [Hx | [<- | []]]%in_app_iff; auto.
Qed.

Lemma rrf_accumulate_keys (k : Z) (l : list Scored) (allowed : list string) :
  forall rank st,
    incl (ids l) allowed ->
    NoDup (keys (fst st)) -> incl (keys (fst st)) allowed ->
    NoDup (keys (fst (rrf_accumulate k rank l st)))
    /\ incl (keys (fst (rrf_accumulate k rank l st))) allowed.
Proof.
  induction l as [|[c sc] l IH]; intros rank [scores chunk_map] Hl Hnd Hincl; [auto |].
  cbn [rrf_accumulate]. cbn [fst] in Hnd, Hincl. apply IH.
  - intros x Hx. apply Hl. now right.
  - cbn [fst]. now apply dict_set_keys_NoDup.
  - cbn [fst]. apply dict_set_keys_incl; [exact Hincl |]. apply Hl. now left.
Qed.

Lemma fuse_output_length (st : list (string * float) * list (string * Chunk)) :
  (length (fuse_output st) <= length (keys (fst st)))%nat.
Proof.
  destruct st as [scores chunk_map]. unfold fuse_output, keys. cbn [fst snd].
  rewrite length_map.
  induction scores as [|[cid v] scores IH]; cbn [omap list_omap length]; [lia |].
  destruct (dict_get chunk_map cid); cbn [length]; lia.
Qed.

Lemma incl_ids_sort_desc (l : list Scored) (allowed : list string) :
  incl (ids l) allowed -> incl (ids (sort_desc l)) allowed.
Proof.
  intros H x Hx. apply H.
  apply (Permutation_in _ (ids_sort_desc_Permutation l)). exact Hx.
Qed.

Lemma scored_by_length (chunks : list Chunk) (query strategy : string) :
  (length (scored_by chunks query strategy) <= length chunks)%nat.
Proof.
  unfold scored_by. destruct (String.eqb strategy "bm25").
  { rewrite <- (bm25_score_chunks chunks query (lit 1.5) (lit 0.75)) at 2.
    now rewrite length_map. }
  destruct (String.eqb strategy "vector").
  { rewrite <- (vector_score_chunks chunks query) at 2. now rewrite length_map. }
  rewrite rrf_fuse_unfold. cbn [fold_left].
  etransitivity; [apply fuse_output_length |].
  set (allowed := map ck_chunk_id chunks).
  assert (H1 : incl (ids (sort_desc (_bm25_score chunks query (lit 1.5) (lit 0.75))))
                    allowed).
  { apply incl_ids_sort_desc. rewrite ids_bm25. apply incl_refl. }
  assert (H2 : incl (ids (sort_desc (_vector_score chunks query))) allowed).
  { apply incl_ids_sort_desc. rewrite ids_vector. apply incl_refl. }
  destruct (rrf_accumulate_keys 60 _ allowed 1 ([], []) H1) as [Hnd Hincl];
    [constructor | intros x [] |].
  destruct (rrf_accumulate_keys 60 _ allowed 1 _ H2 Hnd Hincl) as [Hnd' Hincl'].
  rewrite <- (length_map ck_chunk_id chunks). fold allowed.
  apply NoDup_incl_length; [| exact Hincl'].
  apply NoDup_ListNoDup. exact Hnd'.
Qed.

(** X12. [retrieve] invents nothing and changes nothing: for every
    strategy and every [top_k] it returns, and each result is built from
    a chunk of the store whose score is positive, with the chunk's text
    and one citation of the chunk's document and page.  There are no more
    results than chunks, and no more than [top_k] when [0 <= top_k].  The
    store is unchanged; one [retrieval] event is logged, none when the
    store is empty. *)
Theorem retrieve_grounded (query : string) (top_k : Z) (strategy : string)
    (store : KnowledgeStore) (w : World) :
  exists results w',
    retrieve query top_k strategy (store, w)
    = (Ok {| resp_query := query; resp_results := results; resp_strategy := strategy |},
       (store, w'))
    /\ Forall (fun r => exists c s,
                   In c (_chunks store) /\ fle s (of_int 0) = false
                   /\ r = result_of (c, s)
                   /\ rr_chunk_id r = ck_chunk_id c /\ rr_text r = ck_text c
                   /\ map cit_doc_id (rr_citations r) = [ck_doc_id c]
                   /\ map cit_page (rr_citations r) = [ck_page c])
              results
    /\ (length results <= length (_chunks store))%nat
    /\ (0 <= top_k -> Z.of_nat (length results) <= top_k)
    /\ (_chunks store = [] -> results = [] /\ w' = w)
    /\ (_chunks store <> [] ->
        exists e, w' = logged w e /\ ae_layer e = "knowledge"
                  /\ ae_event_type e = "retrieval").
Proof.
  exists (retrieve_results (_chunks store) query top_k strategy).
  assert (Hres : Forall (fun r => exists c s,
                   In c (_chunks store) /\ fle s (of_int 0) = false
                   /\ r = result_of (c, s)
                   /\ rr_chunk_id r = ck_chunk_id c /\ rr_text r = ck_text c
                   /\ map cit_doc_id (rr_citations r) = [ck_doc_id c]
                   /\ map cit_page (rr_citations r) = [ck_page c])
              (retrieve_results (_chunks store) query top_k strategy)).
  { apply Forall_forall. intros r Hr. apply list_elem_of_In in Hr.
    unfold retrieve_results in Hr. destruct (_chunks store) as [|c0 chunks] eqn:Hch;
      [destruct Hr |].
    apply collect_results_In in Hr as (c & s & Hin & Hpos & ->).
    exists c, s. split.
    { apply py_slice_to_In in Hin.
      apply (Permutation_in _ (sort_desc_Permutation _)) in Hin.
      now apply scored_by_chunks in Hin. }
    split; [exact Hpos |]. repeat split. }
  assert (Hlen : (length (retrieve_results (_chunks store) query top_k strategy)
                  <= length (_chunks store))%nat
                 /\ (0 <= top_k ->
                     Z.of_nat (length (retrieve_results (_chunks store) query top_k strategy))
                     <= top_k)).
  { unfold retrieve_results. destruct (_chunks store) as [|c0 chunks] eqn:Hch.
    - cbn [length]. split; [lia |]. intros; cbn; lia.
    - pose proof (collect_results_length
                    (py_slice_to top_k (sort_desc (scored_by (c0 :: chunks) query strategy))))
        as H1.
      pose proof (py_slice_to_length top_k
                    (sort_desc (scored_by (c0 :: chunks) query strategy))) as [H2 H3].
      pose proof (Permutation_length
                    (sort_desc_Permutation (scored_by (c0 :: chunks) query strategy))) as H4.
      pose proof (scored_by_length (c0 :: chunks) query strategy) as H5.
      split; [lia |]. intros Hk. specialize (H3 Hk). lia. }
  unfold retrieve, bind, get. cbn [fst snd].
  destruct (_chunks store) as [|c0 chunks] eqn:Hch.
  - exists w. unfold ret. split; [reflexivity |]. split; [exact Hres |].
    split; [apply Hlen |]. split; [apply Hlen |]. split; [auto | congruence].
  - unfold store_log. cbn [fst snd]. rewrite AuditLogger_log_effect. unfold ret.
    eexists. split; [reflexivity |]. split; [exact Hres |].
    split; [apply Hlen |]. split; [apply Hlen |]. split; [discriminate |].
    intros _. eexists. split; [reflexivity |]. split; reflexivity.
Qed.

Lemma fold_left_unchanged {A B} (f : A -> B -> A) (l : list B) (a : A) :
  (forall x b, In b l -> f x b = x) -> fold_left f l a = a.
Proof.
  revert a. induction l as [|b l IH]; intros a H; cbn [fold_left]; [reflexivity |].
  rewrite (H a b) by now left. apply IH. intros x b' Hb'. apply H. now right.
Qed.

Lemma term_counts_absent (t : string) (l : list string) :
  ~ In t l -> count_of (term_counts_of l) t = 0.
Proof.
  unfold term_counts_of. intros Hout.
  assert (Hgen : forall m : gmap string Z,
             count_of (fold_left (fun tc x => <[x := count_of tc x + 1]> tc) l m) t
             = count_of m t).
  { induction l as [|x l IH]; intros m; cbn [fold_left]; [reflexivity |].
    rewrite IH by (intros H; apply Hout; now right).
    unfold count_of at 1 3. rewrite lookup_insert_ne; [reflexivity |].
    intros ->. apply Hout. now left. }
  rewrite Hgen. reflexivity.
Qed.

Lemma shares_term_dec (query : string) (chunk : Chunk) :
  {shares_term query chunk} + {~ shares_term query chunk}.
Proof.
  unfold shares_term.
  induction (terms_of query) as [|t ts IH].
  - right. intros (t & [] & _).
  - destruct (in_dec string_dec t (terms_of (ck_text chunk))) as [Hin | Hout].
    + left. exists t. split; [now left | exact Hin].
    + destruct IH as [IH | IH].
      * left. destruct IH as (t' & H1 & H2). exists t'. split; [now right | exact H2].
      * right. intros (t' & [<- | H1] & H2); [now apply Hout |].
        apply IH. now exists t'.
Defined.

(** A chunk without a term of the query scores [0.0] under BM25. *)
Lemma bm25_score_unrelated (chunks : list Chunk) (query : string) (k1 b : float)
    (c : Chunk) (s : float) :
  In (c, s) (_bm25_score chunks query k1 b) -> ~ shares_term query c -> s = lit 0.
Proof.
  unfold _bm25_score, shares_term. intros Hin Hno.
  destruct (terms_of query) as [|t0 ts] eqn:Hq.
  - apply in_map_iff in Hin as (c' & [= _ <-] & _). reflexivity.
  - apply in_map_iff in Hin as (c' & Heq & _).
    injection Heq as -> Hs. rewrite <- Hs.
    match goal with
    | |- fold_left ?f ts _ = _ => change (fold_left f (t0 :: ts) (lit 0) = lit 0)
    end.
    apply fold_left_unchanged. intros x t Ht.
    rewrite term_counts_absent; [reflexivity |].
    intros Hin. apply Hno. now exists t.
Qed.

(** A chunk without a term of the query scores [0.0] under the vector
    proxy. *)
Lemma vector_score_unrelated (chunks : list Chunk) (query : string)
    (c : Chunk) (s : float) :
  In (c, s) (_vector_score chunks query) -> ~ shares_term query c -> s = lit 0.
Proof.
  unfold _vector_score, shares_term. intros Hin Hno.
  apply in_map_iff in Hin as (c' & Heq & _).
  destruct ((size (list_to_set (terms_of query) : gset string) =? 0)%nat
            || (size (list_to_set (terms_of (ck_text c')) : gset string) =? 0)%nat);
    [now injection Heq as <- <- |].
  destruct (size ((list_to_set (terms_of query) : gset string)
                  ∪ list_to_set (terms_of (ck_text c'))) =? 0)%nat eqn:Hu;
    [now injection Heq as <- <- |].
  injection Heq as -> <-.
  assert (Hempty : (list_to_set (terms_of query) : gset string)
                   ∩ list_to_set (terms_of (ck_text c)) = ∅).
  { apply set_eq. intros t. rewrite elem_of_intersection, !elem_of_list_to_set.
    split; [| set_solver]. intros [H1 H2]. exfalso. apply Hno. exists t.
    split; now apply list_elem_of_In. }
  rewrite Hempty, size_empty. apply zero_ratio.
  apply Nat.eqb_neq in Hu. lia.
Qed.

(** X13. Under the [bm25] and [vector] strategies a result always has a
    term in common with the query (terms are the lower-cased words): a
    chunk that shares none scores [0.0] and is left out, for every
    [top_k].  A query without any term therefore has no result. *)
Theorem lexical_results_share_term (chunks : list Chunk) (query : string)
    (top_k : Z) (strategy : string) :
  strategy = "bm25" \/ strategy = "vector" ->
  Forall (fun r => exists c s,
              In c chunks /\ shares_term query c /\ r = result_of (c, s))
         (retrieve_results chunks query top_k strategy)
  /\ (terms_of query = [] -> retrieve_results chunks query top_k strategy = []).
Proof.
  intros Hstrategy.
  assert (Hall : Forall (fun r => exists c s,
                           In c chunks /\ shares_term query c /\ r = result_of (c, s))
                        (retrieve_results chunks query top_k strategy)).
  { apply Forall_forall. intros r Hr. apply list_elem_of_In in Hr.
    unfold retrieve_results in Hr. destruct chunks as [|c0 chunks']; [destruct Hr |].
    set (chunks := c0 :: chunks') in *.
    apply collect_results_In in Hr as (c & s & Hin & Hpos & ->).
    apply py_slice_to_In in Hin.
    apply (Permutation_in _ (sort_desc_Permutation _)) in Hin.
    exists c, s. split; [now apply scored_by_chunks in Hin |]. split; [| reflexivity].
    destruct (shares_term_dec query c) as [Hs | Hno]; [exact Hs | exfalso].
    assert (Hzero : s = lit 0).
    { destruct Hstrategy as [-> | ->].
      - change (scored_by chunks query "bm25")
          with (_bm25_score chunks query (lit 1.5) (lit 0.75)) in Hin.
        exact (bm25_score_unrelated _ _ _ _ _ _ Hin Hno).
      - change (scored_by chunks query "vector") with (_vector_score chunks query) in Hin.
        exact (vector_score_unrelated _ _ _ _ Hin Hno). }
    rewrite Hzero, zero_not_positive in Hpos. discriminate. }
  split; [exact Hall |].
  intros Hq. destruct (retrieve_results chunks query top_k strategy) as [|r rs];
    [reflexivity | exfalso].
  apply Forall_cons in Hall as [(c & s & _ & (t & Ht & _) & _) _].
  rewrite Hq in Ht. destruct Ht.
Qed.

(** Every fused score is positive. *)
Lemma rrf_accumulate_positive (k : Z) (l : list Scored) :
  forall rank st,
    0 < k + rank ->
    Forall (fun kv => fle (snd kv) (of_int 0) = false) (fst st) ->
    Forall (fun kv => fle (snd kv) (of_int 0) = false) (fst (rrf_accumulate k rank l st)).
Proof.
  induction l as [|[c sc] l IH]; intros rank [scores chunk_map] Hk Hst; [exact Hst |].
  cbn [rrf_accumulate]. apply IH; [lia |]. cbn [fst] in *.
  apply (dict_set_Forall_val (fun v => fle v (of_int 0) = false)); [exact Hst |].
  destruct (dict_get scores (ck_chunk_id c)) as [old|] eqn:Hold; cbn [default].
  - apply sum_positive.
    + exact (dict_get_Forall_val (fun v => fle v (of_int 0) = false) _ _ _ Hst Hold).
    + now apply reciprocal_positive.
  - rewrite rrf_term_zero. now apply reciprocal_positive.
Qed.

Lemma rrf_fuse_positive (l1 l2 : list Scored) :
  Forall (fun x => positive x = true) (_rrf_fuse [l1; l2] 60).
Proof.
  apply Forall_forall. intros [c s] Hin. apply list_elem_of_In in Hin.
  rewrite rrf_fuse_unfold in Hin. cbn [fold_left] in Hin.
  apply fuse_output_In in Hin as (cid & Hin & _).
  assert (Hpos : Forall (fun kv => fle (snd kv) (of_int 0) = false)
                   (fst (rrf_accumulate 60 1 (sort_desc l2)
                           (rrf_accumulate 60 1 (sort_desc l1) ([], []))))).
  { apply rrf_accumulate_positive; [lia |].
    apply rrf_accumulate_positive; [lia | constructor]. }
  rewrite Forall_forall in Hpos. specialize (Hpos (cid, s)).
  unfold positive. cbn [snd] in *. rewrite Hpos; [reflexivity |].
  now apply list_elem_of_In.
Qed.

Lemma filter_all {A} (P : A -> bool) (l : list A) :
  Forall (fun x => P x = true) l -> List.filter P l = l.
Proof.
  induction 1 as [|x l Hx _ IH]; cbn [List.filter]; [reflexivity |].
  now rewrite Hx, IH.
Qed.

(** X14. The hybrid strategy, which is any strategy other than [bm25]
    and [vector], filters nothing: every fused score is positive, so for
    [0 <= top_k] the results are the first [top_k] chunks of the fused
    ranking whatever the query, even one that has no term in common with
    any chunk; with distinct chunk identifiers there are exactly
    [min(top_k, n)] of them for [n] stored chunks. *)
Theorem hybrid_never_filters (chunks : list Chunk) (query : string)
    (top_k : Z) (strategy : string) :
  strategy <> "bm25" -> strategy <> "vector" -> 0 <= top_k ->
  retrieve_results chunks query top_k strategy
  = map result_of (take (Z.to_nat top_k) (sort_desc (scored_by chunks query strategy)))
  /\ (NoDup (map ck_chunk_id chunks) ->
      length (retrieve_results chunks query top_k strategy)
      = Nat.min (Z.to_nat top_k) (length chunks)).
Proof.
  intros Hb Hv Hk. apply String.eqb_neq in Hb, Hv.
  assert (Hres : retrieve_results chunks query top_k strategy
                 = map result_of
                     (take (Z.to_nat top_k) (sort_desc (scored_by chunks query strategy)))).
  { rewrite (retrieve_results_kept _ _ _ _ Hk). do 2 f_equal.
    apply filter_all. apply Forall_sort_desc.
    unfold scored_by. rewrite Hb, Hv. apply rrf_fuse_positive. }
  split; [exact Hres |]. intros Hnd.
  rewrite Hres, length_map, length_take. f_equal.
  rewrite (Permutation_length (sort_desc_Permutation _)).
  unfold scored_by. rewrite Hb, Hv.
  assert (Hids : ids (_rrf_fuse [_bm25_score chunks query (lit 1.5) (lit 0.75);
                                 _vector_score chunks query] 60)
                 = ids (sort_desc (_bm25_score chunks query (lit 1.5) (lit 0.75)))).
  { apply rrf_fuse_order; [now rewrite ids_bm25 |].
    intros i. now rewrite ids_bm25, ids_vector. }
  apply (f_equal (@length string)) in Hids. unfold ids in Hids.
  rewrite !length_map in Hids. etransitivity; [exact Hids |].
  etransitivity; [exact (Permutation_length (sort_desc_Permutation _)) |].
  rewrite <- (bm25_score_chunks chunks query (lit 1.5) (lit 0.75)) at 2.
  symmetry. apply length_map.
Qed.

End RetrieveMore.

(** ** More on the learning loop *)

Section FeedbackMore.

Context {F : PyFloat} {RE : PyRegex} {RT : Runtime}.

Lemma OutcomeRating_eqb_eq (a b : OutcomeRating) : OutcomeRating_eqb a b = true <-> a = b.
Proof. destruct a, b; simpl; split; congruence. Qed.

Lemma OutcomeRating_value_inj (a b : OutcomeRating) :
  OutcomeRating_value a = OutcomeRating_value b -> a = b.
Proof. destruct a, b; simpl; intros H; try reflexivity; discriminate H. Qed.

Lemma count_rating_app (r : OutcomeRating) (l : list FeedbackRecord) (f : FeedbackRecord) :
  count_rating r (l ++ [f])
  = count_rating r l + (if OutcomeRating_eqb (fb_rating f) r then 1 else 0).
Proof.
  unfold count_rating. rewrite List.filter_app, length_app. cbn [List.filter].
  destruct (OutcomeRating_eqb (fb_rating f) r); cbn [length]; lia.
Qed.

(** What [record_feedback] does to the loop. *)
Lemma record_feedback_loop (feedback : FeedbackRecord) (loop : LearningLoop) (w : World) :
  exists loop' w',
    record_feedback feedback (loop, w) = (Ok feedback, (loop', w'))
    /\ _feedback loop' = _feedback loop ++ [feedback]
    /\ _mistake_counts loop' = counts_after (_mistake_counts loop) feedback
    /\ map adjustment_summary (_adjustments loop')
       = map adjustment_summary (_adjustments loop)
         ++ adjustments_due (counts_after (_mistake_counts loop) feedback).
Proof.
  unfold record_feedback.
  unfold bind at 1. unfold modify. unfold bind at 1.
  unfold store_log at 1. cbn [fst snd]. rewrite AuditLogger_log_effect. unfold bind.
  match goal with |- context [_check_for_adjustments feedback (?l, ?w0)] =>
    destruct (check_for_adjustments_effect feedback l w0)
      as (loop' & w' & Hc & Hf & Hm & Ha)
  end.
  rewrite Hc. exists loop', w'. split; [reflexivity |].
  cbn [_feedback _mistake_counts _adjustments] in Hf, Hm, Ha.
  repeat split; assumption.
Qed.

(** X15. Feedback can be read back by decision: after [record_feedback]
    the records of the decision the feedback names are the former ones
    followed by the new one, and the records of every other decision are
    the same as before; records are never replaced or merged, so feedback
    given twice is held twice. *)
Theorem record_then_get_feedback (feedback : FeedbackRecord) (loop : LearningLoop)
    (w : World) :
  exists loop' w',
    record_feedback feedback (loop, w) = (Ok feedback, (loop', w'))
    /\ get_feedback_for_decision loop' (fb_decision_id feedback)
       = get_feedback_for_decision loop (fb_decision_id feedback) ++ [feedback]
    /\ (forall decision_id,
           decision_id <> fb_decision_id feedback ->
           get_feedback_for_decision loop' decision_id
           = get_feedback_for_decision loop decision_id)
    /\ (forall decision_id,
           Forall (fun f => fb_decision_id f = decision_id)
                  (get_feedback_for_decision loop' decision_id)).
Proof.
  destruct (record_feedback_loop feedback loop w) as (loop' & w' & Hr & Hf & _).
  exists loop', w'. split; [exact Hr |].
  unfold get_feedback_for_decision. rewrite Hf.
  split; [rewrite List.filter_app; cbn [List.filter]; now rewrite String.eqb_refl |].
  split.
  - intros decision_id Hne. apply not_eq_sym, String.eqb_neq in Hne.
    rewrite List.filter_app. cbn [List.filter]. now rewrite Hne, app_nil_r.
  - intros decision_id. apply Forall_forall. intros f Hin.
    apply list_elem_of_In, filter_In in Hin as [_ Hin]. now apply String.eqb_eq.
Qed.

Lemma counts_after_value (counts : gmap string Z) (feedback : FeedbackRecord)
    (r : OutcomeRating) :
  count_of (counts_after counts feedback) (OutcomeRating_value r)
  = count_of counts (OutcomeRating_value r)
    + (if is_mistake r && OutcomeRating_eqb (fb_rating feedback) r then 1 else 0).
Proof.
  unfold counts_after, count_of.
  destruct (is_mistake (fb_rating feedback)) eqn:Hm.
  - destruct (OutcomeRating_eqb (fb_rating feedback) r) eqn:Hr.
    + apply OutcomeRating_eqb_eq in Hr. subst r. rewrite Hm, lookup_insert_eq.
      cbn [default andb]. reflexivity.
    + rewrite lookup_insert_ne.
      * rewrite andb_false_r. lia.
      * intros H. apply OutcomeRating_value_inj in H.
        apply OutcomeRating_eqb_eq in H. congruence.
  - destruct (OutcomeRating_eqb (fb_rating feedback) r) eqn:Hr.
    + apply OutcomeRating_eqb_eq in Hr. subst r. rewrite Hm. cbn [andb]. lia.
    + rewrite andb_false_r. lia.
Qed.

(** X16. The mistake counters follow the feedback: if each counter holds
    the number of records of its rating (and nothing is counted for the
    ratings that are no mistakes), this is still so after
    [record_feedback], whatever the record, and the adjustments appended
    are those due for the number of hallucination and incorrect records
    then held. *)
Theorem record_feedback_keeps_counts (feedback : FeedbackRecord) (loop : LearningLoop)
    (w : World) :
  counts_consistent loop ->
  exists loop' w',
    record_feedback feedback (loop, w) = (Ok feedback, (loop', w'))
    /\ counts_consistent loop'
    /\ count_of (_mistake_counts loop') "hallucination"
       = count_rating HALLUCINATION (_feedback loop ++ [feedback])
    /\ count_of (_mistake_counts loop') "incorrect"
       = count_rating INCORRECT (_feedback loop ++ [feedback])
    /\ map adjustment_summary (_adjustments loop')
       = map adjustment_summary (_adjustments loop)
         ++ adjustments_due (_mistake_counts loop').
Proof.
  intros Hinv.
  destruct (record_feedback_loop feedback loop w) as (loop' & w' & Hr & Hf & Hm & Ha).
  exists loop', w'. split; [exact Hr |].
  assert (Hinv' : counts_consistent loop').
  { intros r. rewrite Hm, Hf, counts_after_value, count_rating_app, (Hinv r).
    destruct (is_mistake r); cbn [andb]; [reflexivity |].
    reflexivity. }
  split; [exact Hinv' |].
  split; [rewrite <- Hf; exact (Hinv' HALLUCINATION) |].
  split; [rewrite <- Hf; exact (Hinv' INCORRECT) |].
  now rewrite Hm.
Qed.

Lemma str_in_empty (s : string) : Instances.str_in EmptyString s = true.
Proof. destruct s; reflexivity. Qed.

(** X17. [evaluate_decision] always records one feedback for the
    decision.  Answer and expectation are compared lower-cased and
    stripped: the rating is [CORRECT] exactly when they are then equal,
    and a mistake exactly when they differ and neither contains the
    other; a mistake is a [HALLUCINATION] when the decision has no
    evidence and [INCORRECT] when it has some.  An empty answer or an
    empty expectation is therefore never graded as a mistake.  The
    corrected answer is the expectation unless the rating is [CORRECT]. *)
Theorem evaluate_decision_grades (decision : Decision) (expected : string)
    (loop : LearningLoop) (w : World) :
  let answer := PyStr.strip (PyStr.lower (d_answer decision)) in
  let expected_lower := PyStr.strip (PyStr.lower expected) in
  exists feedback loop' w',
    evaluate_decision decision expected (loop, w) = (Ok feedback, (loop', w'))
    /\ _feedback loop' = _feedback loop ++ [feedback]
    /\ fb_decision_id feedback = d_decision_id decision
    /\ (fb_rating feedback = CORRECT <-> answer = expected_lower)
    /\ (is_mistake (fb_rating feedback) = true <->
        answer <> expected_lower
        /\ Instances.str_in expected_lower answer = false
        /\ Instances.str_in answer expected_lower = false)
    /\ (fb_rating feedback = HALLUCINATION -> d_evidence decision = [])
    /\ (fb_rating feedback = INCORRECT -> d_evidence decision <> [])
    /\ (answer = EmptyString \/ expected_lower = EmptyString ->
        is_mistake (fb_rating feedback) = false)
    /\ fb_corrected_answer feedback
       = (if OutcomeRating_eqb (fb_rating feedback) CORRECT then EmptyString else expected)
    /\ fb_explanation feedback
       = "Automated evaluation: " +:+ OutcomeRating_value (fb_rating feedback).
Proof.
  intros answer expected_lower. unfold evaluate_decision.
  fold answer. fold expected_lower.
  set (rating := if String.eqb answer expected_lower then CORRECT
                 else if Instances.str_in expected_lower answer
                         || Instances.str_in answer expected_lower
                      then PARTIALLY_CORRECT
                 else if Nat.eqb (length (d_evidence decision)) 0 then HALLUCINATION
                 else INCORRECT).
  unfold bind at 1. unfold store_log at 1, fresh_id at 1. cbn [fst snd].
  unfold bind at 1. unfold store_log at 1, fresh_time at 1. cbn [fst snd].
  match goal with |- context [record_feedback ?fb (?l, ?w0)] =>
    destruct (record_feedback_loop fb l w0) as (loop' & w' & Hr & Hf & _);
    exists fb, loop', w'
  end.
  split; [exact Hr |]. split; [exact Hf |].
  cbn [fb_decision_id fb_rating fb_corrected_answer fb_explanation].
  split; [reflexivity |].
  assert (Hlen : (length (d_evidence decision) =? 0)%nat = true <-> d_evidence decision = []).
  { destruct (d_evidence decision); cbn; split; congruence. }
  split.
  { subst rating. destruct (String.eqb answer expected_lower) eqn:He.
    - apply String.eqb_eq in He. tauto.
    - apply String.eqb_neq in He. split; [| intros H; contradiction].
      destruct (_ || _); [discriminate |]. destruct (_ =? _)%nat; discriminate. }
  split.
  { subst rating. destruct (String.eqb answer expected_lower) eqn:He.
    - split; [discriminate |]. intros [H _]. apply String.eqb_eq in He. contradiction.
    - apply String.eqb_neq in He.
      destruct (Instances.str_in expected_lower answer),
               (Instances.str_in answer expected_lower); cbn [orb is_mistake];
        try (split; [discriminate | intros (_ & ? & ?); discriminate]).
      destruct (_ =? _)%nat; cbn [is_mistake]; tauto. }
  split.
  { subst rating. destruct (String.eqb answer expected_lower); [discriminate |].
    destruct (_ || _); [discriminate |].
    destruct (length (d_evidence decision) =? 0)%nat; [intros _; now apply Hlen | discriminate]. }
  split.
  { subst rating. destruct (String.eqb answer expected_lower); [discriminate |].
    destruct (_ || _); [discriminate |].
    destruct (length (d_evidence decision) =? 0)%nat eqn:Hl; [discriminate |].
    intros _ H. apply Hlen in H. congruence. }
  split.
  { subst rating. intros [H | H]; rewrite H.
    - destruct (String.eqb EmptyString expected_lower); [reflexivity |].
      rewrite (str_in_empty expected_lower), orb_true_r. reflexivity.
    - destruct (String.eqb answer EmptyString); [reflexivity |].
      rewrite (str_in_empty answer). reflexivity. }
  split; [| reflexivity].
  destruct rating; reflexivity.
Qed.

Lemma rating_counts_fold (l : list FeedbackRecord) :
  forall m : gmap string Z,
    (forall key n, m !! key = Some n -> 0 < n /\ exists r, key = OutcomeRating_value r) ->
    let m' := fold_left
                (fun counts f =>
                   <[OutcomeRating_value (fb_rating f) :=
                       count_of counts (OutcomeRating_value (fb_rating f)) + 1]> counts)
                l m in
    (forall r, count_of m' (OutcomeRating_value r)
               = count_of m (OutcomeRating_value r) + count_rating r l)
    /\ (forall key n, m' !! key = Some n -> 0 < n /\ exists r, key = OutcomeRating_value r).
Proof.
  induction l as [|f l IH]; intros m Hm; cbn [fold_left].
  - split; [| exact Hm]. intros r. unfold count_rating. cbn. lia.
  - set (k := OutcomeRating_value (fb_rating f)).
    assert (Hnonneg : 0 <= count_of m k).
    { unfold count_of. destruct (m !! k) as [n|] eqn:Hk; cbn; [| lia].
      destruct (Hm k n Hk). lia. }
    destruct (IH (<[k := count_of m k + 1]> m)) as [H1 H2].
    { intros key n. destruct (string_dec key k) as [-> | Hne].
      - rewrite lookup_insert_eq. intros [= <-]. split; [lia |]. now eexists.
      - rewrite lookup_insert_ne by congruence. apply Hm. }
    split; [| exact H2].
    intros r. rewrite H1. unfold count_rating. cbn [List.filter].
    destruct (OutcomeRating_eqb (fb_rating f) r) eqn:Hr.
    + apply OutcomeRating_eqb_eq in Hr. subst r. fold k.
      unfold count_of at 1. rewrite lookup_insert_eq.
      change (default 0 (Some (count_of m k + 1))) with (count_of m k + 1).
      rewrite length_cons. lia.
    + unfold count_of at 1. rewrite lookup_insert_ne; [reflexivity |].
      unfold k. intros H. apply OutcomeRating_value_inj in H.
      apply OutcomeRating_eqb_eq in H. congruence.
Qed.

Lemma count_rating_total (l : list FeedbackRecord) :
  count_rating CORRECT l + count_rating PARTIALLY_CORRECT l
  + count_rating INCORRECT l + count_rating HALLUCINATION l = Z.of_nat (length l).
Proof.
  unfold count_rating. induction l as [|f l IH]; [reflexivity |].
  cbn [List.filter length]. destruct (fb_rating f); cbn [OutcomeRating_eqb length]; lia.
Qed.

(** X18. [compute_accuracy] counts every record once: the total is the
    number of records, the breakdown gives for each rating the number of
    records that carry it and has no entry for a rating that does not
    occur, so its values add up to the total; the accuracy is
    [round((correct + 0.5 * partial) / total, 4)] on these counts.
    Without feedback nothing is divided: the result is total [0],
    accuracy [0.0] and an empty breakdown. *)
Theorem compute_accuracy_counts (loop : LearningLoop) :
  let result := compute_accuracy loop in
  acc_total result = Z.of_nat (length (_feedback loop))
  /\ (forall r, count_of (acc_breakdown result) (OutcomeRating_value r)
                = count_rating r (_feedback loop))
  /\ (forall key n, acc_breakdown result !! key = Some n ->
                    0 < n /\ exists r, key = OutcomeRating_value r)
  /\ count_of (acc_breakdown result) "correct"
     + count_of (acc_breakdown result) "partially_correct"
     + count_of (acc_breakdown result) "incorrect"
     + count_of (acc_breakdown result) "hallucination" = acc_total result
  /\ (_feedback loop = [] ->
      result = {| acc_total := 0; acc_accuracy := lit 0; acc_breakdown := ∅ |})
  /\ (_feedback loop <> [] ->
      acc_accuracy result
      = round4 (fdiv (fadd (of_int (count_rating CORRECT (_feedback loop)))
                           (fmul (lit 0.5)
                                 (of_int (count_rating PARTIALLY_CORRECT (_feedback loop)))))
                     (of_int (Z.of_nat (length (_feedback loop)))))).
Proof.
  intros result.
  destruct (rating_counts_fold (_feedback loop) ∅) as [Hcount Hkeys].
  { intros key n H. rewrite lookup_empty in H. discriminate. }
  fold (rating_counts (_feedback loop)) in Hcount, Hkeys.
  assert (Hc : forall r, count_of (rating_counts (_feedback loop)) (OutcomeRating_value r)
                         = count_rating r (_feedback loop)).
  { intros r. rewrite Hcount. unfold count_of. rewrite lookup_empty. cbn. lia. }
  assert (Hbreak : forall r, count_of (acc_breakdown result) (OutcomeRating_value r)
                             = count_rating r (_feedback loop)).
  { intros r. subst result. unfold compute_accuracy.
    destruct (_feedback loop) as [|f l] eqn:Hf; [| cbn [Z.eqb Z.of_nat length]].
    - cbn. unfold count_of. now rewrite lookup_empty.
    - cbn [acc_breakdown]. rewrite <- Hf in *. apply Hc. }
  assert (Htotal : acc_total result = Z.of_nat (length (_feedback loop))).
  { subst result. unfold compute_accuracy.
    destruct (_feedback loop) as [|f l]; reflexivity. }
  split; [exact Htotal |]. split; [exact Hbreak |]. split.
  { subst result. unfold compute_accuracy.
    destruct (Z.of_nat (length (_feedback loop)) =? 0); cbn [acc_breakdown].
    - intros key n H. rewrite lookup_empty in H. discriminate.
    - exact Hkeys. }
  split.
  { rewrite Htotal, <- (count_rating_total (_feedback loop)).
    rewrite <- (Hbreak CORRECT), <- (Hbreak PARTIALLY_CORRECT),
      <- (Hbreak INCORRECT), <- (Hbreak HALLUCINATION). reflexivity. }
  split.
  { intros Hnil. subst result. unfold compute_accuracy. now rewrite Hnil. }
  intros Hne. subst result. unfold compute_accuracy.
  destruct (Z.of_nat (length (_feedback loop)) =? 0) eqn:Hz.
  { apply Z.eqb_eq in Hz. destruct (_feedback loop); [congruence | discriminate]. }
  cbn [acc_accuracy].
  pose proof (Hc CORRECT) as H1. pose proof (Hc PARTIALLY_CORRECT) as H2.
  cbn [OutcomeRating_value] in H1, H2. now rewrite H1, H2.
Qed.

End FeedbackMore.

(** ** More on the decision agent *)

Section StringMore.

(** Replacing a substring that does not occur changes nothing. *)
Lemma replace_absent (old new s : string) :
  Instances.str_in old s = false -> PyStr.replace old new s = s.
Proof.
  unfold PyStr.replace. induction s as [|c s IH]; [reflexivity |].
  cbn [Instances.str_in PyStr.replace_go].
  destruct (PyStr.startswith old (String c s)); [discriminate |].
  intros H. now rewrite (IH H).
Qed.

Lemma startswith_append (old rest : string) : PyStr.startswith old (old +:+ rest) = true.
Proof.
  induction old as [|a old IH]; [reflexivity |].
  change (String a old +:+ rest) with (String a (old +:+ rest)).
  cbn [PyStr.startswith]. now rewrite Ascii.eqb_refl.
Qed.

Lemma startswith_prefix (old s : string) :
  PyStr.startswith old s = true -> exists rest, s = old +:+ rest.
Proof.
  revert s. induction old as [|a old IH]; intros s.
  - intros _. now exists s.
  - destruct s as [|b s]; [discriminate |]. cbn [PyStr.startswith].
    destruct (Ascii.eqb a b) eqn:Hab; [| discriminate].
    apply Ascii.eqb_eq in Hab. subst b. intros H.
    destruct (IH s H) as [rest ->]. now exists rest.
Qed.

Lemma length_append (a b : string) :
  String.length (a +:+ b) = (String.length a + String.length b)%nat.
Proof. induction a as [|c a IH]; [reflexivity | simpl; f_equal; exact IH]. Qed.

(** The characters of an occurrence are dropped. *)
Lemma replace_go_skip (old new p rest : string) :
  PyStr.replace_go old new (String.length p) (p +:+ rest) = PyStr.replace_go old new 0 rest.
Proof. induction p as [|a p IH]; cbn; [reflexivity | exact IH]. Qed.

Lemma replace_occurrence (old new rest : string) :
  old <> EmptyString ->
  PyStr.replace old new (old +:+ rest) = new +:+ PyStr.replace old new rest.
Proof.
  intros Hne. destruct old as [|a old]; [congruence |].
  unfold PyStr.replace.
  change (String a old +:+ rest) with (String a (old +:+ rest)).
  cbn [PyStr.replace_go].
  change (String a (old +:+ rest)) with (String a old +:+ rest).
  rewrite startswith_append. cbn [String.length Nat.sub].
  now rewrite Nat.sub_0_r, replace_go_skip.
Qed.

Lemma replace_other (old new : string) (c : ascii) (s : string) :
  PyStr.startswith old (String c s) = false ->
  PyStr.replace old new (String c s) = String c (PyStr.replace old new s).
Proof. intros H. unfold PyStr.replace. cbn [PyStr.replace_go]. now rewrite H. Qed.

(** [s.replace(old, "")] deletes the occurrences of [old]. *)
Lemma replace_deleted (old s : string) :
  old <> EmptyString -> deleted old s (PyStr.replace old EmptyString s).
Proof.
  intros Hne.
  assert (Hgen : forall n s, (String.length s <= n)%nat ->
                             deleted old s (PyStr.replace old EmptyString s)).
  { clear s. induction n as [|n IH]; intros s Hlen.
    - destruct s; [constructor | cbn in Hlen; lia].
    - destruct s as [|c s]; [constructor |].
      destruct (PyStr.startswith old (String c s)) eqn:Hst.
      + apply startswith_prefix in Hst as [rest Hrest]. rewrite Hrest.
        rewrite (replace_occurrence _ _ _ Hne). cbn [String.append].
        apply deleted_occurrence. apply IH.
        rewrite Hrest, length_append in Hlen.
        destruct old; [congruence | cbn in Hlen; lia].
      + rewrite (replace_other _ _ _ _ Hst). apply deleted_char.
        * intros rest Hrest. rewrite Hrest, startswith_append in Hst. discriminate.
        * apply IH. cbn in Hlen. lia. }
  now apply (Hgen (String.length s)).
Qed.

(** The relation [deleted] determines its result. *)
Lemma deleted_functional (old s r r' : string) :
  old <> EmptyString -> deleted old s r -> deleted old s r' -> r = r'.
Proof.
  intros Hne H. revert r'.
  induction H as [|rest r H IH|c s r Hc H IH]; intros r' H'.
  - remember EmptyString as e eqn:He. destruct H' as [|rest' r' H'|c' s' r' Hc' H'].
    + reflexivity.
    + destruct old; [congruence | discriminate].
    + discriminate.
  - remember (old +:+ rest) as s eqn:Hs.
    destruct H' as [|rest' r' H'|c' s' r' Hc' H'].
    + destruct old; [congruence | discriminate].
    + apply append_cancel_l in Hs. subst rest'. now apply IH.
    + exfalso. now apply (Hc' rest).
  - remember (String c s) as t eqn:Ht.
    destruct H' as [|rest' r' H'|c' s' r' Hc' H'].
    + discriminate.
    + exfalso. now apply (Hc rest').
    + injection Ht as -> ->. f_equal. now apply IH.
Qed.

(** A string in which [old] does not occur is kept as it is. *)
Lemma deleted_absent (old s : string) : ~ occurs old s -> deleted old s s.
Proof.
  induction s as [|c s IH]; intros Hno; [constructor |].
  apply deleted_char.
  - intros rest Hrest. apply Hno. exists EmptyString, rest. exact Hrest.
  - apply IH. intros (pre & post & ->). apply Hno.
    now exists (String c pre), post.
Qed.

Lemma str_in_unfold (sub s : string) :
  Instances.str_in sub s
  = if PyStr.startswith sub s then true
    else match s with
         | EmptyString => false
         | String _ s' => Instances.str_in sub s'
         end.
Proof. destruct s; reflexivity. Qed.

(** [sub in s] is true of every string in which [sub] occurs. *)
Lemma str_in_occurs (old s : string) : occurs old s -> Instances.str_in old s = true.
Proof.
  intros (pre & post & ->). induction pre as [|c pre IH]; rewrite str_in_unfold.
  - change (EmptyString +:+ old +:+ post) with (old +:+ post).
    now rewrite startswith_append.
  - change (String c pre +:+ old +:+ post) with (String c (pre +:+ old +:+ post)).
    destruct (PyStr.startswith old _); [reflexivity | exact IH].
Qed.

Lemma str_in_absent (old s : string) : Instances.str_in old s = false -> ~ occurs old s.
Proof. intros H Ho. apply str_in_occurs in Ho. congruence. Qed.

End StringMore.

Section AgentMore.
Context {F : PyFloat} {FMT : PyFormat} {RE : PyRegex} {RT : Runtime}.

Lemma new_Decision_effect (query answer : string) (evidence : list RetrievalResult)
    (evaluations : list PolicyEvaluation) (st : AgentState) (m1 m2 : string) (w : World) :
  new_Decision query (JStr answer) evidence evaluations st m1 m2 w
  = (Ok {| d_decision_id := _new_id (w_tick w); d_query := query; d_answer := answer;
           d_evidence := evidence; d_policy_evaluations := evaluations;
           d_agent_state := st; d_model_used := m1; d_auditor_model := m2;
           d_created_at := _utcnow (S (w_tick w)) |},
     {| w_tick := S (S (w_tick w)); w_events := w_events w;
        w_requests := w_requests w |}).
Proof. reflexivity. Qed.

(** A [Decision] cannot be built on an answer that is not a [str]. *)
Lemma new_Decision_invalid (query : string) (answer : Json)
    (evidence : list RetrievalResult) (evaluations : list PolicyEvaluation)
    (st : AgentState) (m1 m2 : string) (w : World) :
  is_text answer = false ->
  new_Decision query answer evidence evaluations st m1 m2 w
  = (Raise ValidationError,
     {| w_tick := S (S (w_tick w)); w_events := w_events w;
        w_requests := w_requests w |}).
Proof. destruct answer; try discriminate; reflexivity. Qed.

(** [evaluate] logs one event and sends nothing. *)
Lemma evaluate_logs (self : PolicyEngine) (query : string) (evidence : RetrievalResponse)
    (context : option (gmap string string)) (w w1 : World)
    (evaluations : list PolicyEvaluation) :
  evaluate self query evidence context w = (Ok evaluations, w1) ->
  exists e, w1 = logged w e
            /\ ae_layer e = "reasoning" /\ ae_event_type e = "policy_evaluation"
            /\ ae_decision_id e = None /\ ae_actor e = "system".
Proof.
  unfold evaluate, bind, lift_res.
  destruct (map_res _ (_rules self)) as [evs|e]; [| discriminate].
  rewrite AuditLogger_log_effect. unfold ret. intros [= <- <-].
  eexists. split; [reflexivity |]. repeat split.
Qed.

(** The generator sends at most one request and logs nothing; without a
    key it sends none, and when the request fails the answer is the
    fallback.  What it returns is a [str] unless the service sent
    something else. *)
Lemma call_orchestrator_effect (http : HttpRequest -> option Json)
    (cfg : LLMProviderConfig) (query : string) (evidence : RetrievalResponse)
    (w w' : World) (content : Json) :
  _call_orchestrator http cfg query evidence w = (Ok content, w') ->
  w_events w' = w_events w /\ w_tick w' = w_tick w
  /\ (api_key cfg = EmptyString ->
      w' = w /\ content = JStr (_fallback_answer query evidence))
  /\ ((forall rq, http rq = None) -> content = JStr (_fallback_answer query evidence))
  /\ (w_requests w' = w_requests w \/ exists rq, w_requests w' = w_requests w ++ [rq])
  /\ (text_replies http -> is_text content = true)
  /\ (is_text content = false -> api_key cfg <> EmptyString).
Proof.
  unfold _call_orchestrator.
  destruct (api_key cfg) as [|c key] eqn:Hkey; cbn [PyStr.truthy negb].
  - unfold ret. intros [= <- <-]. repeat split; auto; discriminate.
  - unfold bind, post. cbn [fst snd].
    match goal with |- context [http ?rq] => destruct (http rq) eqn:Hrq end;
      unfold ret; intros [= <- <-]; cbn [w_events w_tick w_requests];
      (split; [reflexivity |]); (split; [reflexivity |]);
      (split; [discriminate |]); (split; [| split; [right; eexists; reflexivity |]]).
    + intros Hnone. rewrite Hnone in Hrq. discriminate.
    + split; [| discriminate]. intros Htext. exact (Htext _ _ Hrq).
    + reflexivity.
    + split; [reflexivity | discriminate].
Qed.

Lemma call_auditor_effect (http : HttpRequest -> option Json)
    (cfg : LLMProviderConfig) (query : string) (answer : Json)
    (evidence : RetrievalResponse) (w w' : World) (text : Json) :
  _call_auditor http cfg query answer evidence w = (Ok text, w') ->
  w_events w' = w_events w /\ w_tick w' = w_tick w
  /\ (api_key cfg = EmptyString -> w' = w)
  /\ (w_requests w' = w_requests w \/ exists rq, w_requests w' = w_requests w ++ [rq]).
Proof.
  unfold _call_auditor.
  destruct (api_key cfg) as [|c key] eqn:Hkey; cbn [PyStr.truthy negb].
  - unfold ret. intros [= <- <-]. repeat split; auto.
  - unfold bind, post. cbn [fst snd].
    match goal with |- context [http ?rq] => destruct (http rq) eqn:Hrq end;
      unfold ret; intros [= <- <-]; cbn [w_events w_tick w_requests];
      (split; [reflexivity |]); (split; [reflexivity |]);
      (split; [discriminate |]); right; eexists; reflexivity.
Qed.

(** With a service that sends text, or without a key, the generator
    returns a [str]. *)
Lemma call_orchestrator_text (http : HttpRequest -> option Json)
    (cfg : LLMProviderConfig) (query : string) (evidence : RetrievalResponse) (w : World) :
  api_key cfg = EmptyString \/ text_replies http ->
  exists answer w',
    _call_orchestrator http cfg query evidence w = (Ok (JStr answer), w')
    /\ (api_key cfg = EmptyString -> answer = _fallback_answer query evidence).
Proof.
  intros Hcase.
  destruct (call_orchestrator_returns http cfg query evidence w) as (content & w' & Ho).
  pose proof (call_orchestrator_effect _ _ _ _ _ _ _ Ho) as (_ & _ & Hkey & _ & _ & Ht & _).
  assert (Htext : is_text content = true).
  { destruct Hcase as [K | K]; [destruct (Hkey K) as [_ ->]; reflexivity | now apply Ht]. }
  destruct content; try discriminate. exists s, w'. split; [exact Ho |].
  intros K. destruct (Hkey K) as [_ [= ->]]. reflexivity.
Qed.

(** [decide], branch by branch, once the policies were evaluated and the
    generator has returned. *)
Lemma decide_unfolded (http : HttpRequest -> option Json) (agent : DecisionAgent)
    (w : World) (query : string) (evidence : RetrievalResponse)
    (context : option (gmap string string))
    (evaluations : list PolicyEvaluation) (w1 : World) (content : Json) (w2 : World) :
  evaluate (_policy agent) query evidence context w = (Ok evaluations, w1) ->
  _call_orchestrator http (orchestrator (_settings agent)) query evidence w1
    = (Ok content, w2) ->
  exists audit_result w3,
    _call_auditor http (auditor (_settings agent)) query content evidence w2
       = (Ok audit_result, w3)
    /\ decide http query evidence context (agent, w) =
       if PolicyVerdict_eqb (check_allowed evaluations) DENY then
         let decision :=
           {| d_decision_id := _new_id (w_tick w1); d_query := query;
              d_answer := DENIED_ANSWER; d_evidence := resp_results evidence;
              d_policy_evaluations := evaluations; d_agent_state := FAILED;
              d_model_used := EmptyString; d_auditor_model := EmptyString;
              d_created_at := _utcnow (S (w_tick w1)) |} in
         let w' := {| w_tick := S (S (w_tick w1)); w_events := w_events w1;
                      w_requests := w_requests w1 |} in
         (Ok decision,
          (DecisionAgent_with agent FAILED (_pending_decision agent),
           logged w' (event_at w' "reasoning" "decision_denied" [("query", JStr query)]
                               (Some (d_decision_id decision)) "system")))
       else
         let w' := {| w_tick := S (S (w_tick w3)); w_events := w_events w3;
                      w_requests := w_requests w3 |} in
         match content with
         | JStr answer =>
             let decision :=
               {| d_decision_id := _new_id (w_tick w3); d_query := query;
                  d_answer := answer; d_evidence := resp_results evidence;
                  d_policy_evaluations := evaluations; d_agent_state := COMPLETED;
                  d_model_used := model (orchestrator (_settings agent));
                  d_auditor_model := model (auditor (_settings agent));
                  d_created_at := _utcnow (S (w_tick w3)) |} in
             let payload := [("query", JStr query); ("audit_result", audit_result)] in
             if PolicyVerdict_eqb (check_allowed evaluations) NEEDS_APPROVAL
                && enable_human_in_loop (_settings agent)
             then
               (Ok (Decision_replace decision WAITING_APPROVAL
                      (AWAITING_MARKER +:+ answer)),
                (DecisionAgent_with agent WAITING_APPROVAL (Some decision),
                 logged w' (event_at w' "reasoning" "decision_pending_approval" payload
                                     (Some (d_decision_id decision)) "system")))
             else
               (Ok decision,
                (DecisionAgent_with agent COMPLETED (_pending_decision agent),
                 logged w' (event_at w' "reasoning" "decision_completed" payload
                                     (Some (d_decision_id decision)) "system")))
         | _ =>
             (Raise ValidationError,
              (DecisionAgent_with agent RUNNING (_pending_decision agent), w'))
         end.
Proof.
  intros Hev Ho.
  destruct (call_auditor_returns http (auditor (_settings agent))
              query content evidence w2) as (text & w3 & Ha).
  exists text, w3. split; [exact Ha |].
  unfold decide, bind, set_state, set_pending_decision, self, in_world, modify.
  cbn [fst snd _policy _settings]. rewrite Hev. cbn [fst snd].
  destruct (PolicyVerdict_eqb (check_allowed evaluations) DENY).
  - reflexivity.
  - cbn [fst snd]. rewrite Ho. cbn [fst snd]. rewrite Ha. cbn [fst snd].
    destruct content; try reflexivity.
    destruct (PolicyVerdict_eqb (check_allowed evaluations) NEEDS_APPROVAL
              && enable_human_in_loop (_settings agent)); reflexivity.
Qed.

(** What a call of [decide] returns and logs when the decision is denied
    or the generator returned a [str]. *)
Lemma decide_effect (http : HttpRequest -> option Json)
    (agent : DecisionAgent) (w : World) (query : string) (evidence : RetrievalResponse)
    (context : option (gmap string string))
    (evaluations : list PolicyEvaluation) (w1 : World) (content : Json) (w2 : World) :
  evaluate (_policy agent) query evidence context w = (Ok evaluations, w1) ->
  _call_orchestrator http (orchestrator (_settings agent)) query evidence w1
    = (Ok content, w2) ->
  check_allowed evaluations = DENY \/ is_text content = true ->
  exists decision s' e1 e2 n,
    decide http query evidence context (agent, w) = (Ok decision, s')
    /\ d_query decision = query
    /\ d_evidence decision = resp_results evidence
    /\ d_policy_evaluations decision = evaluations
    /\ w_events (snd s') = w_events w ++ [e1; e2]
    /\ ae_event_type e1 = "policy_evaluation" /\ ae_decision_id e1 = None
    /\ ae_layer e2 = "reasoning"
    /\ ae_event_type e2 = decision_event_type (d_agent_state decision)
    /\ ae_decision_id e2 = Some (d_decision_id decision)
    /\ ae_actor e2 = "system"
    /\ _settings (fst s') = _settings agent /\ _policy (fst s') = _policy agent
    /\ ae_layer e1 = "reasoning"
    /\ d_decision_id decision = _new_id n.
Proof.
  intros Hev Ho Hok.
  destruct (decide_unfolded http agent w query evidence context evaluations w1 content w2
              Hev Ho) as (text & w3 & Ha & Hd).
  destruct (evaluate_logs _ _ _ _ _ _ _ Hev) as (e1 & -> & He1l & He1 & He1' & _).
  apply call_orchestrator_effect in Ho as (Ho & _).
  apply call_auditor_effect in Ha as (Ha & _).
  rewrite Hd.
  destruct (PolicyVerdict_eqb (check_allowed evaluations) DENY) eqn:Hdeny.
  - eexists. eexists. exists e1. eexists. eexists. split; [reflexivity |].
    cbn [fst snd d_query d_evidence d_policy_evaluations d_agent_state d_decision_id
         logged w_events DecisionAgent_with _settings _policy]. rewrite <- app_assoc.
    repeat split; try assumption.
  - destruct Hok as [Hok | Hok]; [rewrite Hok in Hdeny; discriminate |].
    destruct content; try discriminate.
    destruct (PolicyVerdict_eqb (check_allowed evaluations) NEEDS_APPROVAL
              && enable_human_in_loop (_settings agent));
      (eexists; eexists; exists e1; eexists; eexists; split; [reflexivity |]);
      cbn [fst snd d_query d_evidence d_policy_evaluations d_agent_state d_decision_id
           logged w_events DecisionAgent_with _settings _policy Decision_replace];
      rewrite Ha, Ho; cbn [logged w_events]; rewrite <- app_assoc;
      repeat split; try assumption.
Qed.

(** What a call of [decide] leaves when the generator returned something
    that is not a [str]. *)
Lemma decide_invalid (http : HttpRequest -> option Json)
    (agent : DecisionAgent) (w : World) (query : string) (evidence : RetrievalResponse)
    (context : option (gmap string string))
    (evaluations : list PolicyEvaluation) (w1 : World) (content : Json) (w2 : World) :
  evaluate (_policy agent) query evidence context w = (Ok evaluations, w1) ->
  _call_orchestrator http (orchestrator (_settings agent)) query evidence w1
    = (Ok content, w2) ->
  check_allowed evaluations <> DENY -> is_text content = false ->
  exists s' e1,
    decide http query evidence context (agent, w) = (Raise ValidationError, s')
    /\ w_events (snd s') = w_events w ++ [e1]
    /\ ae_event_type e1 = "policy_evaluation" /\ ae_decision_id e1 = None
    /\ ae_layer e1 = "reasoning"
    /\ fst s' = DecisionAgent_with agent RUNNING (_pending_decision agent)
    /\ api_key (orchestrator (_settings agent)) <> EmptyString.
Proof.
  intros Hev Ho Hverdict Hbad.
  destruct (decide_unfolded http agent w query evidence context evaluations w1 content w2
              Hev Ho) as (text & w3 & Ha & Hd).
  destruct (evaluate_logs _ _ _ _ _ _ _ Hev) as (e1 & -> & He1l & He1 & He1' & _).
  apply call_orchestrator_effect in Ho as (Ho & _ & _ & _ & _ & _ & Hkey).
  apply call_auditor_effect in Ha as (Ha & _).
  rewrite Hd.
  assert (Hdeny : PolicyVerdict_eqb (check_allowed evaluations) DENY = false).
  { destruct (check_allowed evaluations); try reflexivity. now contradiction Hverdict. }
  rewrite Hdeny.
  destruct content; try discriminate;
    (eexists; exists e1; split; [reflexivity |]);
    cbn [fst snd w_events]; rewrite Ha, Ho; cbn [logged w_events];
    repeat split; auto.
Qed.

(** X3. [decide] returns for every HTTP client unless the content the
    orchestrator's service sent is not a [str].  When the decision is
    denied or the generator returned a [str], the decision carries the
    query, the evidence and the evaluations, and the call appends exactly
    two audit events, the policy evaluation and then the event of the
    decision's state with the decision's identifier.  Otherwise the
    [Decision] cannot be built: [decide] raises [ValidationError], only
    the policy evaluation has been logged, and the agent is left in state
    [RUNNING] with its pending slot as it was. *)
Theorem decide_returns_and_logs (http : HttpRequest -> option Json)
    (agent : DecisionAgent) (w : World) (query : string) (evidence : RetrievalResponse)
    (context : option (gmap string string))
    (evaluations : list PolicyEvaluation) (w1 : World) (content : Json) (w2 : World) :
  evaluate (_policy agent) query evidence context w = (Ok evaluations, w1) ->
  _call_orchestrator http (orchestrator (_settings agent)) query evidence w1
    = (Ok content, w2) ->
  (check_allowed evaluations = DENY \/ is_text content = true ->
   exists decision s' e1 e2,
     decide http query evidence context (agent, w) = (Ok decision, s')
     /\ d_query decision = query
     /\ d_evidence decision = resp_results evidence
     /\ d_policy_evaluations decision = evaluations
     /\ w_events (snd s') = w_events w ++ [e1; e2]
     /\ ae_event_type e1 = "policy_evaluation" /\ ae_decision_id e1 = None
     /\ ae_layer e2 = "reasoning"
     /\ ae_event_type e2 = decision_event_type (d_agent_state decision)
     /\ ae_decision_id e2 = Some (d_decision_id decision)
     /\ ae_actor e2 = "system"
     /\ _settings (fst s') = _settings agent /\ _policy (fst s') = _policy agent)
  /\ (check_allowed evaluations <> DENY -> is_text content = false ->
      exists s' e1,
        decide http query evidence context (agent, w) = (Raise ValidationError, s')
        /\ w_events (snd s') = w_events w ++ [e1]
        /\ ae_event_type e1 = "policy_evaluation"
        /\ _state (fst s') = RUNNING
        /\ _pending_decision (fst s') = _pending_decision agent
        /\ api_key (orchestrator (_settings agent)) <> EmptyString).
Proof.
  intros Hev Ho. split.
  - intros Hok.
    destruct (decide_effect http agent w query evidence context evaluations w1 content w2
                Hev Ho Hok)
      as (decision & s' & e1 & e2 & n & H1 & H2 & H3 & H4 & H5 & H6 & H7 & H8 & H9 & H10
          & H11 & H12 & H13 & _).
    exists decision, s', e1, e2.
    repeat (split; [assumption |]). assumption.
  - intros Hverdict Hbad.
    destruct (decide_invalid http agent w query evidence context evaluations w1 content w2
                Hev Ho Hverdict Hbad) as (s' & e1 & H1 & H2 & H3 & _ & _ & H4 & H5).
    exists s', e1. split; [exact H1 |]. split; [exact H2 |]. split; [exact H3 |].
    rewrite H4. repeat split. exact H5.
Qed.

(** X20. The trace of a decision holds its outcome and not its policy
    evaluation: identifiers being non-empty, a call of [decide] that
    returns (the decision is denied, or the generator returned a [str])
    extends the trace of the new decision's identifier by exactly one
    event, the one of the decision's state, because the policy evaluation
    is logged without decision identifier; it is found under the layer
    [reasoning] only.  The trace of every other identifier is unchanged.
    A call that raises on a content that is not a [str] changes the
    trace of no identifier. *)
Theorem decide_trace (http : HttpRequest -> option Json)
    (agent : DecisionAgent) (w : World) (query : string) (evidence : RetrievalResponse)
    (context : option (gmap string string))
    (evaluations : list PolicyEvaluation) (w1 : World) (content : Json) (w2 : World) :
  evaluate (_policy agent) query evidence context w = (Ok evaluations, w1) ->
  _call_orchestrator http (orchestrator (_settings agent)) query evidence w1
    = (Ok content, w2) ->
  (forall n, _new_id n <> EmptyString) ->
  (check_allowed evaluations = DENY \/ is_text content = true ->
   exists decision s' e1 e2,
     decide http query evidence context (agent, w) = (Ok decision, s')
     /\ get_decision_trace (snd s') (d_decision_id decision)
        = get_decision_trace w (d_decision_id decision) ++ [e2]
     /\ ae_event_type e2 = decision_event_type (d_agent_state decision)
     /\ ae_event_type e1 = "policy_evaluation"
     /\ get_events (snd s') None (Some "reasoning")
        = get_events w None (Some "reasoning") ++ [e1; e2]
     /\ (forall other,
            other <> EmptyString -> other <> d_decision_id decision ->
            get_decision_trace (snd s') other = get_decision_trace w other))
  /\ (check_allowed evaluations <> DENY -> is_text content = false ->
      exists s' e1,
        decide http query evidence context (agent, w) = (Raise ValidationError, s')
        /\ get_events (snd s') None (Some "reasoning")
           = get_events w None (Some "reasoning") ++ [e1]
        /\ ae_event_type e1 = "policy_evaluation"
        /\ (forall other,
               other <> EmptyString ->
               get_decision_trace (snd s') other = get_decision_trace w other)).
Proof.
  intros Hev Ho Hids. split.
  - intros Hok.
    destruct (decide_effect http agent w query evidence context evaluations w1 content w2
                Hev Ho Hok)
      as (decision & s' & e1 & e2 & n & H1 & _ & _ & _ & Hevents & He1 & He1id & He2l
          & He2 & He2id & _ & _ & _ & He1l & Hn).
    exists decision, s', e1, e2. split; [exact H1 |].
    assert (Hne : d_decision_id decision <> EmptyString) by (rewrite Hn; apply Hids).
    assert (Htrace : forall d, d <> EmptyString ->
              get_decision_trace (snd s') d
              = get_decision_trace w d ++ List.filter (has_decision_id d) [e1; e2]).
    { intros d Hd. unfold get_decision_trace, get_events.
      apply truthy_nonempty in Hd. rewrite Hd, Hevents. apply List.filter_app. }
    split.
    { rewrite (Htrace _ Hne). f_equal. cbn [List.filter]. unfold has_decision_id.
      now rewrite He1id, He2id, String.eqb_refl. }
    split; [exact He2 |]. split; [exact He1 |]. split.
    { unfold get_events. cbn [PyStr.truthy]. rewrite Hevents, List.filter_app.
      f_equal. cbn [List.filter]. now rewrite He1l, He2l. }
    intros other Hother Hdiff. rewrite (Htrace _ Hother). cbn [List.filter].
    unfold has_decision_id. rewrite He1id, He2id.
    assert (Hf : String.eqb (d_decision_id decision) other = false)
      by (apply String.eqb_neq; congruence).
    rewrite Hf. apply app_nil_r.
  - intros Hverdict Hbad.
    destruct (decide_invalid http agent w query evidence context evaluations w1 content w2
                Hev Ho Hverdict Hbad)
      as (s' & e1 & H1 & Hevents & He1 & He1id & He1l & _ & _).
    exists s', e1. split; [exact H1 |]. split.
    { unfold get_events. cbn [PyStr.truthy]. rewrite Hevents, List.filter_app.
      f_equal. cbn [List.filter]. now rewrite He1l. }
    split; [exact He1 |].
    intros other Hother. unfold get_decision_trace, get_events.
    apply truthy_nonempty in Hother. rewrite Hother, Hevents, List.filter_app.
    cbn [List.filter]. unfold has_decision_id. rewrite He1id. apply app_nil_r.
Qed.

(** X4. A decision that the policies allow, or that needs approval while
    human-in-the-loop is disabled, completes at once when the generator
    returns a [str]: it is returned in state [COMPLETED] with the
    generated answer, without marker, and the pending slot keeps what it
    held. *)
Theorem decide_completes (http : HttpRequest -> option Json)
    (agent : DecisionAgent) (w : World) (query : string) (evidence : RetrievalResponse)
    (context : option (gmap string string))
    (evaluations : list PolicyEvaluation) (w1 : World) (answer : string) (w2 : World) :
  evaluate (_policy agent) query evidence context w = (Ok evaluations, w1) ->
  check_allowed evaluations = ALLOW
  \/ (check_allowed evaluations = NEEDS_APPROVAL
      /\ enable_human_in_loop (_settings agent) = false) ->
  _call_orchestrator http (orchestrator (_settings agent)) query evidence w1
    = (Ok (JStr answer), w2) ->
  exists decision s',
    decide http query evidence context (agent, w) = (Ok decision, s')
    /\ d_answer decision = answer
    /\ d_agent_state decision = COMPLETED
    /\ d_model_used decision = model (orchestrator (_settings agent))
    /\ d_auditor_model decision = model (auditor (_settings agent))
    /\ _state (fst s') = COMPLETED
    /\ _pending_decision (fst s') = _pending_decision agent.
Proof.
  intros Hev Hverdict Ho.
  destruct (decide_unfolded http agent w query evidence context evaluations w1 _ w2
              Hev Ho) as (text & w3 & Ha & Hd).
  rewrite Hd.
  assert (Hdeny : PolicyVerdict_eqb (check_allowed evaluations) DENY = false)
    by (destruct Hverdict as [-> | [-> _]]; reflexivity).
  assert (Hwait : PolicyVerdict_eqb (check_allowed evaluations) NEEDS_APPROVAL
                  && enable_human_in_loop (_settings agent) = false)
    by (destruct Hverdict as [-> | [-> ->]]; reflexivity).
  rewrite Hdeny, Hwait.
  eexists. eexists. split; [reflexivity |]. repeat split.
Qed.

(** X5. A failing generator does not fail the decision: when the
    orchestrator has no key or every request fails, a decision that is not
    denied carries the deterministic fallback answer (behind the marker
    when it waits for approval), which is a fixed sentence when there is
    no evidence; with no key for either model no request is sent. *)
Theorem decide_falls_back (http : HttpRequest -> option Json)
    (agent : DecisionAgent) (w : World) (query : string) (evidence : RetrievalResponse)
    (context : option (gmap string string))
    (evaluations : list PolicyEvaluation) (w1 : World) :
  evaluate (_policy agent) query evidence context w = (Ok evaluations, w1) ->
  check_allowed evaluations <> DENY ->
  api_key (orchestrator (_settings agent)) = EmptyString \/ (forall rq, http rq = None) ->
  exists decision s',
    decide http query evidence context (agent, w) = (Ok decision, s')
    /\ d_answer decision =
       match d_agent_state decision with
       | WAITING_APPROVAL => AWAITING_MARKER +:+ _fallback_answer query evidence
       | _ => _fallback_answer query evidence
       end
    /\ (resp_results evidence = [] ->
        _fallback_answer query evidence
        = "No evidence found. Cannot answer without grounded data.")
    /\ (api_key (orchestrator (_settings agent)) = EmptyString ->
        api_key (auditor (_settings agent)) = EmptyString ->
        w_requests (snd s') = w_requests w).
Proof.
  intros Hev Hverdict Hfail.
  destruct (call_orchestrator_returns http (orchestrator (_settings agent))
              query evidence w1) as (content & w2 & Ho).
  destruct (decide_unfolded http agent w query evidence context evaluations w1 content w2
              Hev Ho) as (text & w3 & Ha & Hd).
  destruct (evaluate_logs _ _ _ _ _ _ _ Hev) as (e1 & Hw1 & _).
  apply call_orchestrator_effect in Ho as (_ & _ & Hkey & Hnone & _).
  apply call_auditor_effect in Ha as (_ & _ & Hakey & _).
  assert (Hans : content = JStr (_fallback_answer query evidence))
    by (destruct Hfail as [H | H]; [now apply Hkey | now apply Hnone]).
  rewrite Hd, Hans.
  assert (Hdeny : PolicyVerdict_eqb (check_allowed evaluations) DENY = false).
  { destruct (check_allowed evaluations); try reflexivity. now contradiction Hverdict. }
  rewrite Hdeny.
  destruct (PolicyVerdict_eqb (check_allowed evaluations) NEEDS_APPROVAL
            && enable_human_in_loop (_settings agent));
    (eexists; eexists; split; [reflexivity |]);
    cbn [fst snd d_answer d_agent_state Decision_replace logged w_requests];
    (split; [reflexivity |]);
    (split; [intros Hnil; unfold _fallback_answer; now rewrite Hnil |]);
    intros K1 K2; destruct (Hkey K1) as [-> _]; rewrite (Hakey K2), Hw1; reflexivity.
Qed.

(** X6. [reject] on the pending identifier returns the pending decision
    in state [FAILED], with the same identifier and the answer
    [[REJECTED] reason], or [[REJECTED]] alone when the reason is empty;
    it empties the slot, leaves the agent in state [FAILED] and logs one
    event with actor [human]. *)
Theorem reject_pending (agent : DecisionAgent) (w : World) (decision_id reason : string)
    (pending : Decision) :
  _pending_decision agent = Some pending ->
  d_decision_id pending = decision_id ->
  exists rejected e,
    reject decision_id reason (agent, w)
      = (Ok (Some rejected), (DecisionAgent_with agent FAILED None, logged w e))
    /\ rejected = Decision_replace pending FAILED
                    (match reason with
                     | EmptyString => "[REJECTED]"
                     | _ => "[REJECTED] " +:+ reason
                     end)
    /\ d_decision_id rejected = decision_id
    /\ ae_event_type e = "decision_rejected" /\ ae_actor e = "human"
    /\ ae_decision_id e = Some decision_id
    /\ ae_payload e = [("reason", JStr reason)].
Proof.
  intros Hp Hid. unfold reject, bind, self, set_state, set_pending_decision, modify,
    in_world. cbn [fst snd]. rewrite Hp.
  apply String.eqb_eq in Hid. rewrite Hid. cbn [negb fst snd _pending_decision].
  rewrite AuditLogger_log_effect. unfold ret.
  apply String.eqb_eq in Hid.
  eexists. eexists. split; [reflexivity |].
  cbn [Decision_replace d_decision_id event_at ae_event_type ae_actor ae_decision_id
       ae_payload].
  repeat split; try assumption; try (now rewrite Hid).
  now destruct reason.
Qed.

(** [approve] on the pending identifier. *)
Lemma approve_pending (agent : DecisionAgent) (w : World) (decision_id : string)
    (pending : Decision) :
  _pending_decision agent = Some pending ->
  d_decision_id pending = decision_id ->
  approve decision_id (agent, w)
  = (Ok (Some (Decision_replace pending COMPLETED
                 (PyStr.replace AWAITING_MARKER EmptyString (d_answer pending)))),
     (DecisionAgent_with agent COMPLETED None,
      logged w (event_at w "reasoning" "decision_approved" [] (Some decision_id) "human"))).
Proof.
  intros Hp Hid. unfold approve. unfold bind, self, set_state, set_pending_decision,
    modify, in_world. cbn [fst snd]. rewrite Hp.
  apply String.eqb_eq in Hid as Hid'. rewrite Hid'. cbn [negb fst snd _pending_decision].
  rewrite AuditLogger_log_effect. unfold ret.
  cbn [Decision_replace d_decision_id]. rewrite Hid. reflexivity.
Qed.

(** [reject] on the pending identifier. *)
Lemma reject_pending_result (agent : DecisionAgent) (w : World)
    (decision_id reason : string) (pending : Decision) :
  _pending_decision agent = Some pending ->
  d_decision_id pending = decision_id ->
  exists answer s',
    reject decision_id reason (agent, w)
    = (Ok (Some (Decision_replace pending FAILED answer)), s').
Proof.
  intros Hp Hid. unfold reject, bind, self, set_state, set_pending_decision, modify,
    in_world. cbn [fst snd]. rewrite Hp.
  apply String.eqb_eq in Hid. rewrite Hid. cbn [negb fst snd _pending_decision].
  rewrite AuditLogger_log_effect. unfold ret. eexists. eexists. reflexivity.
Qed.

(** A decision that [approve] or [reject] returns is built from the
    pending one. *)
Lemma approve_returns_pending (agent : DecisionAgent) (w : World) (decision_id : string)
    (r : Decision) (s2 : DecisionAgent * World) :
  approve decision_id (agent, w) = (Ok (Some r), s2) ->
  exists pending,
    _pending_decision agent = Some pending /\ d_decision_id pending = decision_id
    /\ r = Decision_replace pending COMPLETED (d_answer r).
Proof.
  intros H.
  destruct (_pending_decision agent) as [pending|] eqn:Hp.
  - destruct (string_dec (d_decision_id pending) decision_id) as [E | N].
    + rewrite (approve_pending agent w decision_id pending Hp E) in H.
      injection H as <- _. exists pending. repeat split. exact E.
    + destruct (approve_reject_not_pending agent w decision_id) as [Ha _].
      { intros q Hq. rewrite Hp in Hq. injection Hq as <-. exact N. }
      rewrite Ha in H. discriminate.
  - destruct (approve_reject_not_pending agent w decision_id) as [Ha _].
    { intros q Hq. rewrite Hp in Hq. discriminate. }
    rewrite Ha in H. discriminate.
Qed.

Lemma reject_returns_pending (agent : DecisionAgent) (w : World)
    (decision_id reason : string) (r : Decision) (s2 : DecisionAgent * World) :
  reject decision_id reason (agent, w) = (Ok (Some r), s2) ->
  exists pending,
    _pending_decision agent = Some pending /\ d_decision_id pending = decision_id
    /\ r = Decision_replace pending FAILED (d_answer r).
Proof.
  intros H.
  destruct (_pending_decision agent) as [pending|] eqn:Hp.
  - destruct (string_dec (d_decision_id pending) decision_id) as [E | N].
    + destruct (reject_pending_result agent w decision_id reason pending Hp E)
        as (answer & s' & Hr).
      rewrite Hr in H. injection H as <- _. exists pending. repeat split. exact E.
    + destruct (approve_reject_not_pending agent w decision_id) as [_ Hr].
      { intros q Hq. rewrite Hp in Hq. injection Hq as <-. exact N. }
      rewrite Hr in H. discriminate.
  - destruct (approve_reject_not_pending agent w decision_id) as [_ Hr].
    { intros q Hq. rewrite Hp in Hq. discriminate. }
    rewrite Hr in H. discriminate.
Qed.

Lemma marker_nonempty : AWAITING_MARKER <> EmptyString.
Proof. discriminate. Qed.

(** The answer [approve] gives: the marker deleted, and nothing else. *)
Lemma marker_deleted (answer : string) :
  deleted AWAITING_MARKER answer (PyStr.replace AWAITING_MARKER EmptyString answer)
  /\ (forall stripped,
         deleted AWAITING_MARKER answer stripped ->
         stripped = PyStr.replace AWAITING_MARKER EmptyString answer)
  /\ (~ occurs AWAITING_MARKER answer ->
      PyStr.replace AWAITING_MARKER EmptyString answer = answer).
Proof.
  pose proof (replace_deleted AWAITING_MARKER answer marker_nonempty) as Hd.
  split; [exact Hd |]. split.
  - intros stripped Hs. exact (deleted_functional _ _ _ _ marker_nonempty Hs Hd).
  - intros Hno. symmetry.
    exact (deleted_functional _ _ _ _ marker_nonempty (deleted_absent _ _ Hno) Hd).
Qed.


(** C1, as amended.  With human-in-the-loop enabled, a decision whose
    aggregate verdict is [NEEDS_APPROVAL] (the generator having returned
    a [str]) takes the pending slot whatever the slot held: afterwards
    the slot holds the new decision, and the decision that was pending
    before is lost.  [approve] and [reject] called with its identifier
    return [None] when the identifiers differ, as drawn identifiers do;
    and whatever the identifiers, a decision they return is built from
    the new decision, never from the earlier one. *)
Theorem decide_needs_approval_replaces_pending
    (http : HttpRequest -> option Json) (agent : DecisionAgent) (w : World)
    (query : string) (evidence : RetrievalResponse)
    (context : option (gmap string string))
    (evaluations : list PolicyEvaluation) (w1 : World) (answer : string) (w2 : World) :
  evaluate (_policy agent) query evidence context w = (Ok evaluations, w1) ->
  check_allowed evaluations = NEEDS_APPROVAL ->
  enable_human_in_loop (_settings agent) = true ->
  _call_orchestrator http (orchestrator (_settings agent)) query evidence w1
    = (Ok (JStr answer), w2) ->
  exists decision stored s',
    decide http query evidence context (agent, w) = (Ok decision, s')
    /\ d_agent_state decision = WAITING_APPROVAL
    /\ _state (fst s') = WAITING_APPROVAL
    /\ _pending_decision (fst s') = Some stored
    /\ d_decision_id stored = d_decision_id decision
    /\ d_query stored = query
    /\ d_answer stored = answer
    /\ d_answer decision = AWAITING_MARKER +:+ d_answer stored
    /\ (forall earlier,
           _pending_decision agent = Some earlier ->
           (d_decision_id earlier <> d_decision_id decision ->
            approve (d_decision_id earlier) s' = (Ok None, s')
            /\ forall reason, reject (d_decision_id earlier) reason s' = (Ok None, s'))
           /\ (forall r s2,
                  approve (d_decision_id earlier) s' = (Ok (Some r), s2) ->
                  r = Decision_replace stored COMPLETED (d_answer r))
           /\ (forall reason r s2,
                  reject (d_decision_id earlier) reason s' = (Ok (Some r), s2) ->
                  r = Decision_replace stored FAILED (d_answer r))).
Proof.
  intros Hev Hverdict Hhitl Ho.
  destruct (decide_unfolded http agent w query evidence context evaluations w1 _ w2
              Hev Ho) as (text & w3 & _ & Hd).
  rewrite Hverdict, Hhitl in Hd. cbn [PolicyVerdict_eqb andb] in Hd.
  rewrite Hd. eexists. eexists. eexists. split; [reflexivity |].
  cbn [fst snd d_agent_state d_decision_id d_query d_answer Decision_replace
       DecisionAgent_with _state _pending_decision].
  do 7 (split; [reflexivity |]).
  intros earlier Hearlier. split; [| split].
  - intros Hne. apply approve_reject_not_pending.
    cbn [_pending_decision]. intros pending [= <-] Heq. apply Hne. symmetry. exact Heq.
  - intros r s2 Hr.
    apply approve_returns_pending in Hr as (pending & Hp & _ & Hr).
    cbn [_pending_decision] in Hp. injection Hp as <-. exact Hr.
  - intros reason r s2 Hr.
    apply reject_returns_pending in Hr as (pending & Hp & _ & Hr).
    cbn [_pending_decision] in Hp. injection Hp as <-. exact Hr.
Qed.

(** X7. Approval undoes the pause: when a decision needs approval and
    the generator returned a [str], the decision returned by [decide]
    carries the marker before the generated answer, and [approve] with
    its identifier returns it in state [COMPLETED] with the occurrences
    of the marker deleted from the generated answer, from left to right,
    hence with the generated answer itself when the marker does not
    occur in it.  The slot is then empty: a second [approve] or a
    [reject] with the same identifier returns [None]. *)
Theorem decide_then_approve (http : HttpRequest -> option Json)
    (agent : DecisionAgent) (w : World) (query : string) (evidence : RetrievalResponse)
    (context : option (gmap string string))
    (evaluations : list PolicyEvaluation) (w1 : World) (answer : string) (w2 : World) :
  evaluate (_policy agent) query evidence context w = (Ok evaluations, w1) ->
  check_allowed evaluations = NEEDS_APPROVAL ->
  enable_human_in_loop (_settings agent) = true ->
  _call_orchestrator http (orchestrator (_settings agent)) query evidence w1
    = (Ok (JStr answer), w2) ->
  exists decision s1 approved s2,
    decide http query evidence context (agent, w) = (Ok decision, s1)
    /\ d_answer decision = AWAITING_MARKER +:+ answer
    /\ approve (d_decision_id decision) s1 = (Ok (Some approved), s2)
    /\ approved = Decision_replace decision COMPLETED (d_answer approved)
    /\ deleted AWAITING_MARKER answer (d_answer approved)
    /\ (forall stripped,
           deleted AWAITING_MARKER answer stripped -> stripped = d_answer approved)
    /\ (~ occurs AWAITING_MARKER answer -> d_answer approved = answer)
    /\ _state (fst s2) = COMPLETED
    /\ approve (d_decision_id decision) s2 = (Ok None, s2)
    /\ (forall reason, reject (d_decision_id decision) reason s2 = (Ok None, s2)).
Proof.
  intros Hev Hverdict Hhitl Ho.
  destruct (decide_unfolded http agent w query evidence context evaluations w1 _ w2
              Hev Ho) as (text & w3 & _ & Hd).
  rewrite Hverdict, Hhitl in Hd. cbn [PolicyVerdict_eqb andb] in Hd.
  destruct (marker_deleted answer) as (Hdel & Hfun & Habs).
  rewrite Hd. eexists. eexists. eexists. eexists.
  split; [reflexivity |]. split; [reflexivity |].
  split.
  { apply approve_pending;
      cbn [fst DecisionAgent_with _pending_decision Decision_replace d_decision_id];
      reflexivity. }
  cbn [Decision_replace d_decision_id d_agent_state d_answer fst snd _state
       DecisionAgent_with].
  split; [reflexivity |]. split; [exact Hdel |]. split; [exact Hfun |].
  split; [exact Habs |]. split; [reflexivity |].
  apply approve_reject_not_pending. cbn [_pending_decision]. discriminate.
Qed.

(** X8. [override] never looks the decision up: for every identifier it
    returns a record whose original answer is the empty string, and its
    only effect is one [human_override] event with actor [human]; the
    agent is unchanged, so a pending decision stays pending and is
    approved or rejected afterwards exactly as before. *)
Theorem override_is_audit_only (agent : DecisionAgent) (w : World)
    (decision_id new_answer reason : string) :
  exists record e w',
    override decision_id new_answer reason (agent, w) = (Ok (Some record), (agent, w'))
    /\ ho_decision_id record = decision_id
    /\ ho_original_answer record = EmptyString
    /\ ho_overridden_answer record = new_answer
    /\ ho_reason record = reason
    /\ w_events w' = w_events w ++ [e]
    /\ w_requests w' = w_requests w
    /\ ae_event_type e = "human_override" /\ ae_actor e = "human"
    /\ ae_decision_id e = Some decision_id
    /\ (forall id, fst (approve id (agent, w')) = fst (approve id (agent, w)))
    /\ (forall id why, fst (reject id why (agent, w')) = fst (reject id why (agent, w))).
Proof.
  unfold override, bind, in_world, fresh_id, fresh_time. cbn [fst snd].
  rewrite AuditLogger_log_effect. unfold ret.
  eexists. eexists. eexists. split; [reflexivity |].
  cbn [ho_decision_id ho_original_answer ho_overridden_answer ho_reason logged w_events
       w_requests event_at ae_event_type ae_actor ae_decision_id].
  do 9 (split; [reflexivity |]).
  split.
  - intros id. unfold approve, bind, self. cbn [fst snd].
    destruct (_pending_decision agent) as [pending|]; [| reflexivity].
    destruct (negb _); reflexivity.
  - intros id why. unfold reject, bind, self. cbn [fst snd].
    destruct (_pending_decision agent) as [pending|]; [| reflexivity].
    destruct (negb _); reflexivity.
Qed.

(** X10. A rule whose pattern the regular-expression engine rejects
    makes the whole pipeline raise: [evaluate] raises [re.error] and logs
    nothing, and so does [decide], for every HTTP client, before any
    request is sent; the agent is left in state [RUNNING] with its pending
    slot as it was. *)
Theorem rejected_pattern_raises (agent : DecisionAgent) (w : World) (query : string)
    (evidence : RetrievalResponse) (context : option (gmap string string)) :
  Exists (pattern_rejected query) (_rules (_policy agent)) ->
  evaluate (_policy agent) query evidence context w = (Raise re_error, w)
  /\ forall http,
       decide http query evidence context (agent, w)
       = (Raise re_error, (DecisionAgent_with agent RUNNING (_pending_decision agent), w)).
Proof.
  intros Hex.
  assert (Hev : evaluate (_policy agent) query evidence context w = (Raise re_error, w)).
  { unfold evaluate, bind, lift_res. now rewrite (map_res_rejected _ _ _ _ Hex). }
  split; [exact Hev |]. intros http.
  unfold decide, bind, set_state, self, in_world, modify.
  cbn [fst snd _policy]. rewrite Hev. reflexivity.
Qed.

End AgentMore.

(** ** The system as wired by the orchestrator *)

Section SystemMore.

Context {F : PyFloat} {FMT : PyFormat} {RE : PyRegex} {RT : Runtime}.

Lemma retrieve_unfolded (query : string) (top_k : Z) (strategy : string)
    (store : KnowledgeStore) (w : World) :
  exists w',
    retrieve query top_k strategy (store, w)
    = (Ok {| resp_query := query;
             resp_results := retrieve_results (_chunks store) query top_k strategy;
             resp_strategy := strategy |}, (store, w'))
    /\ (_chunks store = [] -> w' = w).
Proof.
  unfold retrieve, bind, get. cbn [fst snd].
  destruct (_chunks store) as [|c chunks] eqn:Hch.
  - exists w. split; [reflexivity | auto].
  - unfold store_log. cbn [fst snd]. rewrite AuditLogger_log_effect. unfold ret.
    eexists. split; [reflexivity | discriminate].
Qed.

(** Rules that cannot raise and cannot deny give a verdict other than
    [DENY]. *)
Lemma harmless_rules_evaluate (self : PolicyEngine) (query : string)
    (evidence : RetrievalResponse) (context : option (gmap string string)) (w : World) :
  Forall harmless_rule (_rules self) ->
  exists evaluations w1,
    evaluate self query evidence context w = (Ok evaluations, w1)
    /\ PolicyVerdict_eqb (check_allowed evaluations) DENY = false.
Proof.
  intros Hrules.
  pose proof (evaluate_outcome self query evidence context w) as Hout.
  destruct (evaluate self query evidence context w) as [[evaluations|e] w1].
  - exists evaluations, w1. split; [reflexivity |].
    destruct Hout as (Hmap & Hall & _).
    assert (Hno : any_matched DENY evaluations = false).
    { rewrite <- Hmap in Hrules. clear Hmap.
      induction Hall as [|ev evs [_ Hv] _ IH]; [reflexivity |].
      cbn [map] in Hrules. apply Forall_cons in Hrules as [[_ Hr] Hrules].
      cbn [any_matched]. rewrite (IH Hrules), Hv.
      destruct (pe_matched ev); [| reflexivity].
      destruct (pr_verdict (pe_rule ev)); try reflexivity. congruence. }
    unfold check_allowed. rewrite Hno.
    now destruct (any_matched NEEDS_APPROVAL evaluations).
  - exfalso. destruct Hout as [_ Hex].
    apply Exists_exists in Hex as (rule & Hin & Hraise).
    apply check_condition_raise_inv in Hraise as (_ & Hc & _).
    rewrite Forall_forall in Hrules. destruct (Hrules rule Hin) as [Hh _]. congruence.
Qed.

(** [query] hands the retrieved evidence to [decide] and returns the view
    of its decision. *)
Lemma query_unfolded (http : HttpRequest -> option Json) (question : string)
    (top_k : Z) (strategy : string) (context : option (gmap string string))
    (system : NanoCortex) (w w1 : World) (evidence : RetrievalResponse)
    (decision : Decision) (agent' : DecisionAgent) (w2 : World) :
  retrieve question top_k strategy (nc_knowledge system, w)
    = (Ok evidence, (nc_knowledge system, w1)) ->
  decide http question evidence context (nc_agent system, w1)
    = (Ok decision, (agent', w2)) ->
  NanoCortex_query http question top_k strategy context (system, w)
  = (Ok (query_result decision),
     ({| nc_knowledge := nc_knowledge system; nc_agent := agent';
         nc_learning := nc_learning system |}, w2)).
Proof.
  intros Hr Hd. unfold NanoCortex_query, bind, on_knowledge, on_agent.
  cbn [fst snd]. rewrite Hr. cbn [fst snd nc_agent nc_knowledge nc_learning].
  rewrite Hd. reflexivity.
Qed.

Lemma approve_decision_unfolded (decision_id : string) (system : NanoCortex) (w : World)
    (result : option Decision) (agent' : DecisionAgent) (w' : World) :
  approve decision_id (nc_agent system, w) = (Ok result, (agent', w')) ->
  approve_decision decision_id (system, w)
  = (Ok (decision_result result),
     ({| nc_knowledge := nc_knowledge system; nc_agent := agent';
         nc_learning := nc_learning system |}, w')).
Proof.
  intros H. unfold approve_decision, bind, on_agent. cbn [fst snd]. now rewrite H.
Qed.

Lemma query_raised (http : HttpRequest -> option Json) (question : string)
    (top_k : Z) (strategy : string) (context : option (gmap string string))
    (system : NanoCortex) (w w1 : World) (evidence : RetrievalResponse)
    (e : PyExc) (agent' : DecisionAgent) (w2 : World) :
  retrieve question top_k strategy (nc_knowledge system, w)
    = (Ok evidence, (nc_knowledge system, w1)) ->
  decide http question evidence context (nc_agent system, w1)
    = (Raise e, (agent', w2)) ->
  NanoCortex_query http question top_k strategy context (system, w)
  = (Raise e,
     ({| nc_knowledge := nc_knowledge system; nc_agent := agent';
         nc_learning := nc_learning system |}, w2)).
Proof.
  intros Hr Hd. unfold NanoCortex_query, bind, on_knowledge, on_agent.
  cbn [fst snd]. rewrite Hr. cbn [fst snd nc_agent nc_knowledge nc_learning].
  rewrite Hd. reflexivity.
Qed.

(** X21. A policy set without [DENY] verdicts and without [contains:]
    conditions, such as the default one, fails a query in one way only.
    When the orchestrator has no key or its service sends text, then for
    every question, strategy and [top_k], [query] returns the view of a
    decision about the results of [retrieve], in state [COMPLETED] or
    [WAITING_APPROVAL], the latter only with human-in-the-loop enabled.
    For every HTTP client the store and the learning loop are untouched,
    and when [query] raises, it raises [ValidationError] on a content
    that is not a [str]: the orchestrator has a key, the service sent
    something else than text, and the agent is left in state [RUNNING]
    with its pending slot as it was. *)
Theorem query_with_harmless_rules (http : HttpRequest -> option Json)
    (question : string) (top_k : Z) (strategy : string)
    (context : option (gmap string string)) (system : NanoCortex) (w : World) :
  Forall harmless_rule (_rules (_policy (nc_agent system))) ->
  (api_key (orchestrator (_settings (nc_agent system))) = EmptyString
   \/ text_replies http ->
   exists decision system' w',
     NanoCortex_query http question top_k strategy context (system, w)
     = (Ok (query_result decision), (system', w'))
     /\ d_query decision = question
     /\ d_evidence decision
        = retrieve_results (_chunks (nc_knowledge system)) question top_k strategy
     /\ (d_agent_state decision = COMPLETED \/ d_agent_state decision = WAITING_APPROVAL)
     /\ (enable_human_in_loop (_settings (nc_agent system)) = false ->
         d_agent_state decision = COMPLETED)
     /\ _state (nc_agent system') = d_agent_state decision
     /\ nc_knowledge system' = nc_knowledge system
     /\ nc_learning system' = nc_learning system)
  /\ exists result system' w',
       NanoCortex_query http question top_k strategy context (system, w)
       = (result, (system', w'))
       /\ nc_knowledge system' = nc_knowledge system
       /\ nc_learning system' = nc_learning system
       /\ (forall e, result = Raise e ->
             e = ValidationError
             /\ _state (nc_agent system') = RUNNING
             /\ _pending_decision (nc_agent system') = _pending_decision (nc_agent system)
             /\ api_key (orchestrator (_settings (nc_agent system))) <> EmptyString
             /\ ~ text_replies http).
Proof.
  intros Hrules.
  destruct (retrieve_unfolded question top_k strategy (nc_knowledge system) w)
    as (w1 & Hr & _).
  set (evidence := {| resp_query := question;
                      resp_results := retrieve_results (_chunks (nc_knowledge system))
                                        question top_k strategy;
                      resp_strategy := strategy |}) in *.
  destruct (harmless_rules_evaluate (_policy (nc_agent system)) question evidence context
              w1 Hrules) as (evaluations & w2 & Hev & Hdeny).
  destruct (call_orchestrator_returns http (orchestrator (_settings (nc_agent system)))
              question evidence w2) as (content & w3 & Ho).
  pose proof (call_orchestrator_effect _ _ _ _ _ _ _ Ho)
    as (_ & _ & Hkey & _ & _ & Htext & Hbad).
  destruct (is_text content) eqn:Hcontent.
  - destruct content; try discriminate.
    destruct (decide_unfolded http (nc_agent system) w1 question evidence context
                evaluations w2 _ w3 Hev Ho) as (text & w4 & _ & Hd).
    rewrite Hdeny in Hd.
    destruct (PolicyVerdict_eqb (check_allowed evaluations) NEEDS_APPROVAL) eqn:Hna;
      destruct (enable_human_in_loop (_settings (nc_agent system))) eqn:Hhitl;
      cbn [andb] in Hd;
      (split;
       [ intros _; eexists; eexists; eexists;
         (split; [exact (query_unfolded _ _ _ _ _ _ _ _ _ _ _ _ Hr Hd) |]);
         cbn [d_query d_evidence d_agent_state Decision_replace nc_agent nc_knowledge
              nc_learning DecisionAgent_with _state resp_results evidence];
         repeat split; auto; discriminate
       | eexists; eexists; eexists;
         (split; [exact (query_unfolded _ _ _ _ _ _ _ _ _ _ _ _ Hr Hd) |]);
         cbn [nc_knowledge nc_learning];
         (split; [reflexivity |]); (split; [reflexivity |]); discriminate ]).
  - assert (Hverdict : check_allowed evaluations <> DENY).
    { intros K. rewrite K in Hdeny. discriminate. }
    destruct (decide_invalid http (nc_agent system) w1 question evidence context
                evaluations w2 content w3 Hev Ho Hverdict Hcontent)
      as ([agent' w4] & e1 & Hd & _ & _ & _ & _ & Hagent & Hk).
    cbn [fst] in Hagent.
    assert (Hnotext : ~ text_replies http).
    { intros K. specialize (Htext K). discriminate. }
    split.
    + intros [K | K]; [now contradiction Hk | now contradiction Hnotext].
    + eexists. eexists. eexists.
      split; [exact (query_raised _ _ _ _ _ _ _ _ _ _ _ _ Hr Hd) |].
      cbn [nc_knowledge nc_learning nc_agent].
      split; [reflexivity |]. split; [reflexivity |].
      intros e [= <-]. rewrite Hagent. cbn [DecisionAgent_with _state _pending_decision].
      repeat split; assumption.
Qed.

Lemma check_condition_no_evidence (rule : PolicyRule) (query : string)
    (evidence : RetrievalResponse) (context : gmap string string) :
  pr_condition rule = "no_evidence" ->
  _check_condition rule query evidence context
  = Ok (Nat.eqb (length (resp_results evidence)) 0).
Proof. intros H. unfold _check_condition. rewrite H. reflexivity. Qed.

Lemma check_condition_min_score (rule : PolicyRule) (query : string)
    (evidence : RetrievalResponse) (context : gmap string string) :
  pr_condition rule = "min_score:0.01" ->
  exists matched, _check_condition rule query evidence context = Ok matched.
Proof.
  intros H. unfold _check_condition. rewrite H.
  change (PyStr.strip "min_score:0.01") with "min_score:0.01".
  cbn [String.eqb Ascii.eqb Bool.eqb PyStr.startswith String.length PyStr.slice_from].
  change (PyStr.strip "0.01") with "0.01".
  destruct (to_float "0.01"); now eexists.
Qed.

(** X22. A system that has just been started asks before it answers:
    [__init__] installs the two default rules, which cannot raise or
    deny, and logs [system_initialized]; when the orchestrator has no key
    or its service sends text, the first [query], whatever the
    question, finds no evidence, matches the rule [no_hallucination]
    and, with human-in-the-loop enabled, returns a decision in state
    [WAITING_APPROVAL] with the marker before the answer (the fallback
    sentence when the orchestrator has no key).  [approve_decision] with
    its identifier then returns the answer in state [completed], the
    occurrences of the marker deleted from it, and a second call the
    error dictionary; with human-in-the-loop disabled the
    decision is [COMPLETED] at once and nothing is left to approve. *)
Theorem fresh_system_asks_for_approval (settings : Settings) (w : World)
    (http : HttpRequest -> option Json) (question : string) (top_k : Z)
    (strategy : string) (context : option (gmap string string)) :
  api_key (orchestrator settings) = EmptyString \/ text_replies http ->
  exists system w0 e0,
    NanoCortex_init settings w = (Ok system, w0)
    /\ w_events w0 = w_events w ++ [e0]
    /\ ae_layer e0 = "system" /\ ae_event_type e0 = "system_initialized"
    /\ map pr_name (_rules (_policy (nc_agent system)))
       = ["no_hallucination"; "low_confidence"]
    /\ Forall harmless_rule (_rules (_policy (nc_agent system)))
    /\ exists decision s1 answer first rest,
         NanoCortex_query http question top_k strategy context (system, w0)
         = (Ok (query_result decision), s1)
         /\ d_evidence decision = []
         /\ d_policy_evaluations decision = first :: rest
         /\ pr_name (pe_rule first) = "no_hallucination"
         /\ pe_matched first = true /\ pe_verdict first = NEEDS_APPROVAL
         /\ d_agent_state decision
            = (if enable_human_in_loop settings then WAITING_APPROVAL else COMPLETED)
         /\ d_answer decision
            = (if enable_human_in_loop settings then AWAITING_MARKER +:+ answer
               else answer)
         /\ (api_key (orchestrator settings) = EmptyString ->
             answer = "No evidence found. Cannot answer without grounded data.")
         /\ (enable_human_in_loop settings = true ->
             exists stripped s2,
               approve_decision (d_decision_id decision) s1
               = (Ok (JObj [("decision_id", JStr (d_decision_id decision));
                            ("answer", JStr stripped);
                            ("state", JStr "completed")]), s2)
               /\ deleted AWAITING_MARKER answer stripped
               /\ (~ occurs AWAITING_MARKER answer -> stripped = answer)
               /\ approve_decision (d_decision_id decision) s2
                  = (Ok (decision_result None), s2))
         /\ (enable_human_in_loop settings = false ->
             approve_decision (d_decision_id decision) s1
             = (Ok (decision_result None), s1)).
Proof.
  intros Hservice. eexists. eexists. eexists.
  split.
  { cbv [NanoCortex_init _install_default_policies bind on_agent in_world
         new_PolicyRule add_policy_rule modify store_log fresh_id fresh_time ret
         AuditLogger_log AuditLogger_append fst snd].
    cbn [nc_agent nc_knowledge nc_learning _settings _policy _state
         _pending_decision w_tick w_events w_requests add_rule _rules app].
    reflexivity. }
  cbn [w_events ae_layer ae_event_type nc_agent _policy add_rule _rules
       app map pr_name].
  split; [reflexivity |]. split; [reflexivity |]. split; [reflexivity |].
  split; [reflexivity |].
  assert (Hharmless : Forall harmless_rule
            [ {| pr_rule_id := _new_id (w_tick w); pr_name := "no_hallucination";
                 pr_description := "Deny answers with no evidence backing";
                 pr_condition := "no_evidence"; pr_verdict := NEEDS_APPROVAL |};
              {| pr_rule_id := _new_id (S (w_tick w)); pr_name := "low_confidence";
                 pr_description := "Require approval when evidence score is low";
                 pr_condition := "min_score:0.01"; pr_verdict := NEEDS_APPROVAL |} ]).
  { repeat constructor; discriminate. }
  split; [exact Hharmless |].
  match goal with
  | |- context [NanoCortex_query _ _ _ _ _ (?sys, ?w0')] =>
      set (system := sys); set (w0 := w0')
  end.
  destruct (retrieve_unfolded question top_k strategy (nc_knowledge system) w0)
    as (w1 & Hr & Hw1).
  specialize (Hw1 eq_refl). subst w1.
  change (retrieve_results (_chunks (nc_knowledge system)) question top_k strategy)
    with (@nil RetrievalResult) in Hr.
  set (evidence := {| resp_query := question; resp_results := [];
                      resp_strategy := strategy |}) in *.
  set (rule1 := {| pr_rule_id := _new_id (w_tick w); pr_name := "no_hallucination";
                   pr_description := "Deny answers with no evidence backing";
                   pr_condition := "no_evidence"; pr_verdict := NEEDS_APPROVAL |}) in *.
  set (rule2 := {| pr_rule_id := _new_id (S (w_tick w)); pr_name := "low_confidence";
                   pr_description := "Require approval when evidence score is low";
                   pr_condition := "min_score:0.01"; pr_verdict := NEEDS_APPROVAL |}) in *.
  destruct (check_condition_min_score rule2 question evidence (default ∅ context) eq_refl)
    as (m2 & Hm2).
  assert (Hev : exists ev2 w1,
             evaluate (_policy (nc_agent system)) question evidence context w0
             = (Ok [ {| pe_rule := rule1; pe_matched := true; pe_verdict := NEEDS_APPROVAL;
                        pe_explanation := "Rule '" +:+ "no_hallucination" +:+ "' "
                                          +:+ "matched" |}; ev2 ], w1)).
  { unfold evaluate, bind, lift_res. unfold system.
    cbn [nc_agent _policy _rules add_rule app map_res].
    fold rule1. fold rule2. unfold evaluate_rule.
    rewrite (check_condition_no_evidence rule1 question evidence _ eq_refl), Hm2.
    cbn [resp_results evidence length Nat.eqb pr_verdict rule1 pr_name].
    rewrite AuditLogger_log_effect. unfold ret. eexists. eexists. reflexivity. }
  destruct Hev as (ev2 & w1 & Hev).
  assert (Hverdict : check_allowed
                       [ {| pe_rule := rule1; pe_matched := true;
                            pe_verdict := NEEDS_APPROVAL;
                            pe_explanation := "Rule '" +:+ "no_hallucination" +:+ "' "
                                              +:+ "matched" |}; ev2 ] = NEEDS_APPROVAL
                     \/ check_allowed
                          [ {| pe_rule := rule1; pe_matched := true;
                               pe_verdict := NEEDS_APPROVAL;
                               pe_explanation := "Rule '" +:+ "no_hallucination" +:+ "' "
                                                 +:+ "matched" |}; ev2 ] = DENY).
  { unfold check_allowed. cbn [any_matched pe_matched pe_verdict andb PolicyVerdict_eqb].
    destruct (pe_matched ev2 && PolicyVerdict_eqb (pe_verdict ev2) DENY); auto. }
  destruct (harmless_rules_evaluate (_policy (nc_agent system)) question evidence context
              w0 Hharmless) as (evs' & w1' & Hev' & Hdeny).
  rewrite Hev in Hev'. injection Hev' as <- <-.
  destruct Hverdict as [Hverdict | Hverdict]; [| rewrite Hverdict in Hdeny; discriminate].
  destruct (call_orchestrator_text http (orchestrator (_settings (nc_agent system)))
              question evidence w1 Hservice) as (answer & w2 & Ho & Hkey).
  destruct (decide_unfolded http (nc_agent system) w0 question evidence context _ w1
              _ w2 Hev Ho) as (text & w3 & _ & Hd).
  rewrite Hverdict in Hd. cbn [PolicyVerdict_eqb andb] in Hd.
  cbn [nc_agent system _settings] in Hd, Hkey.
  assert (Hanswer : api_key (orchestrator settings) = EmptyString ->
                    answer = "No evidence found. Cannot answer without grounded data.").
  { intros K. now rewrite (Hkey K). }
  destruct (enable_human_in_loop settings) eqn:Hhitl.
  - eexists. eexists. exists answer. eexists. eexists.
    split; [exact (query_unfolded _ _ _ _ _ _ _ _ _ _ _ _ Hr Hd) |].
    cbn [d_evidence d_policy_evaluations d_agent_state d_answer d_decision_id
         Decision_replace resp_results evidence].
    split; [reflexivity |]. split; [reflexivity |].
    cbn [pe_rule pe_matched pe_verdict pr_name rule1].
    split; [reflexivity |]. split; [reflexivity |]. split; [reflexivity |].
    split; [reflexivity |]. split; [reflexivity |]. split; [exact Hanswer |].
    split; [| discriminate].
    intros _. eexists. eexists. split; [| split; [| split]].
    + erewrite approve_decision_unfolded;
        [| apply approve_pending; cbn [nc_agent DecisionAgent_with _pending_decision];
           reflexivity].
      cbn [decision_result Decision_replace d_decision_id d_answer d_agent_state
           AgentState_value]. reflexivity.
    + apply marker_deleted.
    + apply marker_deleted.
    + erewrite approve_decision_unfolded;
        [| apply approve_reject_not_pending;
           cbn [nc_agent DecisionAgent_with _pending_decision]; discriminate].
      cbn [nc_knowledge nc_agent nc_learning]. reflexivity.
  - eexists. eexists. exists answer. eexists. eexists.
    split; [exact (query_unfolded _ _ _ _ _ _ _ _ _ _ _ _ Hr Hd) |].
    cbn [d_evidence d_policy_evaluations d_agent_state d_answer d_decision_id
         resp_results evidence].
    split; [reflexivity |]. split; [reflexivity |].
    cbn [pe_rule pe_matched pe_verdict pr_name rule1].
    split; [reflexivity |]. split; [reflexivity |]. split; [reflexivity |].
    split; [reflexivity |]. split; [reflexivity |]. split; [exact Hanswer |].
    split; [discriminate |].
    intros _. erewrite approve_decision_unfolded;
      [| apply approve_reject_not_pending;
         cbn [nc_agent DecisionAgent_with _pending_decision system]; discriminate].
    cbn [nc_knowledge nc_agent nc_learning]. reflexivity.
Qed.

(** X23. [submit_feedback] accepts exactly the four rating values,
    spelled as in [OutcomeRating]: converting a rating to its value and
    back gives the rating again, and a string that is the value of no
    rating raises [ValueError] before anything is recorded or logged.
    For the value of a rating the feedback is recorded for the decision
    named, with the corrected answer and explanation given, and the
    dictionary returned names it; store and agent are untouched. *)
Theorem submit_feedback_rating (decision_id rating corrected_answer explanation : string)
    (system : NanoCortex) (w : World) :
  (forall r, OutcomeRating_of_value (OutcomeRating_value r) = Ok r)
  /\ (forall r, OutcomeRating_of_value rating = Ok r -> OutcomeRating_value r = rating)
  /\ ((forall r, OutcomeRating_value r <> rating) ->
      submit_feedback decision_id rating corrected_answer explanation (system, w)
      = (Raise ValueError, (system, w)))
  /\ (forall r, OutcomeRating_value r = rating ->
      exists feedback loop' w',
        submit_feedback decision_id rating corrected_answer explanation (system, w)
        = (Ok (JObj [("feedback_id", JStr (fb_feedback_id feedback));
                     ("decision_id", JStr decision_id);
                     ("rating", JStr rating)]),
           ({| nc_knowledge := nc_knowledge system; nc_agent := nc_agent system;
               nc_learning := loop' |}, w'))
        /\ _feedback loop' = _feedback (nc_learning system) ++ [feedback]
        /\ fb_rating feedback = r /\ fb_decision_id feedback = decision_id
        /\ fb_corrected_answer feedback = corrected_answer
        /\ fb_explanation feedback = explanation).
Proof.
  assert (Hround : forall r, OutcomeRating_of_value (OutcomeRating_value r) = Ok r)
    by (intros []; reflexivity).
  assert (Hback : forall r, OutcomeRating_of_value rating = Ok r ->
                            OutcomeRating_value r = rating).
  { intros r. unfold OutcomeRating_of_value.
    destruct (String.eqb rating "correct") eqn:H1;
      [apply String.eqb_eq in H1; now intros [= <-] |].
    destruct (String.eqb rating "partially_correct") eqn:H2;
      [apply String.eqb_eq in H2; now intros [= <-] |].
    destruct (String.eqb rating "incorrect") eqn:H3;
      [apply String.eqb_eq in H3; now intros [= <-] |].
    destruct (String.eqb rating "hallucination") eqn:H4;
      [apply String.eqb_eq in H4; now intros [= <-] | discriminate]. }
  split; [exact Hround |]. split; [exact Hback |]. split.
  - intros Hnone. unfold submit_feedback, bind, lift_res.
    destruct (OutcomeRating_of_value rating) as [r|e] eqn:Hr.
    + exfalso. apply (Hnone r). now apply Hback.
    + unfold OutcomeRating_of_value in Hr.
      repeat match type of Hr with
             | (if ?c then _ else _) = _ => destruct c; [discriminate |]
             end.
      now injection Hr as <-.
  - intros r <-. unfold submit_feedback. unfold bind at 1. unfold lift_res.
    rewrite Hround.
    unfold bind at 1. unfold store_log at 1, fresh_id at 1. cbn [fst snd].
    unfold bind at 1. unfold store_log at 1, fresh_time at 1. cbn [fst snd].
    unfold bind, on_learning. cbn [fst snd nc_knowledge nc_agent nc_learning].
    match goal with |- context [record_feedback ?fb (?l, ?w0)] =>
      destruct (record_feedback_loop fb l w0) as (loop' & w' & Hrec & Hf & _);
      rewrite Hrec; exists fb, loop', w'
    end.
    unfold ret. cbn [fb_feedback_id fb_decision_id fb_rating fb_corrected_answer
                     fb_explanation].
    split; [reflexivity |]. split; [exact Hf |]. repeat split.
Qed.

End SystemMore.

(** * Closed runs

    The instances of the collaborators are fixed and the definitions are
    evaluated on concrete inputs. *)

Import Instances.
Import Formats.
Import Samples.

Lemma QFloat_laws : PyFloatLaws QFloat.
Proof.
  split; cbn [flt fle fadd fdiv lit of_int QFloat].
  - intros a b. now rewrite negb_involutive.
  - intros a b H. apply negb_true_iff in H. apply negb_false_iff, Qle_bool_iff.
    apply Qlt_le_weak, Qnot_le_lt. intros Hle. apply Qle_bool_iff in Hle. congruence.
  - intros a b c H1 H2. apply negb_false_iff, Qle_bool_iff in H1, H2.
    apply negb_false_iff, Qle_bool_iff. eapply Qle_trans; eassumption.
  - intros a. apply Qred_complete. rewrite (Qred_correct (Qred 1 / inject_Z a)).
    apply Qplus_0_l.
Qed.

#[export] Existing Instance QFloat_laws.

(** C2, at the failing input: a [contains:] condition whose pattern does
    not compile makes [_check_condition] raise [re.error]; the condition
    is not treated as unmatched. *)
Lemma check_condition_malformed_regex_raises :
  _check_condition broken_rule "any question" (no_evidence_response "any question") ∅
  = Raise re_error.
Proof. run_lhs. reflexivity. Qed.

(** C10, at the failing input: with a rule whose pattern does not compile,
    [evaluate] raises and returns no evaluation at all. *)
Lemma evaluate_malformed_regex_raises :
  evaluate {| _rules := [mk_rule "fine" "no_evidence" DENY; broken_rule] |}
           "any question" (no_evidence_response "any question") None world0
  = (Raise re_error, world0).
Proof. run_lhs. reflexivity. Qed.

(** C1, counterexample: two decisions in a row need approval; the second
    takes the slot, and the first can be neither approved nor rejected. *)
Lemma second_pending_decision_overwrites :
  exists d1 d2 s1 s2,
    decide no_http "first question" (no_evidence_response "first question") None
           (approval_agent, world0) = (Ok d1, s1)
    /\ d_agent_state d1 = WAITING_APPROVAL
    /\ option_map d_decision_id (_pending_decision (fst s1)) = Some (d_decision_id d1)
    /\ decide no_http "second question" (no_evidence_response "second question") None s1
       = (Ok d2, s2)
    /\ d_agent_state d2 = WAITING_APPROVAL
    /\ option_map d_decision_id (_pending_decision (fst s2)) = Some (d_decision_id d2)
    /\ d_decision_id d1 <> d_decision_id d2
    /\ approve (d_decision_id d1) s2 = (Ok None, s2)
    /\ reject (d_decision_id d1) "too late" s2 = (Ok None, s2).
Proof.
  do 4 eexists.
  split; [run_lhs; reflexivity |].
  split; [reflexivity |]. split; [reflexivity |].
  split; [run_lhs; reflexivity |].
  split; [reflexivity |]. split; [reflexivity |].
  split; [cbn; discriminate |].
  split; run_lhs; reflexivity.
Qed.

(** C1, witness: the first question is pending when the second is asked;
    afterwards the slot holds the second, and the first can be neither
    approved nor rejected. *)
Lemma decide_needs_approval_replaces_pending_witness :
  exists earlier decision stored s',
    _pending_decision (fst pending_state) = Some earlier
    /\ d_query earlier = "first question"
    /\ decide no_http "second question" (no_evidence_response "second question") None
              (fst pending_state, snd pending_state) = (Ok decision, s')
    /\ d_agent_state decision = WAITING_APPROVAL
    /\ _pending_decision (fst s') = Some stored
    /\ d_decision_id stored = d_decision_id decision
    /\ d_query stored = "second question"
    /\ d_decision_id earlier <> d_decision_id decision
    /\ approve (d_decision_id earlier) s' = (Ok None, s')
    /\ (forall reason, reject (d_decision_id earlier) reason s' = (Ok None, s')).
Proof.
  assert (Hp : exists earlier,
             _pending_decision (fst pending_state) = Some earlier
             /\ d_query earlier = "first question"
             /\ d_decision_id earlier = "id2").
  { eexists. split; [run_lhs; reflexivity |]. split; reflexivity. }
  destruct Hp as (earlier & Hp & Hq & Hid).
  assert (Hnew : match fst (decide no_http "second question"
                              (no_evidence_response "second question") None
                              (fst pending_state, snd pending_state)) with
                 | Ok d => Some (d_decision_id d)
                 | Raise _ => None
                 end = Some "id8").
  { run_lhs. reflexivity. }
  edestruct (decide_needs_approval_replaces_pending no_http (fst pending_state)
               (snd pending_state) "second question"
               (no_evidence_response "second question") None)
    as (decision & stored & s' & Hd & Hst & _ & Hslot & Hsid & Hsq & _ & _ & Hearlier).
  - run_lhs. reflexivity.
  - reflexivity.
  - run_lhs. reflexivity.
  - run_lhs. reflexivity.
  - rewrite Hd in Hnew. cbn [fst] in Hnew.
    assert (Hne : d_decision_id earlier <> d_decision_id decision).
    { rewrite Hid. injection Hnew as ->. discriminate. }
    destruct (Hearlier earlier Hp) as (Hnone & _).
    destruct (Hnone Hne) as [Ha Hr].
    exists earlier, decision, stored, s'.
    repeat (split; [assumption |]). assumption.
Defined.

(** C3, witness: a query that matches the [DENY] rule. *)
Lemma decide_deny_skips_generation_witness :
  exists decision s',
    decide no_http "tell me the secret" (no_evidence_response "q") None (deny_agent, world0)
      = (Ok decision, s')
    /\ decide (fun _ => Some (JStr "generated")) "tell me the secret"
              (no_evidence_response "q")
              None (deny_agent, world0) = (Ok decision, s')
    /\ d_agent_state decision = FAILED
    /\ d_answer decision = DENIED_ANSWER
    /\ d_query decision = "tell me the secret"
    /\ d_evidence decision = resp_results (no_evidence_response "q")
    /\ d_policy_evaluations decision
       = [ {| pe_rule := mk_rule "forbidden" "contains:secret" DENY; pe_matched := true;
              pe_verdict := DENY; pe_explanation := "Rule 'forbidden' matched" |};
           {| pe_rule := mk_rule "no_hallucination" "no_evidence" NEEDS_APPROVAL;
              pe_matched := true; pe_verdict := NEEDS_APPROVAL;
              pe_explanation := "Rule 'no_hallucination' matched" |} ]
    /\ _state (fst s') = FAILED
    /\ _pending_decision (fst s') = _pending_decision deny_agent
    /\ w_requests (snd s') = w_requests world0.
Proof.
  eapply (decide_deny_skips_generation no_http (fun _ => Some (JStr "generated"))
            deny_agent world0 "tell me the secret" (no_evidence_response "q") None).
  - run_lhs. reflexivity.
  - reflexivity.
Defined.

(** C4, counterexample: the store holds [d_t0_0] before [d_t1_1]; BM25
    ranks [d_t1_1] first and the vector proxy ranks [d_t0_0] first, so
    their fused scores are equal, and the hybrid results list [d_t1_1]
    first: the tie is not broken by insertion order. *)
Lemma hybrid_tie_not_in_store_order :
  map ck_chunk_id store_xz = ["d_t0_0"; "d_t1_1"]
  /\ map (fun x => (ck_chunk_id (fst x), snd x)) (scored_by store_xz "x" "hybrid")
     = [("d_t1_1", 123 # 3782); ("d_t0_0", 123 # 3782)]
  /\ map (fun r => (rr_chunk_id r, rr_score r)) (retrieve_results store_xz "x" 5 "hybrid")
     = [("d_t1_1", 13 # 400); ("d_t0_0", 13 # 400)].
Proof.
  split; [run_lhs; reflexivity |]. split; run_lhs; reflexivity.
Qed.

(** C4, witness: the same call, with exact rational arithmetic. *)
Lemma retrieve_filter_truncate_ties_witness :
  0 <= 5
  /\ retrieve_results store_xz "x" 5 "hybrid"
     = map result_of
         (take (Z.to_nat 5)
               (List.filter positive (sort_desc (scored_by store_xz "x" "hybrid")))).
Proof.
  split; [lia |].
  exact (proj1 (retrieve_filter_truncate_ties store_xz "x" 5 "hybrid" ltac:(lia))).
Defined.

(** C5, counterexample: a block of 501 letters without a sentence break
    is longer than the budget and comes out as one segment of 501
    characters. *)
Lemma split_text_long_sentence_over_budget :
  _split_text (PyStr.repeat_char "a" 501) 500 = [PyStr.repeat_char "a" 501]
  /\ String.length (PyStr.repeat_char "a" 501) = 501%nat.
Proof.
  split; run_lhs; reflexivity.
Qed.

(** A block without text: 501 spaces have one sentence, which is blank,
    and the block is returned whole. *)
Lemma split_text_blank_block_whole :
  _split_text (PyStr.repeat_char " " 501) 500 = [PyStr.repeat_char " " 501]
  /\ map PyStr.strip (sentences_of (PyStr.repeat_char " " 501)) = [EmptyString].
Proof.
  split; run_lhs; reflexivity.
Qed.

(** C6, counterexample: the same one-block document indexed twice gives
    two chunks with the identifier [e_t0_0].  The identifier is ranked
    first by both lists, yet its fused score is [1/61 + 1/62 + 1/61 + 1/62],
    not [1/61 + 1/61]. *)
Lemma rrf_shared_identifier_sums_all_terms :
  map ck_chunk_id store_twice = ["e_t0_0"; "e_t0_0"]
  /\ rank_of "e_t0_0" (_bm25_score store_twice "x" (lit 1.5) (lit 0.75)) = Some 1
  /\ rank_of "e_t0_0" (_vector_score store_twice "x") = Some 1
  /\ fused_score "e_t0_0" (scored_by store_twice "x" "hybrid") = Some (123 # 1891)
  /\ fadd (fdiv (lit 1) (of_int (60 + 1))) (fdiv (lit 1) (of_int (60 + 1))) = 2 # 61.
Proof.
  split; [run_lhs; reflexivity |]. split; [run_lhs; reflexivity |].
  split; [run_lhs; reflexivity |]. split; run_lhs; reflexivity.
Qed.

(** C6, witness: a store in which two chunks share the identifier
    [e_t0_0] and the third has its own; the score of the third is the sum
    of its two terms. *)
Lemma rrf_fused_score_witness :
  map ck_chunk_id store_mixed = ["e_t0_0"; "e_t0_0"; "f_t0_0"]
  /\ occurrences "f_t0_0" (map ck_chunk_id store_mixed) = 1%nat
  /\ exists r1 r2,
       rank_of "f_t0_0" (_bm25_score store_mixed "x" (lit 1.5) (lit 0.75)) = Some r1
       /\ rank_of "f_t0_0" (_vector_score store_mixed "x") = Some r2
       /\ fused_score "f_t0_0" (scored_by store_mixed "x" "hybrid")
          = Some (fadd (fdiv (lit 1) (of_int (60 + r1))) (fdiv (lit 1) (of_int (60 + r2)))).
Proof.
  split; [run_lhs; reflexivity |]. split; [vm_compute; reflexivity |].
  apply (rrf_fused_score store_mixed "x" "f_t0_0"). vm_compute. reflexivity.
Defined.

(** The merged identifier: the two chunks that share [e_t0_0] hold the
    ranks 1 and 2 of both lists, and the fused score is the sum of the
    four terms. *)
Lemma rrf_merged_identifier_ranks :
  ranks_of "e_t0_0" (_bm25_score store_twice "x" (lit 1.5) (lit 0.75)) = [1; 2]
  /\ ranks_of "e_t0_0" (_vector_score store_twice "x") = [1; 2]
  /\ fused_score "e_t0_0" (scored_by store_twice "x" "hybrid")
     = sum_terms 60 [1; 2; 1; 2]
  /\ sum_terms 60 [1; 2; 1; 2] = Some (123 # 1891).
Proof.
  split; [run_lhs; reflexivity |]. split; [run_lhs; reflexivity |].
  split; [| run_lhs; reflexivity].
  transitivity (Some (123 # 1891)); [| symmetry]; run_lhs; reflexivity.
Qed.

(** C7, at the failing input: five [INCORRECT] ratings, then four
    [HALLUCINATION] ratings.  The fourth hallucination adds an adjustment
    (a [prompt_patch], because the count of incorrect answers still stands
    at five); and after three hallucinations alone, a [CORRECT] rating adds
    a second [retrieval_weight] adjustment. *)
Lemma fourth_hallucination_adds_adjustment :
  adjustment_types_after
    [INCORRECT; INCORRECT; INCORRECT; INCORRECT; INCORRECT;
     HALLUCINATION; HALLUCINATION; HALLUCINATION]
  = ["prompt_patch"; "prompt_patch"; "prompt_patch"; "retrieval_weight"; "prompt_patch"]
  /\ adjustment_types_after
       [INCORRECT; INCORRECT; INCORRECT; INCORRECT; INCORRECT;
        HALLUCINATION; HALLUCINATION; HALLUCINATION; HALLUCINATION]
     = ["prompt_patch"; "prompt_patch"; "prompt_patch"; "retrieval_weight"; "prompt_patch";
        "prompt_patch"]
  /\ adjustment_types_after [HALLUCINATION; HALLUCINATION; HALLUCINATION]
     = ["retrieval_weight"]
  /\ adjustment_types_after [HALLUCINATION; HALLUCINATION; HALLUCINATION; CORRECT]
     = ["retrieval_weight"; "retrieval_weight"].
Proof.
  split; [run_lhs; reflexivity |]. split; [run_lhs; reflexivity |].
  split; run_lhs; reflexivity.
Qed.

(** X1, witness: the two rules of [deny_agent] compile. *)
Lemma evaluate_one_per_rule_witness :
  exists evaluations w',
    evaluate (_policy deny_agent) "tell me the secret" (no_evidence_response "q") None world0
      = (Ok evaluations, w')
    /\ map pe_rule evaluations = _rules (_policy deny_agent)
    /\ Forall (fun ev =>
                 pe_verdict ev = if pe_matched ev then pr_verdict (pe_rule ev) else ALLOW)
              evaluations.
Proof.
  apply (evaluate_one_per_rule (_policy deny_agent) "tell me the secret"
           (no_evidence_response "q") None world0).
  repeat constructor; intros _; discriminate.
Defined.

(** Deleting the marker from the answer that quotes it. *)
Lemma marked_answer_deleted :
  deleted AWAITING_MARKER "see [AWAITING APPROVAL] page 2" "see page 2".
Proof.
  do 4 (apply deleted_char; [intros rest H; cbv in H; discriminate H |]).
  apply (deleted_occurrence AWAITING_MARKER "page 2" "page 2").
  do 6 (apply deleted_char; [intros rest H; cbv in H; discriminate H |]).
  apply deleted_end.
Qed.


Lemma QFloat_sign : PyFloatSign QFloat.
Proof.
  split; cbn [flt fle fadd fdiv lit of_int QFloat].
  - reflexivity.
  - intros n _. apply Qred_complete. unfold Qdiv. apply Qmult_0_l.
  - intros n Hn. destruct (Qle_bool _ _) eqn:Hle; [exfalso | reflexivity].
    apply Qle_bool_iff in Hle. rewrite !Qred_correct in Hle.
    assert (Hpos : (0 < 1 / inject_Z n)%Q).
    { unfold Qdiv. rewrite Qmult_1_l. apply Qinv_lt_0_compat.
      change 0%Q with (inject_Z 0). now rewrite <- Zlt_Qlt. }
    apply (Qlt_not_le _ _ Hpos). exact Hle.
  - intros a b Ha Hb. destruct (Qle_bool (Qred (a + b)) _) eqn:Hle; [exfalso | reflexivity].
    apply Qle_bool_iff in Hle. rewrite Qred_correct in Hle.
    assert (Ha' : (0 < a)%Q).
    { apply Qnot_le_lt. intros H. apply Qle_bool_iff in H.
      change (inject_Z 0) with 0%Q in Ha. congruence. }
    assert (Hb' : (0 < b)%Q).
    { apply Qnot_le_lt. intros H. apply Qle_bool_iff in H.
      change (inject_Z 0) with 0%Q in Hb. congruence. }
    apply (Qlt_not_le 0 (a + b)); [| exact Hle].
    rewrite <- (Qplus_0_l 0). now apply Qplus_lt_le_compat; [| apply Qlt_le_weak].
Qed.

#[export] Existing Instance QFloat_sign.

(** X3, witness: the first question to the agent with the default rule,
    first with a service that fails, then with a key and a service that
    sends [null]. *)
Lemma decide_returns_and_logs_witness :
  (exists decision s' e1 e2,
     decide no_http "first question" (no_evidence_response "first question") None
            (approval_agent, world0) = (Ok decision, s')
     /\ d_query decision = "first question"
     /\ d_evidence decision = resp_results (no_evidence_response "first question")
     /\ d_policy_evaluations decision
        = [ {| pe_rule := mk_rule "no_hallucination" "no_evidence" NEEDS_APPROVAL;
               pe_matched := true; pe_verdict := NEEDS_APPROVAL;
               pe_explanation := "Rule 'no_hallucination' matched" |} ]
     /\ w_events (snd s') = w_events world0 ++ [e1; e2]
     /\ ae_event_type e1 = "policy_evaluation" /\ ae_decision_id e1 = None
     /\ ae_layer e2 = "reasoning"
     /\ ae_event_type e2 = decision_event_type (d_agent_state decision)
     /\ ae_decision_id e2 = Some (d_decision_id decision)
     /\ ae_actor e2 = "system"
     /\ _settings (fst s') = _settings approval_agent
     /\ _policy (fst s') = _policy approval_agent)
  /\ (exists s' e1,
        decide null_http "first question" (no_evidence_response "first question") None
               (keyed_agent, world0) = (Raise ValidationError, s')
        /\ w_events (snd s') = w_events world0 ++ [e1]
        /\ ae_event_type e1 = "policy_evaluation"
        /\ _state (fst s') = RUNNING
        /\ _pending_decision (fst s') = _pending_decision keyed_agent
        /\ api_key (orchestrator (_settings keyed_agent)) <> EmptyString).
Proof.
  split.
  - edestruct (decide_returns_and_logs no_http approval_agent world0 "first question"
                 (no_evidence_response "first question") None) as [Hok _].
    + run_lhs. reflexivity.
    + run_lhs. reflexivity.
    + apply Hok. right. reflexivity.
  - edestruct (decide_returns_and_logs null_http keyed_agent world0 "first question"
                 (no_evidence_response "first question") None) as [_ Hbad].
    + run_lhs. reflexivity.
    + run_lhs. reflexivity.
    + apply Hbad; [discriminate | reflexivity].
Defined.

(** X4, witness: a question that the only rule does not match, answered
    by the service. *)
Lemma decide_completes_witness :
  exists decision s',
    decide marked_http "hello" (no_evidence_response "hello") None
           (keyed_secret_agent, world0) = (Ok decision, s')
    /\ d_answer decision = "see [AWAITING APPROVAL] page 2"
    /\ d_agent_state decision = COMPLETED
    /\ d_model_used decision = model (orchestrator (_settings keyed_secret_agent))
    /\ d_auditor_model decision = model (auditor (_settings keyed_secret_agent))
    /\ _state (fst s') = COMPLETED
    /\ _pending_decision (fst s') = _pending_decision keyed_secret_agent.
Proof.
  eapply (decide_completes marked_http keyed_secret_agent world0 "hello"
            (no_evidence_response "hello") None).
  - run_lhs. reflexivity.
  - left. reflexivity.
  - run_lhs. reflexivity.
Defined.

(** X5, witness: the agent without credentials, asked without evidence. *)
Lemma decide_falls_back_witness :
  exists decision s',
    decide no_http "first question" (no_evidence_response "first question") None
           (approval_agent, world0) = (Ok decision, s')
    /\ d_answer decision =
       match d_agent_state decision with
       | WAITING_APPROVAL =>
           AWAITING_MARKER
           +:+ _fallback_answer "first question" (no_evidence_response "first question")
       | _ => _fallback_answer "first question" (no_evidence_response "first question")
       end
    /\ (resp_results (no_evidence_response "first question") = [] ->
        _fallback_answer "first question" (no_evidence_response "first question")
        = "No evidence found. Cannot answer without grounded data.")
    /\ (api_key (orchestrator (_settings approval_agent)) = EmptyString ->
        api_key (auditor (_settings approval_agent)) = EmptyString ->
        w_requests (snd s') = w_requests world0).
Proof.
  eapply (decide_falls_back no_http approval_agent world0 "first question"
            (no_evidence_response "first question") None).
  - run_lhs. reflexivity.
  - cbn. discriminate.
  - left. reflexivity.
Defined.

(** X6, witness: the first question is pending and is rejected. *)
Lemma reject_pending_witness :
  exists pending rejected e,
    _pending_decision (fst pending_state) = Some pending
    /\ d_decision_id pending = "id2"
    /\ reject "id2" "not grounded" (fst pending_state, snd pending_state)
       = (Ok (Some rejected),
          (DecisionAgent_with (fst pending_state) FAILED None, logged (snd pending_state) e))
    /\ rejected = Decision_replace pending FAILED "[REJECTED] not grounded"
    /\ d_decision_id rejected = "id2"
    /\ ae_event_type e = "decision_rejected" /\ ae_actor e = "human"
    /\ ae_decision_id e = Some "id2"
    /\ ae_payload e = [("reason", JStr "not grounded")].
Proof.
  assert (Hp : exists pending,
             _pending_decision (fst pending_state) = Some pending
             /\ d_decision_id pending = "id2").
  { eexists. split; [run_lhs; reflexivity |]. reflexivity. }
  destruct Hp as (pending & Hp & Hid).
  destruct (reject_pending (fst pending_state) (snd pending_state) "id2" "not grounded"
              pending Hp Hid) as (rejected & e & H).
  exists pending, rejected, e.
  split; [exact Hp |]. split; [exact Hid |]. exact H.
Defined.

(** X7, witness: the service quotes the marker in its answer; the
    decision carries the marker before it and the approved one has lost
    both. *)
Lemma decide_then_approve_witness :
  exists decision s1 approved s2,
    decide marked_http "first question" (no_evidence_response "first question") None
           (keyed_agent, world0) = (Ok decision, s1)
    /\ d_answer decision = AWAITING_MARKER +:+ "see [AWAITING APPROVAL] page 2"
    /\ approve (d_decision_id decision) s1 = (Ok (Some approved), s2)
    /\ approved = Decision_replace decision COMPLETED "see page 2"
    /\ _state (fst s2) = COMPLETED
    /\ approve (d_decision_id decision) s2 = (Ok None, s2)
    /\ (forall reason, reject (d_decision_id decision) reason s2 = (Ok None, s2)).
Proof.
  edestruct (decide_then_approve marked_http keyed_agent world0 "first question"
               (no_evidence_response "first question") None)
    as (decision & s1 & approved & s2 & Hd & Hans & Ha & Heq & _ & Hfun & _ & Hst
        & Ha2 & Hr2).
  - run_lhs. reflexivity.
  - reflexivity.
  - reflexivity.
  - run_lhs. reflexivity.
  - exists decision, s1, approved, s2.
    split; [exact Hd |]. split; [exact Hans |]. split; [exact Ha |].
    split; [| split; [exact Hst | split; [exact Ha2 | exact Hr2]]].
    rewrite Heq at 1. f_equal. symmetry. apply Hfun. exact marked_answer_deleted.
Defined.

(** X9, witness: the rule about the secret is added to the default rule. *)
Lemma add_rule_tightens_witness :
  exists new w2,
    evaluate (add_rule (_policy approval_agent) (mk_rule "forbidden" "contains:secret" DENY))
             "tell me the secret" (no_evidence_response "q") None world0
      = (Ok ([ {| pe_rule := mk_rule "no_hallucination" "no_evidence" NEEDS_APPROVAL;
                  pe_matched := true; pe_verdict := NEEDS_APPROVAL;
                  pe_explanation := "Rule 'no_hallucination' matched" |} ] ++ [new]), w2)
    /\ pe_rule new = mk_rule "forbidden" "contains:secret" DENY
    /\ pe_matched new = true
    /\ check_allowed
         ([ {| pe_rule := mk_rule "no_hallucination" "no_evidence" NEEDS_APPROVAL;
               pe_matched := true; pe_verdict := NEEDS_APPROVAL;
               pe_explanation := "Rule 'no_hallucination' matched" |} ] ++ [new])
       = DENY.
Proof.
  eapply (add_rule_tightens (_policy approval_agent)
            (mk_rule "forbidden" "contains:secret" DENY)
            "tell me the secret" (no_evidence_response "q") None world0).
  - run_lhs. reflexivity.
  - run_lhs. reflexivity.
Defined.

(** X10, witness: the pattern with an unclosed parenthesis. *)
Lemma rejected_pattern_raises_witness :
  evaluate (_policy broken_agent) "any question" (no_evidence_response "any question")
           None world0 = (Raise re_error, world0)
  /\ forall http,
       decide http "any question" (no_evidence_response "any question") None
              (broken_agent, world0)
       = (Raise re_error,
          (DecisionAgent_with broken_agent RUNNING (_pending_decision broken_agent), world0)).
Proof.
  apply (rejected_pattern_raises broken_agent world0 "any question"
           (no_evidence_response "any question") None).
  apply Exists_cons_tl, Exists_cons_hd. split; reflexivity.
Defined.

(** X13, witness: the store of two chunks queried for [x] under BM25. *)
Lemma lexical_results_share_term_witness :
  Forall (fun r => exists c s,
              In c store_xz /\ shares_term "x" c /\ r = result_of (c, s))
         (retrieve_results store_xz "x" 5 "bm25")
  /\ (terms_of "x" = [] -> retrieve_results store_xz "x" 5 "bm25" = []).
Proof.
  apply (lexical_results_share_term store_xz "x" 5 "bm25"). left. reflexivity.
Defined.

(** X14, witness: a query that has no term in common with the two chunks
    of the store still gets both of them. *)
Lemma hybrid_never_filters_witness :
  retrieve_results store_xz "unrelated" 5 "hybrid"
  = map result_of (take (Z.to_nat 5) (sort_desc (scored_by store_xz "unrelated" "hybrid")))
  /\ (NoDup (map ck_chunk_id store_xz) ->
      length (retrieve_results store_xz "unrelated" 5 "hybrid")
      = Nat.min (Z.to_nat 5) (length store_xz)).
Proof.
  apply (hybrid_never_filters store_xz "unrelated" 5 "hybrid").
  - discriminate.
  - discriminate.
  - lia.
Defined.

(** X16, witness: a new loop has counted nothing, and a first
    hallucination is recorded. *)
Lemma record_feedback_keeps_counts_witness :
  exists loop' w',
    record_feedback (mk_feedback 0 HALLUCINATION) (new_loop, world0)
    = (Ok (mk_feedback 0 HALLUCINATION), (loop', w'))
    /\ counts_consistent loop'
    /\ count_of (_mistake_counts loop') "hallucination"
       = count_rating HALLUCINATION (_feedback new_loop ++ [mk_feedback 0 HALLUCINATION])
    /\ count_of (_mistake_counts loop') "incorrect"
       = count_rating INCORRECT (_feedback new_loop ++ [mk_feedback 0 HALLUCINATION])
    /\ map adjustment_summary (_adjustments loop')
       = map adjustment_summary (_adjustments new_loop)
         ++ adjustments_due (_mistake_counts loop').
Proof.
  apply (record_feedback_keeps_counts (mk_feedback 0 HALLUCINATION) new_loop world0).
  intros []; reflexivity.
Defined.

(** Grading Latin-1 letters: [lower] moves the capitals [A]-[Z] and the
    capitals 192-222 but the multiplication sign up by 32 and keeps every
    other code point below 256, so that the answer [ETE] with acute
    capitals is graded [CORRECT] against the expectation in small
    letters. *)
Lemma evaluate_decision_latin1 :
  code_points (PyStr.lower (of_code_points (seq 65 26))) = seq 97 26
  /\ code_points (PyStr.lower (of_code_points (seq 192 31)))
     = seq 224 23 ++ [215%nat] ++ seq 248 7
  /\ code_points (PyStr.lower (of_code_points (seq 0 65 ++ seq 91 101 ++ seq 223 33)))
     = seq 0 65 ++ seq 91 101 ++ seq 223 33
  /\ option_map fb_rating
       (match fst (evaluate_decision (mk_decision (of_code_points [201%nat; 84%nat; 201%nat]))
                                     (of_code_points [233%nat; 116%nat; 233%nat])
                                     (new_loop, world0)) with
        | Ok feedback => Some feedback
        | Raise _ => None
        end)
     = Some CORRECT.
Proof.
  split; [vm_compute; reflexivity |]. split; [vm_compute; reflexivity |].
  split; vm_compute; reflexivity.
Qed.

(** X20, witness: the identifiers of the counter runtime are not empty. *)
Lemma decide_trace_witness :
  (exists decision s' e1 e2,
     decide no_http "first question" (no_evidence_response "first question") None
            (approval_agent, world0) = (Ok decision, s')
     /\ get_decision_trace (snd s') (d_decision_id decision)
        = get_decision_trace world0 (d_decision_id decision) ++ [e2]
     /\ ae_event_type e2 = decision_event_type (d_agent_state decision)
     /\ ae_event_type e1 = "policy_evaluation"
     /\ get_events (snd s') None (Some "reasoning")
        = get_events world0 None (Some "reasoning") ++ [e1; e2]
     /\ (forall other,
            other <> EmptyString -> other <> d_decision_id decision ->
            get_decision_trace (snd s') other = get_decision_trace world0 other))
  /\ (exists s' e1,
        decide null_http "first question" (no_evidence_response "first question") None
               (keyed_agent, world0) = (Raise ValidationError, s')
        /\ get_events (snd s') None (Some "reasoning")
           = get_events world0 None (Some "reasoning") ++ [e1]
        /\ ae_event_type e1 = "policy_evaluation"
        /\ (forall other,
               other <> EmptyString ->
               get_decision_trace (snd s') other = get_decision_trace world0 other)).
Proof.
  split.
  - edestruct (decide_trace no_http approval_agent world0 "first question"
                 (no_evidence_response "first question") None) as [Hok _].
    + run_lhs. reflexivity.
    + run_lhs. reflexivity.
    + intros n. discriminate.
    + apply Hok. right. reflexivity.
  - edestruct (decide_trace null_http keyed_agent world0 "first question"
                 (no_evidence_response "first question") None) as [_ Hbad].
    + run_lhs. reflexivity.
    + run_lhs. reflexivity.
    + intros n. discriminate.
    + apply Hbad; [discriminate | reflexivity].
Defined.

Lemma default_rules_harmless :
  Forall harmless_rule (_rules (_policy (nc_agent default_system))).
Proof. repeat constructor; discriminate. Defined.

(** X21, witness: the default rules are harmless; the query is answered
    when the service fails, and raises [ValidationError] when the service
    sends [null]. *)
Lemma query_with_harmless_rules_witness :
  (exists decision system' w',
     NanoCortex_query no_http "x" 5 "hybrid" None (default_system, world0)
     = (Ok (query_result decision), (system', w'))
     /\ d_query decision = "x"
     /\ d_evidence decision
        = retrieve_results (_chunks (nc_knowledge default_system)) "x" 5 "hybrid"
     /\ (d_agent_state decision = COMPLETED \/ d_agent_state decision = WAITING_APPROVAL)
     /\ (enable_human_in_loop (_settings (nc_agent default_system)) = false ->
         d_agent_state decision = COMPLETED)
     /\ _state (nc_agent system') = d_agent_state decision
     /\ nc_knowledge system' = nc_knowledge default_system
     /\ nc_learning system' = nc_learning default_system)
  /\ (exists system' w',
        NanoCortex_query null_http "x" 5 "hybrid" None (keyed_system, world0)
        = (Raise ValidationError, (system', w'))
        /\ nc_knowledge system' = nc_knowledge keyed_system
        /\ nc_learning system' = nc_learning keyed_system
        /\ _state (nc_agent system') = RUNNING
        /\ _pending_decision (nc_agent system') = None).
Proof.
  split.
  - apply (proj1 (query_with_harmless_rules no_http "x" 5 "hybrid" None default_system
                    world0 default_rules_harmless)).
    left. reflexivity.
  - destruct (proj2 (query_with_harmless_rules null_http "x" 5 "hybrid" None keyed_system
                       world0 default_rules_harmless))
      as (result & system' & w' & Hq & Hk & Hl & Hraise).
    assert (Hr : fst (NanoCortex_query null_http "x" 5 "hybrid" None (keyed_system, world0))
                 = Raise ValidationError) by (run_lhs; reflexivity).
    rewrite Hq in Hr. cbn [fst] in Hr. subst result.
    destruct (Hraise ValidationError eq_refl) as (_ & Hst & Hp & _).
    exists system', w'. repeat (split; [assumption |]). exact Hp.
Defined.

(** X22, witness: a system started without credentials. *)
Lemma fresh_system_asks_for_approval_witness :
  exists system w0 decision s1 stripped s2,
    NanoCortex_init offline_settings world0 = (Ok system, w0)
    /\ map pr_name (_rules (_policy (nc_agent system)))
       = ["no_hallucination"; "low_confidence"]
    /\ NanoCortex_query no_http "x" 5 "hybrid" None (system, w0)
       = (Ok (query_result decision), s1)
    /\ d_evidence decision = []
    /\ d_agent_state decision = WAITING_APPROVAL
    /\ d_answer decision
       = AWAITING_MARKER +:+ "No evidence found. Cannot answer without grounded data."
    /\ approve_decision (d_decision_id decision) s1
       = (Ok (JObj [("decision_id", JStr (d_decision_id decision));
                    ("answer", JStr stripped);
                    ("state", JStr "completed")]), s2)
    /\ stripped = "No evidence found. Cannot answer without grounded data."
    /\ approve_decision (d_decision_id decision) s2 = (Ok (decision_result None), s2).
Proof.
  destruct (fresh_system_asks_for_approval offline_settings world0 no_http "x" 5 "hybrid"
              None (or_introl eq_refl))
    as (system & w0 & e0 & Hinit & _ & _ & _ & Hnames & _ & decision & s1 & answer
        & first & rest & Hq & Hev & _ & _ & _ & _ & Hst & Hans & Hkey & Hhitl & _).
  destruct (Hhitl eq_refl) as (stripped & s2 & Ha & Hdel & _ & Ha2).
  specialize (Hkey eq_refl). subst answer.
  exists system, w0, decision, s1, stripped, s2.
  split; [exact Hinit |]. split; [exact Hnames |]. split; [exact Hq |].
  split; [exact Hev |]. split; [exact Hst |]. split; [exact Hans |].
  split; [exact Ha |]. split; [| exact Ha2].
  apply (deleted_functional AWAITING_MARKER
           "No evidence found. Cannot answer without grounded data.");
    [discriminate | exact Hdel |].
  apply deleted_absent, str_in_absent. reflexivity.
Defined.
